(** * gojsonvalidator: a shallow embedding of the JSON Schema validator

    The development follows the Go sources:
    - [jsonwalker]     (JSON-Pointer evaluation),
    - [formatchecker]  (the json-pointer and relative-json-pointer formats),
    - [jsonvalidator]  (schema decoding, [scanSchema], the root-schema pool,
                        the keyword validators and [$ref] resolution).

    Conventions of the embedding.
    - A Go byte slice holding JSON text ([[]byte], [json.RawMessage]) is
      represented by the JSON value it decodes to; [json.Marshal] followed by
      [json.Unmarshal] is the identity on such values.
    - A Go map is an association list with distinct keys; Go iterates a map in
      an unspecified order and the embedding iterates in list order.
    - JSON numbers are exact rationals; the rounding of [float64] is not
      modelled.
    - A run-time panic (index out of range, nil dereference) is the outcome
      [Panic]; recursion that Go does not bound ([$ref] cycles) is driven by
      fuel and [NoFuel] is the outcome of running out of it.
    - Functions of Go's standard library that the sources call and that are
      not re-implemented here (regular expressions, RFC 3339 time parsing,
      mail and URL parsing, ...) are fields of the record [GoLib]. *)

From Stdlib Require Import ZArith QArith String Ascii List DecimalString.
From stdpp Require Import gmap strings.
Import ListNotations.

Set Warnings "-register-all".
Local Open Scope string_scope.

(** ** Go errors *)

(** The error types of the three packages, and the library errors the
    sources let through. *)
Inductive error : Type :=
| KeywordValidationError (keyword reason : string)
| SchemaValidationError (path err : string)
| SchemaCompilationError (path err : string)
| InvalidDraftError (draft : string)
| InvalidReferenceError (schemaURI fragment err : string)
| JsonArrayIndexError (index : Z)
| JsonPointerSyntaxError (err path : string)
| InvalidJsonPointerError (path reason : string)
| MissingJsonTokenError (token : string)
| NumError (func num err : string)          (* strconv *)
| ErrorString (msg : string)                (* errors.New, fmt.Errorf *)
| Wrapped (cause : error) (msg : string).   (* errors.Wrap *)

(** The one-character string holding a double quote. *)
Definition dquote : string := String (ascii_of_nat 34) EmptyString.

(** [strconv.Itoa]. *)
Definition strconv_Itoa (i : Z) : string := NilZero.string_of_int (Z.to_int i).

(** The [Error()] methods. *)
Fixpoint Error (e : error) : string :=
  match e with
  | KeywordValidationError keyword reason =>
      dquote +:+ keyword +:+ dquote +:+ " validation failed, reason: " +:+ reason
  | SchemaValidationError path err =>
      let jsonPath := if String.eqb path "" then "/" else path in
      "validation failed in path " +:+ jsonPath +:+ ": " +:+ err
  | SchemaCompilationError path err =>
      "schema compilation failed in path " +:+ path +:+ ": " +:+ err
  | InvalidDraftError draft =>
      "draft " +:+ draft +:+ " is not supported by JsonValidator"
  | InvalidReferenceError schemaURI fragment err =>
      let fragment := if String.eqb fragment "" then "/" else fragment in
      err +:+ ": schema id - " +:+ schemaURI +:+ ", fragment - " +:+ fragment
  | JsonArrayIndexError index =>
      "Index " +:+ strconv_Itoa index +:+ " out of range"
  | JsonPointerSyntaxError err path =>
      "JsonPointer syntax error for " +:+ dquote +:+ path +:+ dquote +:+ " - " +:+ err
  | InvalidJsonPointerError path reason =>
      "invalid json pointer " +:+ dquote +:+ path +:+ dquote +:+ ": " +:+ reason
  | MissingJsonTokenError token =>
      "token " +:+ dquote +:+ token +:+ dquote +:+ " is missing"
  | NumError func num err =>
      "strconv." +:+ func +:+ ": parsing " +:+ dquote +:+ num +:+ dquote +:+ ": " +:+ err
  | ErrorString msg => msg
  | Wrapped cause msg => msg +:+ ": " +:+ Error cause
  end.

(** ** Outcomes of a call *)

Inductive result (A : Type) : Type :=
| Ok (a : A)            (* returned, with a nil error *)
| Err (e : error)       (* returned a non-nil error *)
| Panic (msg : string)  (* run-time panic *)
| NoFuel.               (* the embedding ran out of fuel *)
Arguments Ok {A} a.
Arguments Err {A} e.
Arguments Panic {A} msg.
Arguments NoFuel {A}.

#[global] Instance result_ret : MRet result := fun A a => Ok a.
#[global] Instance result_bind : MBind result := fun A B f m =>
  match m with
  | Ok a => f a
  | Err e => Err e
  | Panic msg => Panic msg
  | NoFuel => NoFuel
  end.

(** A call that returned, with either verdict. *)
Definition returned {A} (r : result A) : bool :=
  match r with Ok _ | Err _ => true | _ => false end.

Definition is_Ok {A} (r : result A) : bool :=
  match r with Ok _ => true | _ => false end.

(** ** Strings *)

(** [strings.Split(s, sep)] for a separator of one byte. *)
Fixpoint strings_Split (s : string) (sep : ascii) : list string :=
  match s with
  | EmptyString => [EmptyString]
  | String c s' =>
      if Ascii.eqb c sep then EmptyString :: strings_Split s' sep
      else match strings_Split s' sep with
           | x :: xs => String c x :: xs
           | [] => [String c EmptyString]
           end
  end.

(** [strings.Contains(s, sep)] for a separator of one byte. *)
Fixpoint strings_Contains (s : string) (sep : ascii) : bool :=
  match s with
  | EmptyString => false
  | String c s' => Ascii.eqb c sep || strings_Contains s' sep
  end.

(** [s[n:]]. *)
Fixpoint string_drop (n : nat) (s : string) : string :=
  match n, s with
  | O, _ => s
  | S n', String _ s' => string_drop n' s'
  | S _, EmptyString => EmptyString
  end.

Definition is_digit (c : ascii) : bool :=
  (48 <=? nat_of_ascii c)%nat && (nat_of_ascii c <=? 57)%nat.

(** The value of a string of decimal digits read after [acc]; [None] when
    some byte is not a digit. *)
Fixpoint digits_value (s : string) (acc : Z) : option Z :=
  match s with
  | EmptyString => Some acc
  | String c s' =>
      if is_digit c
      then digits_value s' (10 * acc + (Z.of_nat (nat_of_ascii c) - 48))%Z
      else None
  end.

Definition maxInt : Z := (2 ^ 63 - 1)%Z.
Definition minInt : Z := (- 2 ^ 63)%Z.

(** [strconv.Atoi] on a 64-bit platform: an optional sign, then one or more
    decimal digits; the pair is Go's [(int, error)]. *)
Definition strconv_Atoi (s : string) : Z * option error :=
  let syntax := (0%Z, Some (NumError "Atoi" s "invalid syntax")) in
  let range v := (v, Some (NumError "Atoi" s "value out of range")) in
  let '(neg, body) :=
    match s with
    | String "-" s' => (true, s')
    | String "+" s' => (false, s')
    | _ => (false, s)
    end in
  match body with
  | EmptyString => syntax
  | _ =>
      match digits_value body 0 with
      | None => syntax
      | Some n =>
          if neg
          then if (n <=? - minInt)%Z then ((- n)%Z, None) else range minInt
          else if (n <=? maxInt)%Z then (n, None) else range maxInt
      end
  end.

(** ** JSON values *)

(** What [json.Unmarshal] stores in an [interface{}]: [nil], [bool],
    [float64], [string], [[]interface{}] or [map[string]interface{}]. *)
Inductive json : Type :=
| JNull
| JBool (b : bool)
| JNumber (q : Q)
| JString (s : string)
| JArray (l : list json)
| JObject (m : list (string * json)).

(** A byte slice handed to [json.Unmarshal]: the value it decodes to, or the
    error of the decoder when the text is not JSON. *)
Inductive rawJSON : Type :=
| RawJSON (v : json)
| BadJSON (err : error).

(** [m[key]] with its presence flag, on an association list. *)
Fixpoint assoc {A} (key : string) (m : list (string * A)) : option A :=
  match m with
  | [] => None
  | (k, v) :: m' => if String.eqb k key then Some v else assoc key m'
  end.

(** ** Package jsonwalker *)

Module jsonwalker.

(** [type JsonPointer []string]. *)
Definition JsonPointer : Type := list string.

Definition NewJsonPointer (path : string) : result JsonPointer :=
  match path with
  | EmptyString => Ok []
  | String c _ =>
      if String.eqb path "/" then Ok []
      else if negb (Ascii.eqb c "/")
      then Err (JsonPointerSyntaxError
                  "first character of non-empty reference must be '/'" path)
      else Ok (tail (strings_Split path "/"))
  end.

(** [v[index]] on a slice: a panic outside [0 <= index < len(v)]. *)
Definition index_slice {A} (v : list A) (index : Z) : result A :=
  if (index <? 0)%Z then Panic "index out of range"
  else match nth_error v (Z.to_nat index) with
       | Some x => Ok x
       | None => Panic "index out of range"
       end.

Definition evaluateToken (token : string) (jsonData : json) : result json :=
  match jsonData with
  | JObject v =>
      match assoc token v with
      | Some prop => Ok prop
      | None => Err (MissingJsonTokenError token)
      end
  | JArray v =>
      let '(index, err) := strconv_Atoi token in
      match err with
      | Some err => Err err
      | None => index_slice v index
      end
  | _ => Err (MissingJsonTokenError token)
  end.

(** The loop of [Evaluate] over the tokens that remain. *)
Fixpoint Evaluate_loop (jp tokens : JsonPointer) (data : json) : result json :=
  match tokens with
  | [] => Ok data
  | token :: tokens' =>
      match evaluateToken token data with
      | Ok data' => Evaluate_loop jp tokens' data'
      | Err err =>
          Err (InvalidJsonPointerError ("/" +:+ String.concat "/" jp) (Error err))
      | Panic msg => Panic msg
      | NoFuel => NoFuel
      end
  end.

(** [func (jp JsonPointer) Evaluate]: [json.Unmarshal] first, then the
    tokens. *)
Definition Evaluate (jp : JsonPointer) (jsonData : rawJSON) : result json :=
  match jsonData with
  | BadJSON err => Err err
  | RawJSON data =>
      match jp with
      | [] => Ok data
      | _ => Evaluate_loop jp jp data
      end
  end.

End jsonwalker.

(** ** Ranging over a string *)

(** [for _, r := range s] decodes the bytes of [s] as UTF-8, one rune at a
    time as [utf8.DecodeRuneInString] does: a byte below 0x80 is its own rune;
    a leading byte announces two, three or four bytes, the second of which
    lies in the range that goes with the leading byte and the others between
    [locb] and [hicb]; where the bytes are no such encoding, or too few are
    left, the rune is [RuneError] and one byte is consumed. *)
Module utf8.

Definition RuneError : Z := 0xFFFD.

Definition locb : Z := 0x80.
Definition hicb : Z := 0xBF.

Definition byte_of (b : ascii) : Z := Z.of_nat (nat_of_ascii b).

Definition acceptRange (s0 : Z) : Z * Z :=
  if (s0 =? 0xE0)%Z then (0xA0, hicb)%Z
  else if (s0 =? 0xED)%Z then (locb, 0x9F)%Z
  else if (s0 =? 0xF0)%Z then (0x90, hicb)%Z
  else if (s0 =? 0xF4)%Z then (locb, 0x8F)%Z
  else (locb, hicb).

Definition accept (lo hi : Z) (b : ascii) : bool :=
  (lo <=? byte_of b)%Z && (byte_of b <=? hi)%Z.

Fixpoint runes (s : string) : list Z :=
  match s with
  | EmptyString => []
  | String b0 s1 =>
      let s0 := byte_of b0 in
      let (lo, hi) := acceptRange s0 in
      if (s0 <? 0x80)%Z then s0 :: runes s1
      else if (s0 <? 0xC2)%Z || (0xF4 <? s0)%Z then RuneError :: runes s1
      else if (s0 <? 0xE0)%Z then
        match s1 with
        | String b1 s2 =>
            if accept lo hi b1
            then Z.lor (Z.shiftl (Z.land s0 0x1F) 6) (Z.land (byte_of b1) 0x3F)
                 :: runes s2
            else RuneError :: runes s1
        | _ => RuneError :: runes s1
        end
      else if (s0 <? 0xF0)%Z then
        match s1 with
        | String b1 (String b2 s3) =>
            if accept lo hi b1 && accept locb hicb b2
            then Z.lor (Z.shiftl (Z.land s0 0x0F) 12)
                   (Z.lor (Z.shiftl (Z.land (byte_of b1) 0x3F) 6)
                      (Z.land (byte_of b2) 0x3F))
                 :: runes s3
            else RuneError :: runes s1
        | _ => RuneError :: runes s1
        end
      else
        match s1 with
        | String b1 (String b2 (String b3 s4)) =>
            if accept lo hi b1 && accept locb hicb b2 && accept locb hicb b3
            then Z.lor (Z.shiftl (Z.land s0 0x07) 18)
                   (Z.lor (Z.shiftl (Z.land (byte_of b1) 0x3F) 12)
                      (Z.lor (Z.shiftl (Z.land (byte_of b2) 0x3F) 6)
                         (Z.land (byte_of b3) 0x3F)))
                 :: runes s4
            else RuneError :: runes s1
        | _ => RuneError :: runes s1
        end
  end.

End utf8.

(** ** Go's standard library *)

(** The library functions the sources call and the embedding does not
    re-implement.  A Go [error] result is an [option error], [None] being
    [nil]. *)
Record GoLib : Type := {
  (* regexp.MatchString(pattern, s) *)
  regexp_MatchString : string -> string -> bool * option error;
  (* regexp.MustCompile(pattern).ReplaceAllString(src, repl) *)
  regexp_ReplaceAllString : string -> string -> string -> string;
  (* regexp.Compile(expr) *)
  regexp_Compile : string -> option error;
  (* time.Parse(time.RFC3339, value) *)
  time_Parse_RFC3339 : string -> option error;
  (* mail.ParseAddress(address) *)
  mail_ParseAddress : string -> option error;
  (* net.ParseIP(s) != nil *)
  net_ParseIP : string -> bool;
  (* url.Parse(rawURL) *)
  url_Parse : string -> option error;
  (* fmt.Sprintf("%#U", r) *)
  fmt_U : Z -> string;
  (* strconv.FormatFloat(f, 'f', 6, 64) *)
  strconv_FormatFloat : Q -> string;
  (* the text json.Marshal writes for a decoded value *)
  json_Marshal : json -> string;
  (* base64.StdEncoding.EncodeToString, which json.Marshal applies to a
     byte slice without a MarshalJSON method *)
  base64_EncodeToString : string -> string;
  (* the byte slice made of a quote, s and a quote *)
  bytes_quoted : string -> rawJSON
}.

(** ** Package formatchecker *)

Module formatchecker.
Section WithLib.
Variable lib : GoLib.

Definition of_error (err : option error) : result unit :=
  match err with Some e => Err e | None => Ok tt end.

Definition IsValidDateTime (dateTime : string) : result unit :=
  of_error (time_Parse_RFC3339 lib dateTime).

Definition IsValidDate (date : string) : result unit :=
  let timeToAppend := "T00:00:00.0Z" in
  let dateTime := date +:+ timeToAppend in
  IsValidDateTime dateTime.

Definition IsValidTime (time : string) : result unit :=
  let dateToAppend := "1991-02-21" in
  let dateTime := dateToAppend +:+ "T" +:+ time in
  IsValidDateTime dateTime.

Definition IsValidEmail (email : string) : result unit :=
  of_error (mail_ParseAddress lib email).

Definition IsValidIdnEmail (idnEmail : string) : result unit :=
  of_error (mail_ParseAddress lib idnEmail).

Definition hostnamePattern : string :=
  "^([a-zA-Z0-9]|[a-zA-Z0-9][a-zA-Z0-9\-]{0,61}[a-zA-Z0-9])(\.([a-zA-Z0-9]|[a-zA-Z0-9][a-zA-Z0-9\-]{0,61}[a-zA-Z0-9]))*$".

Definition IsValidHostname (hostname : string) : result unit :=
  if (255 <? String.length hostname)%nat
  then Err (ErrorString "hostname is too long (more then 255 characters)")
  else if negb (fst (regexp_MatchString lib hostnamePattern hostname))
  then Err (ErrorString (hostname +:+ "is not valid hostname"))
  else Ok tt.

(** The code points of the keys of [disallowedIdnChars]. *)
Definition disallowedIdnChars : list Z :=
  [0x0020; 0x002D; 0x00A2; 0x00A3; 0x00A4; 0x00A5; 0x034F; 0x0640; 0x07FA;
   0x180B; 0x180C; 0x180D; 0x200B; 0x2060; 0x2104; 0x2108; 0x2114; 0x2117;
   0x2118; 0x211E; 0x211F; 0x2123; 0x2125; 0x2282; 0x2283; 0x2284; 0x2285;
   0x2286; 0x2287; 0x2288; 0x2616; 0x2617; 0x2619; 0x262F; 0x2638; 0x266C;
   0x266D; 0x266F; 0x2752; 0x2756; 0x2758; 0x275E; 0x2761; 0x2775; 0x2794;
   0x2798; 0x27AF; 0x27B1; 0x27BE; 0x3004; 0x3012; 0x3013; 0x3020; 0x302E;
   0x302F; 0x3031; 0x3032; 0x3035; 0x303B; 0x3164; 0xFFA0]%Z.

Fixpoint IsValidIdnHostname_loop (runes : list Z) : result unit :=
  match runes with
  | [] => Ok tt
  | r :: runes' =>
      if existsb (Z.eqb r) disallowedIdnChars
      then Err (ErrorString
                  ("invalid hostname: contains illegal character " +:+ fmt_U lib r))
      else IsValidIdnHostname_loop runes'
  end.

Definition IsValidIdnHostname (idnHostname : string) : result unit :=
  if (255 <? String.length idnHostname)%nat
  then Err (ErrorString "hostname is too long (more then 255 characters)")
  else IsValidIdnHostname_loop (utf8.runes idnHostname).

Definition IsValidIPv4 (ipv4 : string) : result unit :=
  let parsed := net_ParseIP lib ipv4 in
  let hasDots := strings_Contains ipv4 "." in
  if negb parsed || negb hasDots
  then Err (ErrorString ("invalid ipv4 address " +:+ ipv4))
  else Ok tt.

Definition IsValidIPv6 (ipv6 : string) : result unit :=
  let parsed := net_ParseIP lib ipv6 in
  let hasColons := strings_Contains ipv6 ":" in
  if negb parsed || negb hasColons
  then Err (ErrorString ("invalid ipv6 address " +:+ ipv6))
  else Ok tt.

Definition IsValidURI (uri : string) : result unit :=
  let schemePrefix := "^[^\:]+\:" in
  match url_Parse lib uri with
  | Some err => Err err
  | None =>
      if negb (fst (regexp_MatchString lib schemePrefix uri))
      then Err (ErrorString "uri missing scheme prefix")
      else Ok tt
  end.

Definition IsValidUriRef (uriRef : string) : result unit :=
  match url_Parse lib uriRef with
  | Some err => Err err
  | None =>
      if strings_Contains uriRef "\"
      then Err (ErrorString ("invalid uri-ref " +:+ uriRef))
      else Ok tt
  end.

Definition IsValidIri (iri : string) : result unit := IsValidURI iri.

Definition IsValidIriRef (iriRef : string) : result unit := IsValidUriRef iriRef.

Definition IsValidURITemplate (uriTemplate : string) : result unit :=
  let arbitraryValue := "tmp" in
  let uriRef :=
    regexp_ReplaceAllString lib "{[^{}\\]*}" uriTemplate arbitraryValue in
  if strings_Contains uriRef "{" || strings_Contains uriRef "}"
  then Err (ErrorString ("invalid uri template " +:+ uriTemplate))
  else IsValidUriRef uriRef.

(** The regular expression [\~[^01]]: a tilde followed by a character
    other than 0 and 1. *)
Fixpoint unescapedTilda_MatchString (s : string) : bool :=
  match s with
  | EmptyString => false
  | String c s' =>
      match s' with
      | EmptyString => false
      | String d _ =>
          (Ascii.eqb c "~" && negb (Ascii.eqb d "0" || Ascii.eqb d "1"))
          || unescapedTilda_MatchString s'
      end
  end.

(** The regular expression [\~$]: the text ends with a tilde. *)
Fixpoint endingTilda_MatchString (s : string) : bool :=
  match s with
  | EmptyString => false
  | String c EmptyString => Ascii.eqb c "~"
  | String _ s' => endingTilda_MatchString s'
  end.

Definition IsValidJSONPointer (jsonPointer : string) : result unit :=
  match jsonPointer with
  | EmptyString => Ok tt
  | String c str =>
      if negb (Ascii.eqb c "/")
      then Err (ErrorString
                  ("non-empty references must begin with a '/' character: "
                     +:+ jsonPointer))
      else if unescapedTilda_MatchString str
      then Err (ErrorString "unescaped tilda error")
      else if endingTilda_MatchString str
      then Err (ErrorString "ending tilda error")
      else Ok tt
  end.

Definition IsValidRelJSONPointer (relJSONPointer : string) : result unit :=
  let parts := strings_Split relJSONPointer "/" in
  let parts :=
    if (length parts =? 1)%nat then strings_Split relJSONPointer "#" else parts in
  let parts0 := hd "" parts in
  let '(i, err) := strconv_Atoi parts0 in
  if bool_decide (err <> None) || (i <? 0)%Z
  then of_error err
  else
    (* skip over first part *)
    let str := string_drop (String.length parts0) relJSONPointer in
    match str with
    | String "#" _ => Ok tt
    | _ => IsValidJSONPointer str
    end.

Definition IsValidRegex (regex : string) : result unit :=
  of_error (regexp_Compile lib regex).

End WithLib.
End formatchecker.

(** ** Package jsonvalidator: the compiled schema *)

Module jsonvalidator.

(** A value of [Dependencies], a [map[string]interface{}]: what the decoder
    stored, or the [*JsonSchema] that [scanSchema] put in its place. *)
Inductive dependency_ (S : Type) : Type :=
| DepValue (v : json)
| DepSchema (s : S).
Arguments DepValue {S} v.
Arguments DepSchema {S} s.

(** [type JsonSchema struct].  A pointer field is an [option], [None] being
    [nil]; so is a slice or a map, which may be [nil] or empty.  The structs
    that only embed a [JsonSchema] ([propertyNames], [contains], [not],
    [_then], [_else]) are that schema.

    A sibling pointer of [additionalProperties], [additionalItems] and [_if]
    is the address of a field of the enclosing schema (or the pointer held in
    it): the boolean tells whether the pointer is set, and the validators
    read the target through the enclosing schema. *)
Inductive JsonSchema : Type := mkJsonSchema {
  RejectAll : bool;
  Schema : option string;
  Ref : option string;
  Id : option string;
  Comment : option string;
  Title : option string;
  Description : option string;
  Type_ : option json;
  Default : option json;
  Examples : option (list json);
  Enum : option (list json);
  Const : option json;
  Definitions : option (list (string * option JsonSchema));
  Properties : option (list (string * option JsonSchema));
  AdditionalProperties : option additionalProperties;
  Required : option (list string);
  PropertyNames : option JsonSchema;
  Dependencies : option (list (string * dependency_ JsonSchema));
  PatternProperties : option (list (string * option JsonSchema));
  Items : option json;
  Contains : option JsonSchema;
  AdditionalItems : option additionalItems;
  MinItems : option Z;
  MaxItems : option Z;
  UniqueItems : option bool;
  MinLength : option Z;
  MaxLength : option Z;
  Pattern : option string;
  Format : option string;
  MultipleOf : option Q;
  Minimum : option Q;
  Maximum : option Q;
  ExclusiveMinimum : option Q;
  ExclusiveMaximum : option Q;
  MinProperties : option Z;
  MaxProperties : option Z;
  ContentMediaType : option string;
  ContentEncoding : option string;
  AnyOf : option (list (option JsonSchema));
  AllOf : option (list (option JsonSchema));
  OneOf : option (list (option JsonSchema));
  Not : option JsonSchema;
  If : option _if;
  Then : option JsonSchema;
  Else : option JsonSchema;
  ReadOnly : option bool;
  WriteOnly : option bool
}
with additionalProperties : Type := mk_additionalProperties {
  additionalProperties_JsonSchema : JsonSchema;
  siblingProperties : bool;
  siblingPatternProperties : bool
}
with additionalItems : Type := mk_additionalItems {
  additionalItems_JsonSchema : JsonSchema;
  siblingItems : bool
}
with _if : Type := mk_if {
  if_JsonSchema : JsonSchema;
  siblingThen : bool;
  siblingElse : bool
}.

Definition dependency : Type := dependency_ JsonSchema.

(** The zero value of the struct. *)
Definition zeroJsonSchema : JsonSchema :=
  mkJsonSchema false None None None None None None None None None None None
    None None None None None None None None None None None None None None
    None None None None None None None None None None None None None None
    None None None None None None None.

(** The struct with only [RejectAll] set. *)
Definition rejectAllJsonSchema : JsonSchema :=
  mkJsonSchema true None None None None None None None None None None None
    None None None None None None None None None None None None None None
    None None None None None None None None None None None None None None
    None None None None None None None.

(** [type RootJsonSchema struct]: the embedded [JsonSchema] and
    [subSchemaMap]. *)
Record RootJsonSchema : Type := mkRootJsonSchema {
  root_JsonSchema : JsonSchema;
  subSchemaMap : gmap string JsonSchema
}.

(** [var rootSchemaPool = map[string]*RootJsonSchema{}], as a value that the
    functions take and return. *)
Abbreviation rootSchemaPool := (gmap string RootJsonSchema).

(** [type jsonData struct]. *)
Record jsonData : Type := mkJsonData {
  raw : json;
  value : json
}.

(** ** Decoding a schema ([encoding/json] into the struct)

    Keys are matched by their exact spelling and the error texts of the
    decoder are abridged. *)

Definition UnmarshalTypeError (value field : string) : error :=
  ErrorString ("json: cannot unmarshal " +:+ value
                 +:+ " into Go struct field JsonSchema." +:+ field).

Definition kind_of (v : json) : string :=
  match v with
  | JNull => "null"
  | JBool _ => "bool"
  | JNumber _ => "number"
  | JString _ => "string"
  | JArray _ => "array"
  | JObject _ => "object"
  end.

(** The member [key] of a JSON object, decoded by [dec]; [absent] when the
    object has no such member. *)
Definition member {X} (key : string) (dec : json -> result X) (absent : X)
  : list (string * json) -> result X :=
  fix go m :=
    match m with
    | [] => Ok absent
    | (k, v) :: m' => if String.eqb k key then dec v else go m'
    end.

Definition mapM_result {A B} (f : A -> result B) : list A -> result (list B) :=
  fix go l :=
    match l with
    | [] => Ok []
    | x :: l' =>
        match f x with
        | Ok y =>
            match go l' with
            | Ok ys => Ok (y :: ys)
            | Err e => Err e
            | Panic msg => Panic msg
            | NoFuel => NoFuel
            end
        | Err e => Err e
        | Panic msg => Panic msg
        | NoFuel => NoFuel
        end
    end.

Definition is_integral (q : Q) : bool := (Qden (Qred q) =? 1)%positive.

Definition decode_bool (field : string) (v : json) : result bool :=
  match v with
  | JBool b => Ok b
  | JNull => Ok false
  | _ => Err (UnmarshalTypeError (kind_of v) field)
  end.

Definition decode_bool_ptr (field : string) (v : json) : result (option bool) :=
  match v with
  | JBool b => Ok (Some b)
  | JNull => Ok None
  | _ => Err (UnmarshalTypeError (kind_of v) field)
  end.

Definition decode_string_ptr (field : string) (v : json) : result (option string) :=
  match v with
  | JString s => Ok (Some s)
  | JNull => Ok None
  | _ => Err (UnmarshalTypeError (kind_of v) field)
  end.

(** An [int] field takes a number written as an integer in the range of
    [int].  (The decoder also refuses an integral value written with a
    fraction or an exponent; the embedding has the value only.) *)
Definition decode_int_ptr (field : string) (v : json) : result (option Z) :=
  match v with
  | JNumber q =>
      let n := Qnum (Qred q) in
      if is_integral q && (minInt <=? n)%Z && (n <=? maxInt)%Z
      then Ok (Some n)
      else Err (UnmarshalTypeError "number" field)
  | JNull => Ok None
  | _ => Err (UnmarshalTypeError (kind_of v) field)
  end.

Definition decode_float_ptr (field : string) (v : json) : result (option Q) :=
  match v with
  | JNumber q => Ok (Some q)
  | JNull => Ok None
  | _ => Err (UnmarshalTypeError (kind_of v) field)
  end.

(** A pointer to a type with its own [UnmarshalJSON] that keeps the text
    ([_type], [_const]): [null] leaves the pointer [nil]. *)
Definition decode_raw_ptr (v : json) : result (option json) :=
  match v with
  | JNull => Ok None
  | _ => Ok (Some v)
  end.

(** A field of such a type that is not a pointer ([items], [_default]): the
    method is called for [null] too. *)
Definition decode_raw (v : json) : result (option json) := Ok (Some v).

Definition decode_array (field : string) (v : json) : result (option (list json)) :=
  match v with
  | JArray l => Ok (Some l)
  | JNull => Ok None
  | _ => Err (UnmarshalTypeError (kind_of v) field)
  end.

Definition decode_strings (field : string) (v : json) : result (option (list string)) :=
  match v with
  | JArray l =>
      match mapM_result (fun x => match x with
                                  | JString s => Ok s
                                  | JNull => Ok EmptyString
                                  | _ => Err (UnmarshalTypeError (kind_of x) field)
                                  end) l with
      | Ok ss => Ok (Some ss)
      | Err e => Err e
      | Panic msg => Panic msg
      | NoFuel => NoFuel
      end
  | JNull => Ok None
  | _ => Err (UnmarshalTypeError (kind_of v) field)
  end.

Definition decode_dependencies (field : string) (v : json)
  : result (option (list (string * dependency))) :=
  match v with
  | JObject m => Ok (Some (map (fun kv => (fst kv, DepValue (snd kv))) m))
  | JNull => Ok None
  | _ => Err (UnmarshalTypeError (kind_of v) field)
  end.

Section Decode.
(** [JsonSchema.UnmarshalJSON] on the members of the schema. *)
Variable UnmarshalJSON : json -> result JsonSchema.

(** A [*JsonSchema], or a pointer to a struct that embeds one. *)
Definition decode_schema_ptr (v : json) : result (option JsonSchema) :=
  match v with
  | JNull => Ok None
  | _ => match UnmarshalJSON v with
         | Ok js => Ok (Some js)
         | Err e => Err e
         | Panic msg => Panic msg
         | NoFuel => NoFuel
         end
  end.

(** A [map[string]*JsonSchema]. *)
Definition decode_schema_map (field : string) (v : json)
  : result (option (list (string * option JsonSchema))) :=
  match v with
  | JObject m =>
      match mapM_result (fun kv : string * json =>
                           let (k, x) := kv in
                           match decode_schema_ptr x with
                           | Ok p => Ok (k, p)
                           | Err e => Err e
                           | Panic msg => Panic msg
                           | NoFuel => NoFuel
                           end) m with
      | Ok l => Ok (Some l)
      | Err e => Err e
      | Panic msg => Panic msg
      | NoFuel => NoFuel
      end
  | JNull => Ok None
  | _ => Err (UnmarshalTypeError (kind_of v) field)
  end.

(** A [[]*JsonSchema]. *)
Definition decode_schema_slice (field : string) (v : json)
  : result (option (list (option JsonSchema))) :=
  match v with
  | JArray l =>
      match mapM_result decode_schema_ptr l with
      | Ok l => Ok (Some l)
      | Err e => Err e
      | Panic msg => Panic msg
      | NoFuel => NoFuel
      end
  | JNull => Ok None
  | _ => Err (UnmarshalTypeError (kind_of v) field)
  end.

(** [json.Unmarshal(bytes, tempSchema)] for a JSON object with members [m]:
    every field of the struct from the member of its tag. *)
Definition decode_struct (m : list (string * json)) : result JsonSchema :=
  rejectAll ← member "rejectAll" (decode_bool "rejectAll") false m;
  schema ← member "$schema" (decode_string_ptr "$schema") None m;
  ref ← member "$ref" (decode_string_ptr "$ref") None m;
  id ← member "$id" (decode_string_ptr "$id") None m;
  comment ← member "$comment" (decode_string_ptr "$comment") None m;
  title ← member "title" (decode_string_ptr "title") None m;
  description ← member "description" (decode_string_ptr "description") None m;
  type ← member "type" decode_raw_ptr None m;
  default ← member "default" decode_raw None m;
  examples ← member "examples" (decode_array "examples") None m;
  enum ← member "enum" (decode_array "enum") None m;
  const ← member "const" decode_raw_ptr None m;
  definitions ← member "definitions" (decode_schema_map "definitions") None m;
  properties ← member "properties" (decode_schema_map "properties") None m;
  additionalProperties ← member "additionalProperties" decode_schema_ptr None m;
  required ← member "required" (decode_strings "required") None m;
  propertyNames ← member "propertyNames" decode_schema_ptr None m;
  dependencies ← member "dependencies" (decode_dependencies "dependencies") None m;
  patternProperties ←
    member "patternProperties" (decode_schema_map "patternProperties") None m;
  items ← member "items" decode_raw None m;
  contains ← member "contains" decode_schema_ptr None m;
  additionalItems ← member "additionalItems" decode_schema_ptr None m;
  minItems ← member "minItems" (decode_int_ptr "minItems") None m;
  maxItems ← member "maxItems" (decode_int_ptr "maxItems") None m;
  uniqueItems ← member "uniqueItems" (decode_bool_ptr "uniqueItems") None m;
  minLength ← member "minLength" (decode_int_ptr "minLength") None m;
  maxLength ← member "maxLength" (decode_int_ptr "maxLength") None m;
  pattern ← member "pattern" (decode_string_ptr "pattern") None m;
  format ← member "format" (decode_string_ptr "format") None m;
  multipleOf ← member "multipleOf" (decode_float_ptr "multipleOf") None m;
  minimum ← member "minimum" (decode_float_ptr "minimum") None m;
  maximum ← member "maximum" (decode_float_ptr "maximum") None m;
  exclusiveMinimum ←
    member "exclusiveMinimum" (decode_float_ptr "exclusiveMinimum") None m;
  exclusiveMaximum ←
    member "exclusiveMaximum" (decode_float_ptr "exclusiveMaximum") None m;
  minProperties ← member "minProperties" (decode_int_ptr "minProperties") None m;
  maxProperties ← member "maxProperties" (decode_int_ptr "maxProperties") None m;
  contentMediaType ←
    member "contentMediaType" (decode_string_ptr "contentMediaType") None m;
  contentEncoding ←
    member "contentEncoding" (decode_string_ptr "contentEncoding") None m;
  anyOf ← member "anyOf" (decode_schema_slice "anyOf") None m;
  allOf ← member "allOf" (decode_schema_slice "allOf") None m;
  oneOf ← member "oneOf" (decode_schema_slice "oneOf") None m;
  not ← member "not" decode_schema_ptr None m;
  _if ← member "if" decode_schema_ptr None m;
  _then ← member "then" decode_schema_ptr None m;
  _else ← member "else" decode_schema_ptr None m;
  readOnly ← member "readOnly" (decode_bool_ptr "readOnly") None m;
  writeOnly ← member "writeOnly" (decode_bool_ptr "writeOnly") None m;
  Ok {|
    RejectAll := rejectAll;
    Schema := schema;
    Ref := ref;
    Id := id;
    Comment := comment;
    Title := title;
    Description := description;
    Type_ := type;
    Default := default;
    Examples := examples;
    Enum := enum;
    Const := const;
    Definitions := definitions;
    Properties := properties;
    AdditionalProperties :=
      (fun s => mk_additionalProperties s false false) <$> additionalProperties;
    Required := required;
    PropertyNames := propertyNames;
    Dependencies := dependencies;
    PatternProperties := patternProperties;
    Items := items;
    Contains := contains;
    AdditionalItems := (fun s => mk_additionalItems s false) <$> additionalItems;
    MinItems := minItems;
    MaxItems := maxItems;
    UniqueItems := uniqueItems;
    MinLength := minLength;
    MaxLength := maxLength;
    Pattern := pattern;
    Format := format;
    MultipleOf := multipleOf;
    Minimum := minimum;
    Maximum := maximum;
    ExclusiveMinimum := exclusiveMinimum;
    ExclusiveMaximum := exclusiveMaximum;
    MinProperties := minProperties;
    MaxProperties := maxProperties;
    ContentMediaType := contentMediaType;
    ContentEncoding := contentEncoding;
    AnyOf := anyOf;
    AllOf := allOf;
    OneOf := oneOf;
    Not := not;
    If := (fun s => mk_if s false false) <$> _if;
    Then := _then;
    Else := _else;
    ReadOnly := readOnly;
    WriteOnly := writeOnly
  |}.

End Decode.

(** [func (js *JsonSchema) UnmarshalJSON(bytes []byte) error]. *)
Fixpoint UnmarshalJSON (bytes : json) : result JsonSchema :=
  match bytes with
  | JObject m => decode_struct UnmarshalJSON m
  | JBool schema =>
      if schema
      then Ok zeroJsonSchema        (* the struct decoded from {} *)
      else Ok rejectAllJsonSchema   (* the struct decoded from {"rejectAll": true} *)
  | _ => Err (ErrorString
                "a valid json schema must be a json object or a boolean")
  end.

(** ** Encoding a schema ([json.Marshal] of the struct)

    Every field has [omitempty]: a [false], a [nil] pointer and an empty
    slice or map are left out.  [_type] has a [MarshalJSON] method that
    writes its text; [_default], [_const] and [items] are byte slices
    without one, which [json.Marshal] writes as a base64 string. *)

Section Marshal.
Variable lib : GoLib.

Definition encodeByteSlice (v : json) : json :=
  JString (base64_EncodeToString lib (json_Marshal lib v)).

Definition omitempty {A} (key : string) (enc : A -> json) (o : option A)
  : list (string * json) :=
  match o with
  | Some a => [(key, enc a)]
  | None => []
  end.

Definition omitempty_list {A} (key : string) (enc : list A -> json)
  (o : option (list A)) : list (string * json) :=
  match o with
  | Some (_ :: _ as l) => [(key, enc l)]
  | _ => []
  end.

Definition number_of_int (z : Z) : json := JNumber (inject_Z z).

Fixpoint MarshalJsonSchema (js : JsonSchema) : json :=
  let ptr (p : option JsonSchema) : json :=
    match p with
    | Some s => MarshalJsonSchema s
    | None => JNull
    end in
  let schema_map (l : list (string * option JsonSchema)) : json :=
    JObject (map (fun kp : string * option JsonSchema =>
                    let (k, p) := kp in (k, ptr p)) l) in
  let schema_slice (l : list (option JsonSchema)) : json :=
    JArray (map ptr l) in
  JObject (
    (if RejectAll js then [("rejectAll", JBool true)] else [])
    ++ omitempty "$schema" JString (Schema js)
    ++ omitempty "$ref" JString (Ref js)
    ++ omitempty "$id" JString (Id js)
    ++ omitempty "$comment" JString (Comment js)
    ++ omitempty "title" JString (Title js)
    ++ omitempty "description" JString (Description js)
    ++ omitempty "type" (fun t => t) (Type_ js)
    ++ omitempty "default" encodeByteSlice (Default js)
    ++ omitempty_list "examples" JArray (Examples js)
    ++ omitempty_list "enum" JArray (Enum js)
    ++ omitempty "const" encodeByteSlice (Const js)
    ++ omitempty_list "definitions" schema_map (Definitions js)
    ++ omitempty_list "properties" schema_map (Properties js)
    ++ match AdditionalProperties js with
       | Some (mk_additionalProperties s _ _) =>
           [("additionalProperties", MarshalJsonSchema s)]
       | None => []
       end
    ++ omitempty_list "required" (fun l => JArray (map JString l)) (Required js)
    ++ match PropertyNames js with
       | Some s => [("propertyNames", MarshalJsonSchema s)]
       | None => []
       end
    ++ omitempty_list "dependencies"
         (fun l => JObject (map (fun kd : string * dependency =>
                                   let (k, d) := kd in
                                   (k, match d with
                                       | DepValue v => v
                                       | DepSchema s => MarshalJsonSchema s
                                       end)) l))
         (Dependencies js)
    ++ omitempty_list "patternProperties" schema_map (PatternProperties js)
    ++ omitempty "items" encodeByteSlice (Items js)
    ++ match Contains js with
       | Some s => [("contains", MarshalJsonSchema s)]
       | None => []
       end
    ++ match AdditionalItems js with
       | Some (mk_additionalItems s _) =>
           [("additionalItems", MarshalJsonSchema s)]
       | None => []
       end
    ++ omitempty "minItems" number_of_int (MinItems js)
    ++ omitempty "maxItems" number_of_int (MaxItems js)
    ++ omitempty "uniqueItems" JBool (UniqueItems js)
    ++ omitempty "minLength" number_of_int (MinLength js)
    ++ omitempty "maxLength" number_of_int (MaxLength js)
    ++ omitempty "pattern" JString (Pattern js)
    ++ omitempty "format" JString (Format js)
    ++ omitempty "multipleOf" JNumber (MultipleOf js)
    ++ omitempty "minimum" JNumber (Minimum js)
    ++ omitempty "maximum" JNumber (Maximum js)
    ++ omitempty "exclusiveMinimum" JNumber (ExclusiveMinimum js)
    ++ omitempty "exclusiveMaximum" JNumber (ExclusiveMaximum js)
    ++ omitempty "minProperties" number_of_int (MinProperties js)
    ++ omitempty "maxProperties" number_of_int (MaxProperties js)
    ++ omitempty "contentMediaType" JString (ContentMediaType js)
    ++ omitempty "contentEncoding" JString (ContentEncoding js)
    ++ omitempty_list "anyOf" schema_slice (AnyOf js)
    ++ omitempty_list "allOf" schema_slice (AllOf js)
    ++ omitempty_list "oneOf" schema_slice (OneOf js)
    ++ match Not js with
       | Some s => [("not", MarshalJsonSchema s)]
       | None => []
       end
    ++ match If js with
       | Some (mk_if s _ _) => [("if", MarshalJsonSchema s)]
       | None => []
       end
    ++ match Then js with
       | Some s => [("then", MarshalJsonSchema s)]
       | None => []
       end
    ++ match Else js with
       | Some s => [("else", MarshalJsonSchema s)]
       | None => []
       end
    ++ omitempty "readOnly" JBool (ReadOnly js)
    ++ omitempty "writeOnly" JBool (WriteOnly js)).

End Marshal.

(** ** The keyword validators *)

(** Valid Json Schema types. *)
Definition TYPE_OBJECT : string := "object".
Definition TYPE_ARRAY : string := "array".
Definition TYPE_STRING : string := "string".
Definition TYPE_NUMBER : string := "number".
Definition TYPE_INTEGER : string := "integer".
Definition TYPE_BOOLEAN : string := "boolean".
Definition TYPE_NULL : string := "null".

(** Valid values for "format" fields. *)
Definition FORMAT_DATE_TIME : string := "date-time".
Definition FORMAT_TIME : string := "time".
Definition FORMAT_DATE : string := "date".
Definition FORMAT_EMAIL : string := "email".
Definition FORMAT_IDN_EMAIL : string := "idn-email".
Definition FORMAT_HOSTNAME : string := "hostname".
Definition FORMAT_IDN_HOSTNAME : string := "idn-hostname".
Definition FORMAT_IPV4 : string := "ipv4".
Definition FORMAT_IPV6 : string := "ipv6".
Definition FORMAT_URI : string := "uri".
Definition FORMAT_URI_REFERENCE : string := "uri-reference".
Definition FORMAT_IRI : string := "iri".
Definition FORMAT_IRI_REFERENCE : string := "iri-reference".
Definition FORMAT_URI_TEMPLATE : string := "uri-template".
Definition FORMAT_JSON_POINTER : string := "json-pointer".
Definition FORMAT_RELATIVE_JSON_POINTER : string := "relative-json-pointer".
Definition FORMAT_REGEX : string := "regex".

(** [type keywordValidator interface { validate(string, jsonData, string) error }]. *)
Definition keywordValidator : Type := string -> jsonData -> string -> result unit.

Definition quoted (s : string) : string := dquote +:+ s +:+ dquote.
Definition newline : string := String (ascii_of_nat 10) EmptyString.

(** [for _, x := range l { if err := body(x); err != nil { return err } }]:
    the first outcome that is not a nil error ends the function. *)
Definition for_each {A} (body : A -> result unit) : list A -> result unit :=
  fix loop l :=
    match l with
    | [] => Ok tt
    | x :: l' =>
        match body x with
        | Ok _ => loop l'
        | r => r
        end
    end.

(** The indices of [for index := range array]. *)
Definition indices {A} (array : list A) : list Z :=
  map Z.of_nat (seq 0 (length array)).

(** [int(value)] for a [float64] that holds an integer: outside the range of
    [int] the conversion is implementation-defined, and on amd64 it yields
    the least [int], which no such value converts back to. *)
Definition float_is_int (q : Q) : bool :=
  is_integral q && (minInt <=? Qnum (Qred q))%Z && (Qnum (Qred q) <=? maxInt)%Z.

(** [assertJsonType]. *)
Definition assertJsonType (jsonType : string) (jsonData : json) : result unit :=
  if String.eqb jsonType TYPE_OBJECT then
    match jsonData with
    | JObject _ => Ok tt
    | _ => Err (KeywordValidationError "type"
                  "inspected value expected to be a json object")
    end
  else if String.eqb jsonType TYPE_ARRAY then
    match jsonData with
    | JArray _ => Ok tt
    | _ => Err (KeywordValidationError "type"
                  "inspected value expected to be a json array")
    end
  else if String.eqb jsonType TYPE_STRING then
    match jsonData with
    | JString _ => Ok tt
    | _ => Err (KeywordValidationError "type"
                  "inspected value expected to be a json string")
    end
  else if String.eqb jsonType TYPE_INTEGER then
    match jsonData with
    | JNumber value =>
        if float_is_int value then Ok tt
        else Err (KeywordValidationError "type"
                    "inspected value expected to be a json integer")
    | _ => Err (KeywordValidationError "type"
                  "inspected value expected to be a json integer")
    end
  else if String.eqb jsonType TYPE_NUMBER then
    match jsonData with
    | JNumber _ => Ok tt
    | _ => Err (KeywordValidationError "type"
                  "inspected value expected to be a json number")
    end
  else if String.eqb jsonType TYPE_BOOLEAN then
    match jsonData with
    | JBool _ => Ok tt
    | _ => Err (KeywordValidationError "type"
                  "inspected value expected to be a json boolean")
    end
  else if String.eqb jsonType TYPE_NULL then
    match jsonData with
    | JNull => Ok tt
    | _ => Err (KeywordValidationError "type"
                  "inspected value expected to be a json null")
    end
  else Err (KeywordValidationError "type" ("invalid json type " +:+ jsonType)).

(** [func (t *_type) validate]. *)
Definition _type_validate (t : json) : keywordValidator :=
  fun jsonPath jsonData rootSchemaId =>
  match t with
  | JArray typeFromSchema =>
      (fix loop (l : list json) : result unit :=
         match l with
         | [] =>
             Err (KeywordValidationError "type"
                    "inspected value does not match any of the valid types in the schema")
         | typeFromList :: l' =>
             match typeFromList with
             | JString v =>
                 match assertJsonType v (value jsonData) with
                 | Ok _ => Ok tt
                 | Err _ => loop l'
                 | Panic msg => Panic msg
                 | NoFuel => NoFuel
                 end
             | _ =>
                 Err (KeywordValidationError "type"
                        (quoted "type"
                           +:+ " field in schema must be string or array of strings"))
             end
         end) typeFromSchema
  | JString typeFromSchema => assertJsonType typeFromSchema (value jsonData)
  | _ =>
      Err (KeywordValidationError "type"
             (quoted "type" +:+ " field in schema must be string or array of strings"))
  end.

Section Keywords.
Variable lib : GoLib.
Variable pool : rootSchemaPool.

(** [validateJsonData] as the validators call it, on the schemas below the
    one that is being validated. *)
Variable validateJsonData : JsonSchema -> string -> rawJSON -> string -> result unit.

(** A call through a [*JsonSchema] that may be [nil]. *)
Definition validateJsonData_ptr (p : option JsonSchema)
  (jsonPath : string) (bytes : rawJSON) (rootSchemaId : string) : result unit :=
  match p with
  | Some js => validateJsonData js jsonPath bytes rootSchemaId
  | None => Panic "invalid memory address or nil pointer dereference"
  end.

(** [func (e enum) validate]. *)
Definition enum_validate (e : list json) : keywordValidator :=
  fun jsonPath jsonData rootSchemaId =>
  (fix loop (l : list json) : result unit :=
     match l with
     | [] =>
         Err (KeywordValidationError "enum"
                ("inspected value does not match any of the items in "
                   +:+ quoted "enum" +:+ " array"))
     | item :: l' =>
         let rawEnumItem := json_Marshal lib item in
         if String.eqb rawEnumItem (json_Marshal lib (raw jsonData))
         then Ok tt
         else loop l'
     end) e.

(** [func (c *_const) validate]. *)
Definition _const_validate (c : json) : keywordValidator :=
  fun jsonPath jsonData rootSchemaId =>
  if String.eqb (json_Marshal lib c) (json_Marshal lib (raw jsonData))
  then Ok tt
  else Err (KeywordValidationError "const"
              ("inspected value not equal to " +:+ quoted (json_Marshal lib c))).

(** [func (ml *minLength) validate]. *)
Definition minLength_validate (ml : Z) : keywordValidator :=
  fun jsonPath jsonData rootSchemaId =>
  match value jsonData with
  | JString v =>
      if (ml <=? Z.of_nat (String.length v))%Z then Ok tt
      else Err (KeywordValidationError "minLength"
                  ("inspected string is less than " +:+ strconv_Itoa ml))
  | _ => Ok tt
  end.

(** [func (ml *maxLength) validate]. *)
Definition maxLength_validate (ml : Z) : keywordValidator :=
  fun jsonPath jsonData rootSchemaId =>
  match value jsonData with
  | JString v =>
      if (Z.of_nat (String.length v) <=? ml)%Z then Ok tt
      else Err (KeywordValidationError "maxLength"
                  ("inspected string is greater than " +:+ strconv_Itoa ml))
  | _ => Ok tt
  end.

(** [func (p *pattern) validate]. *)
Definition pattern_validate (p : string) : keywordValidator :=
  fun jsonPath jsonData rootSchemaId =>
  match value jsonData with
  | JString v =>
      let '(match_, err) := regexp_MatchString lib p v in
      match err with
      | Some err => Err (KeywordValidationError "pattern" (Error err))
      | None =>
          if match_ then Ok tt
          else Err (KeywordValidationError "pattern"
                      ("value " +:+ v +:+ " does not match to pattern" +:+ p))
      end
  | _ => Ok tt
  end.

(** One case of the switch of [format.validate]. *)
Definition format_case (checker : string -> result unit) (prefix v : string)
  : result unit :=
  match checker v with
  | Err err => Err (KeywordValidationError "format" (prefix +:+ Error err))
  | r => r
  end.

(** [func (f *format) validate]. *)
Definition format_validate (f : string) : keywordValidator :=
  fun jsonPath jsonData rootSchemaId =>
  match value jsonData with
  | JString v =>
      if String.eqb f FORMAT_DATE_TIME then
        format_case (formatchecker.IsValidDateTime lib)
          "date-time incorrectly formatted " v
      else if String.eqb f FORMAT_DATE then
        format_case (formatchecker.IsValidDate lib)
          "date incorrectly formatted: " v
      else if String.eqb f FORMAT_TIME then
        format_case (formatchecker.IsValidTime lib)
          "time incorrectly formatted: " v
      else if String.eqb f FORMAT_EMAIL then
        format_case (formatchecker.IsValidEmail lib)
          "email incorrectly formatted: " v
      else if String.eqb f FORMAT_IDN_EMAIL then
        format_case (formatchecker.IsValidIdnEmail lib)
          "idn-email incorrectly formatted: " v
      else if String.eqb f FORMAT_HOSTNAME then
        format_case (formatchecker.IsValidHostname lib)
          "hostname incorrectly formatted: " v
      else if String.eqb f FORMAT_IDN_HOSTNAME then
        format_case (formatchecker.IsValidIdnHostname lib)
          "idn-hostname incorrectly formatted: " v
      else if String.eqb f FORMAT_IPV4 then
        format_case (formatchecker.IsValidIPv4 lib)
          "ipv4 incorrectly formatted: " v
      else if String.eqb f FORMAT_IPV6 then
        format_case (formatchecker.IsValidIPv6 lib)
          "ipv6 incorrectly formatted: " v
      else if String.eqb f FORMAT_URI then
        format_case (formatchecker.IsValidURI lib)
          "uri incorrectly formatted: " v
      else if String.eqb f FORMAT_URI_REFERENCE then
        format_case (formatchecker.IsValidUriRef lib)
          "uri-reference incorrectly formatted: " v
      else if String.eqb f FORMAT_IRI then
        format_case (formatchecker.IsValidIri lib)
          "iri incorrectly formatted: " v
      else if String.eqb f FORMAT_IRI_REFERENCE then
        format_case (formatchecker.IsValidIriRef lib)
          "iri-reference incorrectly formatted: " v
      else if String.eqb f FORMAT_URI_TEMPLATE then
        format_case (formatchecker.IsValidURITemplate lib)
          "uri-template incorrectly formatted: " v
      else if String.eqb f FORMAT_JSON_POINTER then
        format_case formatchecker.IsValidJSONPointer
          "json-pointer incorrectly formatted: " v
      else if String.eqb f FORMAT_RELATIVE_JSON_POINTER then
        format_case formatchecker.IsValidRelJSONPointer
          "relative-json-pointer incorrectly formatted: " v
      else if String.eqb f FORMAT_REGEX then
        format_case (formatchecker.IsValidRegex lib)
          "regex incorrectly formatted: " v
      else Ok tt
  | _ => Ok tt
  end.

(** [math.Mod(v, mo) == 0] on exact numbers: the remainder of a division by
    zero is NaN. *)
Definition Mod_is_zero (v mo : Q) : bool :=
  if Qeq_bool mo 0 then false else is_integral (v / mo).

(** [func (mo *multipleOf) validate]. *)
Definition multipleOf_validate (mo : Q) : keywordValidator :=
  fun jsonPath jsonData rootSchemaId =>
  match value jsonData with
  | JNumber v =>
      if Mod_is_zero v mo then Ok tt
      else Err (KeywordValidationError "multipleOf"
                  ("inspected value is not a multiple of "
                     +:+ strconv_FormatFloat lib mo))
  | _ => Ok tt
  end.

(** [func (m *minimum) validate]. *)
Definition minimum_validate (m : Q) : keywordValidator :=
  fun jsonPath jsonData rootSchemaId =>
  match value jsonData with
  | JNumber v =>
      if Qle_bool m v then Ok tt
      else Err (KeywordValidationError "minimum"
                  ("inspected value is less than " +:+ strconv_FormatFloat lib m))
  | _ => Ok tt
  end.

(** [func (m *maximum) validate]. *)
Definition maximum_validate (m : Q) : keywordValidator :=
  fun jsonPath jsonData rootSchemaId =>
  match value jsonData with
  | JNumber v =>
      if Qle_bool v m then Ok tt
      else Err (KeywordValidationError "maximum"
                  ("inspected value is greater than " +:+ strconv_FormatFloat lib m))
  | _ => Ok tt
  end.

(** [func (em *exclusiveMinimum) validate]. *)
Definition exclusiveMinimum_validate (em : Q) : keywordValidator :=
  fun jsonPath jsonData rootSchemaId =>
  match value jsonData with
  | JNumber v =>
      if negb (Qle_bool v em) then Ok tt
      else Err (KeywordValidationError "exclusiveMinimum"
                  ("inspected value is not greater than "
                     +:+ strconv_FormatFloat lib em))
  | _ => Ok tt
  end.

(** [func (em *exclusiveMaximum) validate]. *)
Definition exclusiveMaximum_validate (em : Q) : keywordValidator :=
  fun jsonPath jsonData rootSchemaId =>
  match value jsonData with
  | JNumber v =>
      if negb (Qle_bool em v) then Ok tt
      else Err (KeywordValidationError "exclusiveMaximum"
                  ("inspected value is not less than "
                     +:+ strconv_FormatFloat lib em))
  | _ => Ok tt
  end.

(** [func (p properties) validate]. *)
Definition properties_validate (p : list (string * option JsonSchema))
  : keywordValidator :=
  fun jsonPath jsonData rootSchemaId =>
  match value jsonData with
  | JObject object =>
      for_each (fun kv : string * option JsonSchema =>
                  let (key, value) := kv in
                  match assoc key object with
                  | Some _ =>
                      validateJsonData_ptr value (jsonPath +:+ "/" +:+ key)
                        (RawJSON (raw jsonData)) rootSchemaId
                  | None => Ok tt
                  end) p
  | _ => Ok tt
  end.

(** The loop of [additionalProperties.validate] over the patterns of the
    sibling [patternProperties]: the flag it leaves, or the error of a
    pattern that does not compile. *)
Definition matches_some_pattern (patterns : list string) (property : string)
  : result bool :=
  (fix loop (l : list string) (validatedByPatternProperties : bool) : result bool :=
     match l with
     | [] => Ok validatedByPatternProperties
     | pattern :: l' =>
         let '(match_, err) := regexp_MatchString lib pattern property in
         match err with
         | Some err => Err (KeywordValidationError "additionalProperties" (Error err))
         | None => loop l' (match_ || validatedByPatternProperties)
         end
     end) patterns false.

(** [func (ap *additionalProperties) validate]; [js] is the schema that
    holds [ap]. *)
Definition additionalProperties_validate (js : JsonSchema)
  (ap : additionalProperties) : keywordValidator :=
  fun jsonPath jsonData rootSchemaId =>
  match value jsonData with
  | JObject object =>
      for_each (fun property : string =>
        let validatedByProperties :=
          if siblingProperties ap
          then match Properties js with
               | Some p => bool_decide (is_Some (assoc property p))
               | None => false
               end
          else false in
        validatedByPatternProperties ←
          (if siblingPatternProperties ap
           then matches_some_pattern
                  (map fst (default [] (PatternProperties js))) property
           else Ok false);
        if negb validatedByProperties && negb validatedByPatternProperties
        then
          match validateJsonData (additionalProperties_JsonSchema ap)
                  (jsonPath +:+ "/" +:+ property) (RawJSON (raw jsonData))
                  rootSchemaId with
          | Err err =>
              Err (KeywordValidationError "additionalProperties"
                     ("property " +:+ quoted property
                        +:+ " failed in validation: " +:+ newline +:+ Error err))
          | r => r
          end
        else Ok tt) (map fst object)
  | _ => Ok tt
  end.

(** [func (r required) validate]: [object[property] == nil] holds for a
    missing property and for one that is [null]. *)
Definition required_validate (r : list string) : keywordValidator :=
  fun jsonPath jsonData rootSchemaId =>
  match value jsonData with
  | JObject object =>
      for_each (fun property : string =>
                  match assoc property object with
                  | None | Some JNull =>
                      Err (KeywordValidationError "required"
                             ("Missing required property - " +:+ property))
                  | Some _ => Ok tt
                  end) r
  | _ => Ok tt
  end.

(** [func (pn *propertyNames) validate]. *)
Definition propertyNames_validate (pn : JsonSchema) : keywordValidator :=
  fun jsonPath jsonData rootSchemaId =>
  match value jsonData with
  | JObject object =>
      for_each (fun property : string =>
                  match validateJsonData pn "" (bytes_quoted lib property)
                          rootSchemaId with
                  | Err err =>
                      Err (KeywordValidationError "propertyNames"
                             ("property name " +:+ quoted property
                                +:+ " failed in validation: " +:+ Error err))
                  | r => r
                  end) (map fst object)
  | _ => Ok tt
  end.

(** [func (d dependencies) validate]. *)
Definition dependencies_validate (d : list (string * dependency))
  : keywordValidator :=
  fun jsonPath jsonData rootSchemaId =>
  match value jsonData with
  | JObject object =>
      for_each (fun kd : string * dependency =>
        let (propertyName, dependency) := kd in
        match dependency with
        | DepSchema v =>
            match assoc propertyName object with
            | Some _ =>
                match validateJsonData v "" (RawJSON (raw jsonData))
                        rootSchemaId with
                | Err err =>
                    Err (KeywordValidationError "dependencies"
                           ("inspected value failed in validation against sub-schema given in "
                              +:+ quoted propertyName +:+ " dependency: "
                              +:+ Error err))
                | r => r
                end
            | None => Ok tt
            end
        | DepValue (JArray v) =>
            for_each (fun iv : Z * json =>
              let (index, value) := iv in
              match value with
              | JString requiredProperty =>
                  match assoc requiredProperty object with
                  | None =>
                      Err (KeywordValidationError "dependencies"
                             ("missing property " +:+ quoted requiredProperty
                                +:+ " although it is required according to "
                                +:+ quoted propertyName +:+ " dependency"))
                  | Some _ => Ok tt
                  end
              | _ =>
                  Err (KeywordValidationError "dependencies"
                         ("all items in dependency array must be strings, item at position "
                            +:+ strconv_Itoa index +:+ " is not a string"))
              end) (combine (indices v) v)
        | DepValue _ =>
            Err (KeywordValidationError "dependencies"
                   "dependency value must be a json object or a json array")
        end) d
  | _ => Ok tt
  end.

(** [func (pp patternProperties) validate]. *)
Definition patternProperties_validate (pp : list (string * option JsonSchema))
  : keywordValidator :=
  fun jsonPath jsonData rootSchemaId =>
  match value jsonData with
  | JObject object =>
      for_each (fun ps : string * option JsonSchema =>
        let (pattern, subSchema) := ps in
        for_each (fun property : string =>
          let '(match_, err) := regexp_MatchString lib pattern property in
          match err with
          | Some err => Err (KeywordValidationError "patternProperties" (Error err))
          | None =>
              if match_ then
                match validateJsonData_ptr subSchema
                        (jsonPath +:+ "/" +:+ property) (RawJSON (raw jsonData))
                        rootSchemaId with
                | Err err =>
                    Err (KeywordValidationError "patternProperties"
                           ("property " +:+ quoted property
                              +:+ " that matches the pattern " +:+ quoted pattern
                              +:+ " failed in validation: " +:+ newline
                              +:+ Error err))
                | r => r
                end
              else Ok tt
          end) (map fst object)) pp
  | _ => Ok tt
  end.

(** [func (mp *minProperties) validate]. *)
Definition minProperties_validate (mp : Z) : keywordValidator :=
  fun jsonPath jsonData rootSchemaId =>
  match value jsonData with
  | JObject v =>
      if (mp <=? Z.of_nat (length v))%Z then Ok tt
      else Err (KeywordValidationError "minProperties"
                  ("inspected value must contains at least "
                     +:+ strconv_Itoa mp +:+ " properties"))
  | _ => Ok tt
  end.

(** [func (mp *maxProperties) validate]. *)
Definition maxProperties_validate (mp : Z) : keywordValidator :=
  fun jsonPath jsonData rootSchemaId =>
  match value jsonData with
  | JObject v =>
      if (Z.of_nat (length v) <=? mp)%Z then Ok tt
      else Err (KeywordValidationError "minProperties"
                  ("inspected value may contains at most "
                     +:+ strconv_Itoa mp +:+ " properties"))
  | _ => Ok tt
  end.

(** [func (i items) validate]. *)
Definition items_validate (i : json) : keywordValidator :=
  fun jsonPath jsonData rootSchemaId =>
  match value jsonData with
  | JArray array =>
      match i with
      | JObject _ =>
          schema ← UnmarshalJSON i;
          for_each (fun index : Z =>
                      validateJsonData schema
                        (jsonPath +:+ "/" +:+ strconv_Itoa index)
                        (RawJSON (raw jsonData)) rootSchemaId)
            (indices array)
      | JArray itemsField =>
          if (length array <? length itemsField)%nat
          then Err (KeywordValidationError "items"
                      ("when " +:+ quoted "items"
                         +:+ " field contains a list of Json Schema objects, the "
                         +:+ "inspected array must contain at least the same amount of items"))
          else
            for_each (fun entry : Z * json =>
                        let (index, schemaFromItems) := entry in
                        schema ← UnmarshalJSON schemaFromItems;
                        validateJsonData schema
                          (jsonPath +:+ "/" +:+ strconv_Itoa index)
                          (RawJSON (raw jsonData)) rootSchemaId)
              (combine (indices itemsField) itemsField)
      | _ =>
          Err (KeywordValidationError "items"
                 (quoted "items"
                    +:+ " field value in schema must be a valid Json Schema or an array of Json Schema"))
      end
  | _ => Ok tt
  end.

(** [func (ai *additionalItems) validate]; [js] is the schema that holds
    [ai].  [*ai.siblingItems] is a nil dereference when the pointer is not
    set, and [array[len(itemsArray):]] panics when the instance is shorter
    than the sibling array. *)
Definition additionalItems_validate (js : JsonSchema) (ai : additionalItems)
  : keywordValidator :=
  fun jsonPath jsonData rootSchemaId =>
  if negb (siblingItems ai)
  then Panic "invalid memory address or nil pointer dereference"
  else
    match Items js with
    | None => Err (ErrorString "unexpected end of JSON input")
    | Some siblingItems =>
        match siblingItems with
        | JArray itemsArray =>
            match value jsonData with
            | JArray array =>
                if (length array <? length itemsArray)%nat
                then Panic "slice bounds out of range"
                else
                  for_each (fun index : Z =>
                    match validateJsonData (additionalItems_JsonSchema ai)
                            (jsonPath +:+ "/" +:+ strconv_Itoa index)
                            (RawJSON (raw jsonData)) rootSchemaId with
                    | Err err =>
                        Err (KeywordValidationError "additionalItems"
                               ("item at position " +:+ strconv_Itoa index
                                  +:+ " failed in validation: " +:+ Error err))
                    | r => r
                    end) (indices (drop (length itemsArray) array))
            | _ => Ok tt
            end
        | _ => Ok tt
        end
    end.

(** [func (c *contains) validate]. *)
Definition contains_validate (c : JsonSchema) : keywordValidator :=
  fun jsonPath jsonData rootSchemaId =>
  let failed :=
    Err (KeywordValidationError "contains"
           "could validate any of the inspected array's items against the given schema") in
  match value jsonData with
  | JArray array =>
      (fix loop (l : list Z) : result unit :=
         match l with
         | [] => failed
         | index :: l' =>
             match validateJsonData c (jsonPath +:+ "/" +:+ strconv_Itoa index)
                     (RawJSON (raw jsonData)) rootSchemaId with
             | Ok _ => Ok tt
             | Err _ => loop l'
             | Panic msg => Panic msg
             | NoFuel => NoFuel
             end
         end) (indices array)
  | _ => failed
  end.

(** [func (mi *minItems) validate]. *)
Definition minItems_validate (mi : Z) : keywordValidator :=
  fun jsonPath jsonData rootSchemaId =>
  match value jsonData with
  | JArray v =>
      if (mi <=? Z.of_nat (length v))%Z then Ok tt
      else Err (KeywordValidationError "minItems"
                  ("inspected array must contain at least "
                     +:+ strconv_Itoa mi +:+ " items"))
  | _ => Ok tt
  end.

(** [func (mi *maxItems) validate]. *)
Definition maxItems_validate (mi : Z) : keywordValidator :=
  fun jsonPath jsonData rootSchemaId =>
  match value jsonData with
  | JArray v =>
      if (Z.of_nat (length v) <=? mi)%Z then Ok tt
      else Err (KeywordValidationError "maxItems"
                  ("inspected array must contain at most "
                     +:+ strconv_Itoa mi +:+ " items"))
  | _ => Ok tt
  end.

(** [func (ui *uniqueItems) validate]: [uniqueSet] is the list of the texts
    met so far with their indices. *)
Definition uniqueItems_validate (ui : bool) : keywordValidator :=
  fun jsonPath jsonData rootSchemaId =>
  match value jsonData with
  | JArray array =>
      (fix loop (l : list (Z * json)) (uniqueSet : list (string * Z)) : result unit :=
         match l with
         | [] => Ok tt
         | (index, item) :: l' =>
             let rawItem := json_Marshal lib item in
             match assoc rawItem uniqueSet with
             | Some v =>
                 Err (KeywordValidationError "uniqueItems"
                        ("the inspected array contains two equal items at indices: "
                           +:+ strconv_Itoa v +:+ ", " +:+ strconv_Itoa index))
             | None => loop l' ((rawItem, index) :: uniqueSet)
             end
         end) (combine (indices array) array) []
  | _ => Ok tt
  end.

(** [func (af anyOf) validate]. *)
Definition anyOf_validate (af : list (option JsonSchema)) : keywordValidator :=
  fun jsonPath jsonData rootSchemaId =>
  (fix loop (l : list (option JsonSchema)) : result unit :=
     match l with
     | [] =>
         Err (KeywordValidationError "anyOf"
                "inspected value could not be validated against any of the given schemas")
     | schema :: l' =>
         match validateJsonData_ptr schema "" (RawJSON (raw jsonData))
                 rootSchemaId with
         | Ok _ => Ok tt
         | Err _ => loop l'
         | Panic msg => Panic msg
         | NoFuel => NoFuel
         end
     end) af.

(** [func (af allOf) validate]. *)
Definition allOf_validate (af : list (option JsonSchema)) : keywordValidator :=
  fun jsonPath jsonData rootSchemaId =>
  for_each (fun schema : option JsonSchema =>
              match validateJsonData_ptr schema "" (RawJSON (raw jsonData))
                      rootSchemaId with
              | Err _ =>
                  Err (KeywordValidationError "allOf"
                         "inspected value could not be validated against all of the given schemas")
              | r => r
              end) af.

(** The loop of [oneOf.validate], from the schemas that remain and the
    flag [oneValidationAlreadySucceeded], and what follows the loop. *)
Definition oneOf_loop (jsonData : jsonData) (rootSchemaId : string)
  : list (option JsonSchema) -> bool -> result unit :=
  fix loop l oneValidationAlreadySucceeded :=
    match l with
    | [] =>
        if oneValidationAlreadySucceeded then Ok tt
        else Err (KeywordValidationError "oneOf"
                    "inspected value could not be validated against any of the given schemas")
    | schema :: l' =>
        match validateJsonData_ptr schema "" (RawJSON (raw jsonData))
                rootSchemaId with
        | Ok _ =>
            if oneValidationAlreadySucceeded
            then Err (KeywordValidationError "oneOf"
                        "inspected data is valid against more than one given schema")
            else loop l' true
        | Err _ => loop l' oneValidationAlreadySucceeded
        | Panic msg => Panic msg
        | NoFuel => NoFuel
        end
    end.

(** [func (of oneOf) validate]. *)
Definition oneOf_validate (of_ : list (option JsonSchema)) : keywordValidator :=
  fun jsonPath jsonData rootSchemaId =>
  oneOf_loop jsonData rootSchemaId of_ false.

(** [func (n *not) validate]. *)
Definition not_validate (n : JsonSchema) : keywordValidator :=
  fun jsonPath jsonData rootSchemaId =>
  match validateJsonData n jsonPath (RawJSON (raw jsonData)) rootSchemaId with
  | Err _ => Ok tt
  | Ok _ =>
      Err (KeywordValidationError "not"
             "inspected value did not fail on validation against the schema defined by this keyword")
  | Panic msg => Panic msg
  | NoFuel => NoFuel
  end.

(** [func (i *_if) validate]; [js] is the schema that holds [i], whose
    [Then] and [Else] the sibling pointers point to. *)
Definition _if_validate (js : JsonSchema) (i : _if) : keywordValidator :=
  fun jsonPath jsonData rootSchemaId =>
  match validateJsonData (if_JsonSchema i) "" (RawJSON (raw jsonData))
          rootSchemaId with
  | Ok _ =>
      if siblingThen i
      then validateJsonData_ptr (Then js) jsonPath (RawJSON (raw jsonData))
             rootSchemaId
      else Ok tt
  | Err _ =>
      if siblingElse i
      then validateJsonData_ptr (Else js) jsonPath (RawJSON (raw jsonData))
             rootSchemaId
      else Ok tt
  | Panic msg => Panic msg
  | NoFuel => NoFuel
  end.

(** [func (r ref) validateByRef]. *)
Definition validateByRef (r : string) (jsonPath : string) (jsonData : rawJSON)
  (rootSchemaID : string) : result unit :=
  let splittedRef := strings_Split r "#" in
  schemaURI ← jsonwalker.index_slice splittedRef 0;
  fragment ← jsonwalker.index_slice splittedRef 1;
  let schemaURI := if String.eqb schemaURI "" then rootSchemaID else schemaURI in
  match pool !! schemaURI with
  | Some rootSchema =>
      if negb (String.eqb fragment "") then
        match subSchemaMap rootSchema !! fragment with
        | Some subSchema =>
            validateJsonData subSchema jsonPath jsonData rootSchemaID
        | None =>
            Err (InvalidReferenceError schemaURI fragment
                   "could not find fragment in the referenced root schema")
        end
      else
        validateJsonData (root_JsonSchema rootSchema) jsonPath jsonData
          rootSchemaID
  | None =>
      Err (InvalidReferenceError schemaURI fragment
             "could not find the referenced root schema")
  end.

(** [getNonNilKeywordsSlice]. *)
Definition getNonNilKeywordsSlice (js : JsonSchema) : list keywordValidator :=
  let keyword {A} (validate : A -> keywordValidator) (field : option A)
    : list keywordValidator :=
    match field with
    | Some a => [validate a]
    | None => []
    end in
  keyword _type_validate (Type_ js)
  ++ keyword _const_validate (Const js)
  ++ keyword enum_validate (Enum js)
  ++ keyword minLength_validate (MinLength js)
  ++ keyword maxLength_validate (MaxLength js)
  ++ keyword pattern_validate (Pattern js)
  ++ keyword format_validate (Format js)
  ++ keyword multipleOf_validate (MultipleOf js)
  ++ keyword minimum_validate (Minimum js)
  ++ keyword maximum_validate (Maximum js)
  ++ keyword exclusiveMinimum_validate (ExclusiveMinimum js)
  ++ keyword exclusiveMaximum_validate (ExclusiveMaximum js)
  ++ keyword required_validate (Required js)
  ++ keyword propertyNames_validate (PropertyNames js)
  ++ keyword properties_validate (Properties js)
  ++ keyword (additionalProperties_validate js) (AdditionalProperties js)
  ++ keyword patternProperties_validate (PatternProperties js)
  ++ keyword dependencies_validate (Dependencies js)
  ++ keyword minProperties_validate (MinProperties js)
  ++ keyword maxProperties_validate (MaxProperties js)
  ++ keyword items_validate (Items js)
  ++ keyword contains_validate (Contains js)
  ++ keyword (additionalItems_validate js) (AdditionalItems js)
  ++ keyword minItems_validate (MinItems js)
  ++ keyword maxItems_validate (MaxItems js)
  ++ keyword uniqueItems_validate (UniqueItems js)
  ++ keyword anyOf_validate (AnyOf js)
  ++ keyword allOf_validate (AllOf js)
  ++ keyword oneOf_validate (OneOf js)
  ++ keyword not_validate (Not js)
  ++ keyword (_if_validate js) (If js).

(** The body of [validateJsonData], the calls on other schemas going through
    the variable [validateJsonData]. *)
Definition validateJsonData_body (js : JsonSchema) (jsonPath : string)
  (bytes : rawJSON) (rootSchemaId : string) : result unit :=
  if RejectAll js
  then Err (SchemaValidationError jsonPath
              ("json schema " +:+ quoted "false" +:+ " drops everything"))
  else
    match Ref js with
    | Some r => validateByRef r jsonPath bytes rootSchemaId
    | None =>
        let jsonTokens := strings_Split jsonPath "/" in
        let relativeJsonPath := "/" +:+ List.last jsonTokens EmptyString in
        match jsonwalker.NewJsonPointer relativeJsonPath with
        | Err err => Err (Wrapped err "JsonPointer creation failed")
        | Panic msg => Panic msg
        | NoFuel => NoFuel
        | Ok jsonPointer =>
            match jsonwalker.Evaluate jsonPointer bytes with
            | Err err => Err (Wrapped err "JsonPointer evaluation failed")
            | Panic msg => Panic msg
            | NoFuel => NoFuel
            | Ok value =>
                let newBytes := value in
                let jsonData := mkJsonData newBytes value in
                let keywordValidators := getNonNilKeywordsSlice js in
                for_each (fun keyword : keywordValidator =>
                  match keyword jsonPath jsonData rootSchemaId with
                  | Err (SchemaValidationError path err) =>
                      Err (SchemaValidationError path err)
                  | Err (KeywordValidationError k reason) =>
                      Err (SchemaValidationError jsonPath
                             (Error (KeywordValidationError k reason)))
                  | r => r
                  end) keywordValidators
            end
        end
    end.

End Keywords.

(** [func (js *JsonSchema) validateJsonData]: one unit of fuel for every
    call. *)
Fixpoint validateJsonData (lib : GoLib) (pool : rootSchemaPool) (fuel : nat)
  (js : JsonSchema) (jsonPath : string) (bytes : rawJSON)
  (rootSchemaId : string) : result unit :=
  match fuel with
  | O => NoFuel
  | S fuel' =>
      validateJsonData_body lib pool (validateJsonData lib pool fuel')
        js jsonPath bytes rootSchemaId
  end.

(** [func (rs *RootJsonSchema) validateBytes]. *)
Definition validateBytes (lib : GoLib) (pool : rootSchemaPool) (fuel : nat)
  (rs : RootJsonSchema) (bytes : rawJSON) : result unit :=
  let id := match Id (root_JsonSchema rs) with
            | Some id => id
            | None => EmptyString
            end in
  validateJsonData lib pool fuel (root_JsonSchema rs) "" bytes id.

(** ** Compilation: [scanSchema] and the root-schema pool

    [scanSchema] mutates the schema it is called on and, through
    [mapSubSchema], the pool.  The embedding returns the schema as the call
    leaves it (also when the call fails), the calls of [mapSubSchema] in the
    order they are made, and the outcome.  [mapSubSchema] stores a pointer,
    and the schema it points to is still being scanned: a recorded call
    therefore carries the schema as the scan leaves it, and the calls are
    applied to the pool when the scan is over.  Every call of [scanSchema]
    passes [rootSchemaID] on as it got it and uses it for [mapSubSchema]
    only: the recorded calls take it from [NewRootJsonSchema]. *)

(** The arguments of a call of [mapSubSchema]. *)
Record mapSubSchemaCall : Type := mkCall {
  call_js : JsonSchema;
  call_schemaPath : string
}.

Definition scanResult : Type := JsonSchema * list mapSubSchemaCall * result unit.

(** What a block of [scanSchema] leaves: the value it worked on, the calls
    of [mapSubSchema] it made, and [Some r] when it made the function
    return with the outcome [r]. *)
Definition block (A : Type) : Type :=
  A * list mapSubSchemaCall * option (result unit).

(** A block runs unless the function has returned. *)
Definition step {A} (returned : option (result unit)) (orig : A)
  (run : A -> block A) : block A :=
  match returned with
  | None => run orig
  | Some _ => (orig, [], returned)
  end.

(** [if err != nil { return err }] after a call of [scanSchema]. *)
Definition return_if_failed (r : result unit) : option (result unit) :=
  match r with
  | Ok _ => None
  | _ => Some r
  end.

(** [p != nil]. *)
Definition not_nil {A} (p : option A) : bool :=
  match p with
  | Some _ => true
  | None => false
  end.

(** [func (js *JsonSchema) connectRelatedKeywords]. *)
Definition connectRelatedKeywords (js : JsonSchema) : JsonSchema :=
  let additionalProperties' :=
    match AdditionalProperties js with
    | Some ap =>
        Some (mk_additionalProperties (additionalProperties_JsonSchema ap)
                (if not_nil (Properties js) then true else siblingProperties ap)
                (if not_nil (PatternProperties js) then true
                 else siblingPatternProperties ap))
    | None => None
    end in
  let additionalItems' :=
    match AdditionalItems js with
    | Some ai =>
        Some (mk_additionalItems (additionalItems_JsonSchema ai)
                (if not_nil (Items js) then true else siblingItems ai))
    | None => None
    end in
  let if' :=
    match If js with
    | Some i =>
        Some (mk_if (if_JsonSchema i)
                (if not_nil (Then js) then true else siblingThen i)
                (if not_nil (Else js) then true else siblingElse i))
    | None => None
    end in
  {|
    RejectAll := RejectAll js;
    Schema := Schema js;
    Ref := Ref js;
    Id := Id js;
    Comment := Comment js;
    Title := Title js;
    Description := Description js;
    Type_ := Type_ js;
    Default := Default js;
    Examples := Examples js;
    Enum := Enum js;
    Const := Const js;
    Definitions := Definitions js;
    Properties := Properties js;
    AdditionalProperties := additionalProperties';
    Required := Required js;
    PropertyNames := PropertyNames js;
    Dependencies := Dependencies js;
    PatternProperties := PatternProperties js;
    Items := Items js;
    Contains := Contains js;
    AdditionalItems := additionalItems';
    MinItems := MinItems js;
    MaxItems := MaxItems js;
    UniqueItems := UniqueItems js;
    MinLength := MinLength js;
    MaxLength := MaxLength js;
    Pattern := Pattern js;
    Format := Format js;
    MultipleOf := MultipleOf js;
    Minimum := Minimum js;
    Maximum := Maximum js;
    ExclusiveMinimum := ExclusiveMinimum js;
    ExclusiveMaximum := ExclusiveMaximum js;
    MinProperties := MinProperties js;
    MaxProperties := MaxProperties js;
    ContentMediaType := ContentMediaType js;
    ContentEncoding := ContentEncoding js;
    AnyOf := AnyOf js;
    AllOf := AllOf js;
    OneOf := OneOf js;
    Not := Not js;
    If := if';
    Then := Then js;
    Else := Else js;
    ReadOnly := ReadOnly js;
    WriteOnly := WriteOnly js
  |}.

(** [func (js *JsonSchema) mapSubSchema], on the pool. *)
Definition mapSubSchema (js : JsonSchema) (schemaPath rootSchemaID : string)
  (pool : rootSchemaPool) : rootSchemaPool :=
  if negb (String.eqb schemaPath "") && negb (String.eqb rootSchemaID "")
  then
    match pool !! rootSchemaID with
    | Some rs =>
        match subSchemaMap rs !! schemaPath with
        | None =>
            <[rootSchemaID :=
                mkRootJsonSchema (root_JsonSchema rs)
                  (<[schemaPath := js]> (subSchemaMap rs))]> pool
        | Some _ => pool
        end
    | None => pool
    end
  else pool.

Definition apply_call (rootSchemaID : string) (pool : rootSchemaPool)
  (c : mapSubSchemaCall) : rootSchemaPool :=
  mapSubSchema (call_js c) (call_schemaPath c) rootSchemaID pool.

Section Scan.
Variable lib : GoLib.

(** [scanSchema] as the blocks call it, on the schemas below. *)
Variable scanSchema : JsonSchema -> string -> scanResult.

(** A call through a [*JsonSchema] that may be [nil]. *)
Definition scanSchema_ptr (p : option JsonSchema) (schemaPath : string)
  : block (option JsonSchema) :=
  match p with
  | Some js =>
      let '(js', calls, r) := scanSchema js schemaPath in
      (Some js', calls, return_if_failed r)
  | None =>
      (None, [], Some (Panic "invalid memory address or nil pointer dereference"))
  end.

(** [for key := range m { err := m[key].scanSchema(prefix+key, ...) ... }] *)
Definition scan_map (prefix : string)
  : list (string * option JsonSchema) -> block (list (string * option JsonSchema)) :=
  fix loop m :=
    match m with
    | [] => ([], [], None)
    | (key, child) :: m' =>
        let '(child', calls, returned) :=
          scanSchema_ptr child (prefix +:+ key) in
        match returned with
        | None =>
            let '(m'', calls', returned') := loop m' in
            ((key, child') :: m'', (calls ++ calls')%list, returned')
        | Some _ => ((key, child') :: m', calls, returned)
        end
    end.

(** [for index := range l { err := l[index].scanSchema(prefix+Itoa(index), ...) ... }] *)
Definition scan_slice (prefix : string)
  : Z -> list (option JsonSchema) -> block (list (option JsonSchema)) :=
  fix loop index l :=
    match l with
    | [] => ([], [], None)
    | child :: l' =>
        let '(child', calls, returned) :=
          scanSchema_ptr child (prefix +:+ strconv_Itoa index) in
        match returned with
        | None =>
            let '(l'', calls', returned') := loop (index + 1)%Z l' in
            (child' :: l'', (calls ++ calls')%list, returned')
        | Some _ => (child' :: l', calls, returned)
        end
    end.

(** The block of a field that is a [nil]-able map or slice. *)
Definition scan_field {A} (scan : A -> block A) (field : option A)
  : block (option A) :=
  match field with
  | Some a => let '(a', calls, returned) := scan a in (Some a', calls, returned)
  | None => (None, [], None)
  end.

(** The block of a field that points to a struct embedding a schema. *)
Definition scan_embedded (path : string) (field : option JsonSchema)
  : block (option JsonSchema) :=
  match field with
  | Some _ => scanSchema_ptr field path
  | None => (None, [], None)
  end.

(** The block of "dependencies". *)
Definition scan_dependencies (schemaPath : string)
  : list (string * dependency) -> block (list (string * dependency)) :=
  fix loop d :=
    match d with
    | [] => ([], [], None)
    | (key, value) :: d' =>
        match value with
        | DepValue (JObject v) =>
            let rawDependency := JObject v in
            match UnmarshalJSON rawDependency with
            | Ok subSchema =>
                let '(subSchema', calls, r) :=
                  scanSchema subSchema (schemaPath +:+ "/dependencies" +:+ key) in
                match r with
                | Ok _ =>
                    let '(d'', calls', returned') := loop d' in
                    ((key, DepSchema subSchema') :: d'', (calls ++ calls')%list, returned')
                | _ => ((key, value) :: d', calls, Some r)
                end
            | Err err =>
                ((key, value) :: d', [],
                 Some (Err (SchemaCompilationError schemaPath (Error err))))
            | Panic msg => ((key, value) :: d', [], Some (Panic msg))
            | NoFuel => ((key, value) :: d', [], Some NoFuel)
            end
        | _ =>
            let '(d'', calls', returned') := loop d' in
            ((key, value) :: d'', calls', returned')
        end
    end.

(** The loop of the block of "items" when it holds an array: the schemas
    stored in [v] so far, or the outcome the function returns with. *)
Definition scan_items_array (schemaPath : string)
  : Z -> list json -> list JsonSchema * list mapSubSchemaCall * option (result unit) :=
  fix loop index v :=
    match v with
    | [] => ([], [], None)
    | value :: v' =>
        let path := schemaPath +:+ "/items" +:+ strconv_Itoa index in
        match UnmarshalJSON value with
        | Ok subSchema =>
            let '(subSchema', calls, r) := scanSchema subSchema path in
            match r with
            | Ok _ =>
                let '(done, calls', returned') := loop (index + 1)%Z v' in
                (subSchema' :: done, (calls ++ calls')%list, returned')
            | Err _ => ([], calls, Some (Ok tt))   (* return nil *)
            | _ => ([], calls, Some r)
            end
        | Err _ => ([], [], Some (Err (SchemaCompilationError path "")))
        | Panic msg => ([], [], Some (Panic msg))
        | NoFuel => ([], [], Some NoFuel)
        end
    end.

(** The block of "items". *)
Definition scan_items (schemaPath : string) (items : json)
  : block json :=
  match items with
  | JObject _ | JBool _ =>
      let rawSubSchema := items in
      match UnmarshalJSON rawSubSchema with
      | Ok subSchema =>
          let '(subSchema', calls, r) :=
            scanSchema subSchema (schemaPath +:+ "/items") in
          match r with
          | Ok _ => (MarshalJsonSchema lib subSchema', calls, None)
          | _ => (items, calls, Some r)
          end
      | Err err =>
          (items, [],
           Some (Err (SchemaCompilationError (schemaPath +:+ "/items") (Error err))))
      | Panic msg => (items, [], Some (Panic msg))
      | NoFuel => (items, [], Some NoFuel)
      end
  | JArray v =>
      let '(done, calls, returned) :=
        scan_items_array schemaPath 0 v in
      match returned with
      | None => (JArray (map (MarshalJsonSchema lib) done), calls, None)
      | Some _ => (items, calls, returned)
      end
  | _ => (items, [], None)
  end.

(** [func (js *JsonSchema) scanSchema], the calls on other schemas going
    through the variable [scanSchema]. *)
Definition scanSchema_body (js : JsonSchema) (schemaPath : string)
  : scanResult :=
  let js := connectRelatedKeywords js in
  let '(properties', calls1, r1) :=
    step None (Properties js)
      (scan_field (scan_map (schemaPath +:+ "/properties/"))) in
  let '(additionalProperties', calls2, r2) :=
    step r1 (additionalProperties_JsonSchema <$> AdditionalProperties js)
      (scan_embedded (schemaPath +:+ "/additionalProperties")) in
  let '(propertyNames', calls3, r3) :=
    step r2 (PropertyNames js)
      (scan_embedded (schemaPath +:+ "/propertyNames")) in
  let '(dependencies', calls4, r4) :=
    step r3 (Dependencies js)
      (scan_field (scan_dependencies schemaPath)) in
  let '(patternProperties', calls5, r5) :=
    step r4 (PatternProperties js)
      (scan_field (scan_map (schemaPath +:+ "/patternProperties/"))) in
  let '(definitions', calls6, r6) :=
    step r5 (Definitions js)
      (scan_field (scan_map (schemaPath +:+ "/definitions/"))) in
  let '(items', calls7, r7) :=
    step r6 (Items js) (scan_field (scan_items schemaPath)) in
  let '(additionalItems', calls8, r8) :=
    step r7 (additionalItems_JsonSchema <$> AdditionalItems js)
      (scan_embedded (schemaPath +:+ "/additionalItems")) in
  let '(contains', calls9, r9) :=
    step r8 (Contains js)
      (scan_embedded (schemaPath +:+ "/contains")) in
  let '(anyOf', calls10, r10) :=
    step r9 (AnyOf js)
      (scan_field (scan_slice (schemaPath +:+ "/anyOf/") 0)) in
  let '(allOf', calls11, r11) :=
    step r10 (AllOf js)
      (scan_field (scan_slice (schemaPath +:+ "/allOf/") 0)) in
  let '(oneOf', calls12, r12) :=
    step r11 (OneOf js)
      (scan_field (scan_slice (schemaPath +:+ "/oneOf/") 0)) in
  let '(not', calls13, r13) :=
    step r12 (Not js) (scan_embedded (schemaPath +:+ "/not")) in
  let '(if', calls14, r14) :=
    step r13 (if_JsonSchema <$> If js)
      (scan_embedded (schemaPath +:+ "/if")) in
  let '(then', calls15, r15) :=
    step r14 (Then js)
      (fun t => if not_nil (If js)
                then scan_embedded (schemaPath +:+ "/then") t
                else (t, [], None)) in
  let '(else', calls16, r16) :=
    step r15 (Else js)
      (fun e => if not_nil (If js)
                then scan_embedded (schemaPath +:+ "/else") e
                else (e, [], None)) in
  let js' := {|
    RejectAll := RejectAll js;
    Schema := Schema js;
    Ref := Ref js;
    Id := Id js;
    Comment := Comment js;
    Title := Title js;
    Description := Description js;
    Type_ := Type_ js;
    Default := Default js;
    Examples := Examples js;
    Enum := Enum js;
    Const := Const js;
    Definitions := definitions';
    Properties := properties';
    AdditionalProperties :=
      match AdditionalProperties js, additionalProperties' with
      | Some ap, Some s =>
          Some (mk_additionalProperties s (siblingProperties ap)
                  (siblingPatternProperties ap))
      | o, _ => o
      end;
    Required := Required js;
    PropertyNames := propertyNames';
    Dependencies := dependencies';
    PatternProperties := patternProperties';
    Items := items';
    Contains := contains';
    AdditionalItems :=
      match AdditionalItems js, additionalItems' with
      | Some ai, Some s => Some (mk_additionalItems s (siblingItems ai))
      | o, _ => o
      end;
    MinItems := MinItems js;
    MaxItems := MaxItems js;
    UniqueItems := UniqueItems js;
    MinLength := MinLength js;
    MaxLength := MaxLength js;
    Pattern := Pattern js;
    Format := Format js;
    MultipleOf := MultipleOf js;
    Minimum := Minimum js;
    Maximum := Maximum js;
    ExclusiveMinimum := ExclusiveMinimum js;
    ExclusiveMaximum := ExclusiveMaximum js;
    MinProperties := MinProperties js;
    MaxProperties := MaxProperties js;
    ContentMediaType := ContentMediaType js;
    ContentEncoding := ContentEncoding js;
    AnyOf := anyOf';
    AllOf := allOf';
    OneOf := oneOf';
    Not := not';
    If :=
      match If js, if' with
      | Some i, Some s => Some (mk_if s (siblingThen i) (siblingElse i))
      | o, _ => o
      end;
    Then := then';
    Else := else';
    ReadOnly := ReadOnly js;
    WriteOnly := WriteOnly js
  |} in
  (js',
   (mkCall js' schemaPath
      :: calls1 ++ calls2 ++ calls3 ++ calls4 ++ calls5 ++ calls6 ++ calls7
      ++ calls8 ++ calls9 ++ calls10 ++ calls11 ++ calls12 ++ calls13
      ++ calls14 ++ calls15 ++ calls16)%list,
   match r16 with
   | Some r => r
   | None => Ok tt
   end).

End Scan.

(** [func (js *JsonSchema) scanSchema]: one unit of fuel for every call. *)
Fixpoint scanSchema (lib : GoLib) (fuel : nat) (js : JsonSchema)
  (schemaPath : string) : scanResult :=
  match fuel with
  | O => (js, [], NoFuel)
  | S fuel' =>
      scanSchema_body lib (scanSchema lib fuel') js schemaPath
  end.

(** [func NewRootJsonSchema(bytes []byte)]: the
    pool as the call leaves it, and what the call returns.  The root that is
    put into the pool and the root that is returned are one object. *)
Definition NewRootJsonSchema (lib : GoLib) (fuel : nat) (pool : rootSchemaPool)
  (bytes : rawJSON) : rootSchemaPool * result RootJsonSchema :=
  match bytes with
  | BadJSON err => (pool, Err err)
  | RawJSON JNull =>
      (* rootSchema stays nil and rootSchema.subSchemaMap is assigned *)
      (pool, Panic "invalid memory address or nil pointer dereference")
  | RawJSON v =>
      match UnmarshalJSON v with
      | Ok js =>
          let rootSchemaId :=
            match Id js with
            | Some id => id
            | None => EmptyString
            end in
          let '(js', calls, r) := scanSchema lib fuel js "" in
          let rootSchema := mkRootJsonSchema js' ∅ in
          let registers := bool_decide (pool !! rootSchemaId = None) in
          let pool1 :=
            if registers then <[rootSchemaId := rootSchema]> pool else pool in
          let pool2 := foldl (apply_call rootSchemaId) pool1 calls in
          let rootSchema :=
            if registers then default rootSchema (pool2 !! rootSchemaId)
            else rootSchema in
          (pool2, _ ← r; Ok rootSchema)
      | Err err => (pool, Err err)
      | Panic msg => (pool, Panic msg)
      | NoFuel => (pool, NoFuel)
      end
  end.

(** [func NewJsonSchema(bytes []byte)]: the scan runs with an empty
    [rootSchemaID], so that the calls of [mapSubSchema] leave the pool as it
    is. *)
Definition NewJsonSchema (lib : GoLib) (fuel : nat) (pool : rootSchemaPool)
  (bytes : rawJSON) : rootSchemaPool * result JsonSchema :=
  match bytes with
  | BadJSON err => (pool, Err err)
  | RawJSON JNull =>
      (* schema stays nil and connectRelatedKeywords reads its fields *)
      (pool, Panic "invalid memory address or nil pointer dereference")
  | RawJSON v =>
      match UnmarshalJSON v with
      | Ok js =>
          let '(js', calls, r) := scanSchema lib fuel js "" in
          (foldl (apply_call "") pool calls, _ ← r; Ok js')
      | Err err => (pool, Err err)
      | Panic msg => (pool, Panic msg)
      | NoFuel => (pool, NoFuel)
      end
  end.

(** ** The subschemas of a root

    The walk that the subschema index is measured against: the subschemas of
    a decoded schema with the path each one adds to the path of the schema,
    in the order [scanSchema] visits them, and their closure.  It is defined
    on the schema alone and makes no reference to the pool. *)

Definition subschemas_of_map (prefix : string)
  (m : option (list (string * option JsonSchema))) : list (string * JsonSchema) :=
  flat_map (fun kp : string * option JsonSchema =>
              match snd kp with
              | Some c => [(prefix +:+ fst kp, c)]
              | None => []
              end) (default [] m).

Definition subschemas_of_slice (prefix : string)
  (l : option (list (option JsonSchema))) : list (string * JsonSchema) :=
  flat_map (fun ip : Z * option JsonSchema =>
              match snd ip with
              | Some c => [(prefix +:+ strconv_Itoa (fst ip), c)]
              | None => []
              end) (combine (indices (default [] l)) (default [] l)).

Definition subschemas_of_embedded (path : string) (field : option JsonSchema)
  : list (string * JsonSchema) :=
  match field with
  | Some c => [(path, c)]
  | None => []
  end.

(** A dependency is a subschema when it is a JSON object; [scanSchema]
    passes over one that it has already replaced by its schema. *)
Definition subschemas_of_dependencies
  (d : option (list (string * dependency))) : list (string * JsonSchema) :=
  flat_map (fun kd : string * dependency =>
              match snd kd with
              | DepValue (JObject v) =>
                  match UnmarshalJSON (JObject v) with
                  | Ok c => [("/dependencies" +:+ fst kd, c)]
                  | _ => []
                  end
              | _ => []
              end) (default [] d).

Definition subschemas_of_items (items : option json) : list (string * JsonSchema) :=
  match items with
  | Some (JArray v) =>
      flat_map (fun ix : Z * json =>
                  match UnmarshalJSON (snd ix) with
                  | Ok c => [("/items" +:+ strconv_Itoa (fst ix), c)]
                  | _ => []
                  end) (combine (indices v) v)
  | Some (JObject _ as v) | Some (JBool _ as v) =>
      match UnmarshalJSON v with
      | Ok c => [("/items", c)]
      | _ => []
      end
  | _ => []
  end.

(** The subschemas one step below [js]; "then" and "else" count below a
    schema that has an "if". *)
Definition subschemas (js : JsonSchema) : list (string * JsonSchema) :=
  (subschemas_of_map "/properties/" (Properties js)
   ++ subschemas_of_embedded "/additionalProperties"
        (additionalProperties_JsonSchema <$> AdditionalProperties js)
   ++ subschemas_of_embedded "/propertyNames" (PropertyNames js)
   ++ subschemas_of_dependencies (Dependencies js)
   ++ subschemas_of_map "/patternProperties/" (PatternProperties js)
   ++ subschemas_of_map "/definitions/" (Definitions js)
   ++ subschemas_of_items (Items js)
   ++ subschemas_of_embedded "/additionalItems"
        (additionalItems_JsonSchema <$> AdditionalItems js)
   ++ subschemas_of_embedded "/contains" (Contains js)
   ++ subschemas_of_slice "/anyOf/" (AnyOf js)
   ++ subschemas_of_slice "/allOf/" (AllOf js)
   ++ subschemas_of_slice "/oneOf/" (OneOf js)
   ++ subschemas_of_embedded "/not" (Not js)
   ++ subschemas_of_embedded "/if" (if_JsonSchema <$> If js)
   ++ (if not_nil (If js)
       then subschemas_of_embedded "/then" (Then js)
            ++ subschemas_of_embedded "/else" (Else js)
       else []))%list.

(** The subschemas at most [depth] steps below [js], with their canonical
    paths when [js] is at [path]. *)
Fixpoint walk (depth : nat) (js : JsonSchema) (path : string)
  : list (string * JsonSchema) :=
  match depth with
  | O => []
  | S depth' =>
      flat_map (fun sc : string * JsonSchema =>
                  (path +:+ fst sc, snd sc)
                    :: walk depth' (snd sc) (path +:+ fst sc))
        (subschemas js)
  end.

(** Every member that stands for a schema decodes to one: no [null] where a
    schema is expected, and the members of "dependencies" and "items", which
    [scanSchema] decodes, are schemas. *)
Definition decodes (js : JsonSchema) : bool :=
  let pointers (m : option (list (string * option JsonSchema))) : bool :=
    forallb (fun kp : string * option JsonSchema => not_nil (snd kp))
      (default [] m) in
  let elements (l : option (list (option JsonSchema))) : bool :=
    forallb not_nil (default [] l) in
  pointers (Properties js)
  && pointers (PatternProperties js)
  && pointers (Definitions js)
  && elements (AnyOf js)
  && elements (AllOf js)
  && elements (OneOf js)
  && forallb (fun kd : string * dependency =>
                match snd kd with
                | DepValue (JObject v) => is_Ok (UnmarshalJSON (JObject v))
                | _ => true
                end) (default [] (Dependencies js))
  && match Items js with
     | Some (JArray v) => forallb (fun x => is_Ok (UnmarshalJSON x)) v
     | Some (JObject _ as v) | Some (JBool _ as v) => is_Ok (UnmarshalJSON v)
     | _ => true
     end.

(** [decodes] for [js] and for its subschemas down to [depth]. *)
Fixpoint decodes_to (depth : nat) (js : JsonSchema) : bool :=
  decodes js
  && match depth with
     | O => true
     | S depth' =>
         forallb (fun sc : string * JsonSchema => decodes_to depth' (snd sc))
           (subschemas js)
     end.

End jsonvalidator.

(** * Notions used in the statements *)

Import jsonvalidator.

(** The root id that [NewRootJsonSchema] and [validateBytes] take from a
    schema: its "$id", or the empty string. *)
Definition rootSchemaId_of (js : JsonSchema) : string :=
  match Id js with
  | Some id => id
  | None => EmptyString
  end.

(** The subschema [schema] validates the instance, as [oneOf] asks it. *)
Definition validates
  (validateJsonData : JsonSchema -> string -> rawJSON -> string -> result unit)
  (jsonData : jsonData) (rootSchemaId : string) (schema : option JsonSchema)
  : bool :=
  is_Ok (validateJsonData_ptr validateJsonData schema ""
           (RawJSON (raw jsonData)) rootSchemaId).

(** The paths of the recorded calls of [mapSubSchema]. *)
Definition paths (calls : list mapSubSchemaCall) : list string :=
  map call_schemaPath calls.

(** A block of [scanSchema] that ran through, or ran out of fuel. *)
Definition block_ok (ret : option (result unit)) : Prop :=
  ret = None \/ ret = Some NoFuel.

(** [js] and all the schemas below it decode. *)
Definition decodes_below (js : JsonSchema) : Prop :=
  forall d, decodes_to d js = true.

(** [s'] is what [scanSchema] leaves of [s] when it scans it at the path
    [p]: the schema behind the pointer that the call was made on. *)
Definition compiled (lib : GoLib) (s : JsonSchema) (p : string) (s' : JsonSchema)
  : Prop :=
  exists fuel calls, scanSchema lib fuel s p = (s', calls, Ok tt).

(** The call of [mapSubSchema] is the one made for the subschema [node]: it
    carries the canonical path of the subschema, and the schema it stores is
    what [scanSchema] leaves of the subschema. *)
Definition records (lib : GoLib) (call : mapSubSchemaCall)
  (node : string * JsonSchema) : Prop :=
  call_schemaPath call = fst node
  /\ compiled lib (snd node) (fst node) (call_js call).

(** The schemas of [subs], which are one step below a schema at [path], each
    one followed by the subschemas at most [d] steps below it: [walk], one
    step down. *)
Definition below (d : nat) (subs : list (string * JsonSchema)) (path : string)
  : list (string * JsonSchema) :=
  flat_map (fun sc : string * JsonSchema =>
              (path +:+ fst sc, snd sc) :: walk d (snd sc) (path +:+ fst sc))
    subs.

(** The calls are the ones for the schema [c] at [p] and for everything
    below it, one call for each and in the order of [walk], whatever the
    depth of the walk from [f] on. *)
Definition covers (lib : GoLib) (f : nat) (c : JsonSchema) (p : string)
  (calls : list mapSubSchemaCall) : Prop :=
  forall d, (f <= d)%nat -> Forall2 (records lib) calls ((p, c) :: walk d c p).

(** The calls are the ones for the schemas of [subs], which are one step
    below a schema at [path], and for everything below them. *)
Definition covers_all (lib : GoLib) (f : nat) (subs : list (string * JsonSchema))
  (path : string) (calls : list mapSubSchemaCall) : Prop :=
  forall d, (f <= d)%nat -> Forall2 (records lib) calls (below d subs path).

(** What the coverage proof shows of a scan function: on a schema that
    decodes it does not fail, and when it returns, the calls it has recorded
    are the ones for the schema and for everything below it. *)
Definition good (lib : GoLib) (f : nat) (scan : JsonSchema -> string -> scanResult)
  : Prop :=
  forall js path js' calls r,
    scan js path = (js', calls, r) -> decodes_below js ->
    (r = Ok tt \/ r = NoFuel) /\ (r = Ok tt -> covers lib f js path calls).

(** What "items" must hold for its block to run through. *)
Definition items_decode (items : json) : Prop :=
  match items with
  | JArray v =>
      forall x, In x v -> exists c, UnmarshalJSON x = Ok c /\ decodes_below c
  | JObject _ | JBool _ =>
      exists c, UnmarshalJSON items = Ok c /\ decodes_below c
  | _ => True
  end.

(** The root registered under [id] has an entry for the path [p]. *)
Definition indexed (pool : rootSchemaPool) (id p : string) : Prop :=
  exists rs, pool !! id = Some rs /\ is_Some (subSchemaMap rs !! p).

(** The instance is not of the JSON type that the keyword applies to. *)
Definition not_string (v : json) : Prop := forall s, v <> JString s.
Definition not_number (v : json) : Prop := forall q, v <> JNumber q.
Definition not_object (v : json) : Prop := forall m, v <> JObject m.
Definition not_array (v : json) : Prop := forall l, v <> JArray l.

(** The names of the members that the decoder of [JsonSchema] reads: the
    tags of the fields of the struct. *)
Definition JsonSchema_tags : list string :=
  ["rejectAll"; "$schema"; "$ref"; "$id"; "$comment"; "title"; "description";
   "type"; "default"; "examples"; "enum"; "const"; "definitions"; "properties";
   "additionalProperties"; "required"; "propertyNames"; "dependencies";
   "patternProperties"; "items"; "contains"; "additionalItems"; "minItems";
   "maxItems"; "uniqueItems"; "minLength"; "maxLength"; "pattern"; "format";
   "multipleOf"; "minimum"; "maximum"; "exclusiveMinimum"; "exclusiveMaximum";
   "minProperties"; "maxProperties"; "contentMediaType"; "contentEncoding";
   "anyOf"; "allOf"; "oneOf"; "not"; "if"; "then"; "else"; "readOnly";
   "writeOnly"].

(** A name as [encoding/json] compares it with a tag when no tag has its
    exact spelling: without regard to the case of its letters.  On a name
    made of ASCII bytes the comparison is that of the names in lower
    case. *)
Definition ascii_ToLower (c : ascii) : ascii :=
  let n := nat_of_ascii c in
  if (65 <=? n)%nat && (n <=? 90)%nat then ascii_of_nat (n + 32) else c.

Fixpoint strings_ToLower (s : string) : string :=
  match s with
  | EmptyString => EmptyString
  | String c s' => String (ascii_ToLower c) (strings_ToLower s')
  end.

Fixpoint is_ascii (s : string) : bool :=
  match s with
  | EmptyString => true
  | String c s' => (nat_of_ascii c <? 128)%nat && is_ascii s'
  end.

(** The values of "format" that [format.validate] has a case for. *)
Definition known_formats : list string :=
  [FORMAT_DATE_TIME; FORMAT_DATE; FORMAT_TIME; FORMAT_EMAIL; FORMAT_IDN_EMAIL;
   FORMAT_HOSTNAME; FORMAT_IDN_HOSTNAME; FORMAT_IPV4; FORMAT_IPV6; FORMAT_URI;
   FORMAT_URI_REFERENCE; FORMAT_IRI; FORMAT_IRI_REFERENCE; FORMAT_URI_TEMPLATE;
   FORMAT_JSON_POINTER; FORMAT_RELATIVE_JSON_POINTER; FORMAT_REGEX].

(** An entry of the pool keeps its root schema and its index only gains
    entries. *)
Definition grown (old new : RootJsonSchema) : Prop :=
  root_JsonSchema new = root_JsonSchema old
  /\ subSchemaMap old ⊆ subSchemaMap new.

(** * Schemas and instances of the scenarios *)

(** S5: [{"items":[{"type":"string"},{"type":"number"}],"additionalItems":{"type":"boolean"}}]. *)
Definition schema_S5 : json :=
  JObject [("items", JArray [JObject [("type", JString "string")];
                             JObject [("type", JString "number")]]);
           ("additionalItems", JObject [("type", JString "boolean")])].

(** [["x",1,true,false]] and [["x",1,0]]. *)
Definition instance_S5_accept : json :=
  JArray [JString "x"; JNumber 1; JBool true; JBool false].
Definition instance_S5_reject : json :=
  JArray [JString "x"; JNumber 1; JNumber 0].


(** Two roots, the first referring into the second, whose subschema refers
    on within its own root:
    [{"$id":"A","properties":{"v":{"$ref":"B#/definitions/n"}}}] and
    [{"$id":"B","definitions":{"n":{"$ref":"#/definitions/m"},"m":{"type":"number"}}}]. *)
Definition schema_A : json :=
  JObject [("$id", JString "A");
           ("properties",
            JObject [("v", JObject [("$ref", JString "B#/definitions/n")])])].
Definition schema_B : json :=
  JObject [("$id", JString "B");
           ("definitions",
            JObject [("n", JObject [("$ref", JString "#/definitions/m")]);
                     ("m", JObject [("type", JString "number")])])].

(** [{"contains":{}}], [{"minLength":5}] and [{"$ref":"other"}]. *)
Definition schema_contains : json := JObject [("contains", JObject [])].
Definition schema_minLength : json := JObject [("minLength", JNumber 5)].
Definition schema_ref_without_hash : json := JObject [("$ref", JString "other")].

(** Two roots without "$id". *)
Definition schema_anonymous_1 : json := JObject [("type", JString "string")].
Definition schema_anonymous_2 : json := JObject [("type", JString "number")].

(** A root without "$id" and a root with one, both with a subschema. *)
Definition schema_without_id : json :=
  JObject [("properties", JObject [("a", JObject [])])].
Definition schema_with_id : json :=
  JObject [("$id", JString "R");
           ("properties", JObject [("a", JObject [("items", JObject [])])]);
           ("not", JObject [])].

(** A root in which two subschemas have one canonical path: the property
    "b" of the property "a", and the property "a/properties/b". *)
Definition schema_colliding_paths : json :=
  JObject [("$id", JString "K");
           ("properties",
            JObject [("a",
                      JObject [("properties",
                                JObject [("b", JObject [("type", JString "string")])])]);
                     ("a/properties/b", JObject [("type", JString "number")])])].

(** A root with a "then" and no "if". *)
Definition schema_then_without_if : json :=
  JObject [("$id", JString "T"); ("then", JObject [])].

(** A library for the closed examples: none of them reaches a library
    function, and any other record would do. *)
Definition example_lib : GoLib := {|
  regexp_MatchString := fun _ _ => (false, None);
  regexp_ReplaceAllString := fun _ src _ => src;
  regexp_Compile := fun _ => None;
  time_Parse_RFC3339 := fun _ => None;
  mail_ParseAddress := fun _ => None;
  net_ParseIP := fun _ => false;
  url_Parse := fun _ => None;
  fmt_U := fun _ => EmptyString;
  strconv_FormatFloat := fun _ => EmptyString;
  json_Marshal := fun _ => EmptyString;
  base64_EncodeToString := fun s => s;
  bytes_quoted := fun s => RawJSON (JString s)
|}.

(** * Properties *)

#[local] Arguments UnmarshalJSON : simpl never.
#[local] Arguments MarshalJsonSchema : simpl never.

(** A conjunction of closed equations, evaluated from left to right: an
    equation fixes the values that the next ones are about. *)
Ltac evaluate :=
  repeat match goal with
         | |- _ /\ _ => split; [vm_compute; reflexivity|]
         end;
  vm_compute; reflexivity.

Ltac evaluate_each :=
  repeat (apply List.Forall_cons; [vm_compute; reflexivity|]);
  apply List.Forall_nil.

(** ** Strings and slices *)

Lemma string_app_assoc (a b c : string) : (a +:+ b) +:+ c = a +:+ (b +:+ c).
Proof.
  induction a as [|x a IH]; [reflexivity|].
  change (String x ((a +:+ b) +:+ c) = String x (a +:+ (b +:+ c))).
  now rewrite IH.
Qed.

Lemma string_app_slash (a b : string) : a +:+ String "/" b <> EmptyString.
Proof. destruct a; discriminate. Qed.

(** Without the separator, [strings.Split] returns the string alone. *)
Lemma strings_Split_without (s : string) (sep : ascii) :
  strings_Contains s sep = false -> strings_Split s sep = [s].
Proof.
  induction s as [|c s IH]; simpl; [reflexivity|].
  destruct (Ascii.eqb c sep); simpl; [discriminate|].
  intros H. now rewrite (IH H).
Qed.

(** With the separator, it returns two pieces at least. *)
Lemma strings_Split_with (s : string) (sep : ascii) :
  strings_Contains s sep = true ->
  exists a b rest, strings_Split s sep = a :: b :: rest.
Proof.
  induction s as [|c s IH]; simpl; [discriminate|].
  destruct (Ascii.eqb c sep); simpl.
  - intros _. destruct s as [|d s]; simpl.
    + now exists EmptyString, EmptyString, [].
    + destruct (Ascii.eqb d sep).
      * eexists _, _, _. reflexivity.
      * destruct (strings_Split s sep); eexists _, _, _; reflexivity.
  - intros H. destruct (IH H) as (a & b & rest & ->).
    now exists (String c a), b, rest.
Qed.

(** ** C4: JSON-Pointer evaluation on an array *)

(** C4 (the code departs from the claim).  The claim has [Evaluate] return a
    missing-token error whenever a token applied to an array does not name
    an existing index.  In the code a token that [strconv.Atoi] reads as an
    integer outside the bounds of the array makes [evaluateToken] index the
    array all the same: the evaluation panics, whatever tokens follow. *)
Theorem Evaluate_index_out_of_range_panics
  (v : list json) (token : string) (rest : list string) (index : Z) :
  strconv_Atoi token = (index, None) ->
  (index < 0 \/ Z.of_nat (length v) <= index)%Z ->
  jsonwalker.Evaluate (token :: rest) (RawJSON (JArray v))
  = Panic "index out of range".
Proof.
  intros Hatoi Hrange. simpl. rewrite Hatoi.
  unfold jsonwalker.index_slice.
  destruct (index <? 0)%Z eqn:Hneg; [reflexivity|].
  apply Z.ltb_ge in Hneg.
  destruct (nth_error v (Z.to_nat index)) as [x|] eqn:Hnth; [|reflexivity].
  exfalso. assert (Hlt : (Z.to_nat index < length v)%nat).
  { apply nth_error_Some. now rewrite Hnth. }
  lia.
Qed.

Lemma Evaluate_index_out_of_range_panics_witness :
  strconv_Atoi "5" = (5%Z, None)
  /\ (5 < 0 \/ Z.of_nat (length [JNumber 1; JNumber 2]) <= 5)%Z
  /\ jsonwalker.Evaluate ["5"] (RawJSON (JArray [JNumber 1; JNumber 2]))
     = Panic "index out of range".
Proof.
  split; [reflexivity|]. split; [right; simpl; lia|].
  apply (Evaluate_index_out_of_range_panics [JNumber 1; JNumber 2] "5" [] 5).
  - reflexivity.
  - right. simpl. lia.
Defined.

(** The pointers "/5" and "/-1" on the document [[1,2]]; a token that is not
    a number gives an error, which carries the text of [strconv.Atoi]. *)
Lemma Evaluate_examples :
  (jp ← jsonwalker.NewJsonPointer "/5";
   jsonwalker.Evaluate jp (RawJSON (JArray [JNumber 1; JNumber 2])))
  = Panic "index out of range"
  /\ (jp ← jsonwalker.NewJsonPointer "/-1";
      jsonwalker.Evaluate jp (RawJSON (JArray [JNumber 1; JNumber 2])))
     = Panic "index out of range"
  /\ (jp ← jsonwalker.NewJsonPointer "/x";
      jsonwalker.Evaluate jp (RawJSON (JArray [JNumber 1; JNumber 2])))
     = Err (InvalidJsonPointerError "/x"
              (Error (NumError "Atoi" "x" "invalid syntax"))).
Proof. repeat split; reflexivity. Qed.

(** Inside the bounds the token is resolved. *)
Lemma evaluateToken_in_range (v : list json) (token : string) (index : Z) (x : json) :
  strconv_Atoi token = (index, None) ->
  (0 <= index)%Z -> nth_error v (Z.to_nat index) = Some x ->
  jsonwalker.evaluateToken token (JArray v) = Ok x.
Proof.
  intros Hatoi Hpos Hnth. simpl. rewrite Hatoi. unfold jsonwalker.index_slice.
  destruct (index <? 0)%Z eqn:Hneg; [apply Z.ltb_lt in Hneg; lia|].
  now rewrite Hnth.
Qed.

(** ** C9: the relative-json-pointer format *)

(** C9 (the code departs from the claim).  The claim has the checker reject
    every string whose integer prefix is negative.  The code tests
    [err != nil || i < 0] and then returns [err]: for a negative prefix that
    [strconv.Atoi] reads, [err] is [nil], and the string is accepted,
    whatever follows the prefix. *)
Theorem IsValidRelJSONPointer_accepts_negative_prefix
  (relJSONPointer : string) (i : Z) :
  strconv_Atoi
    (hd EmptyString
       (if (length (strings_Split relJSONPointer "/") =? 1)%nat
        then strings_Split relJSONPointer "#"
        else strings_Split relJSONPointer "/")) = (i, None) ->
  (i < 0)%Z ->
  formatchecker.IsValidRelJSONPointer relJSONPointer = Ok tt.
Proof.
  intros Hatoi Hneg. unfold formatchecker.IsValidRelJSONPointer.
  cbv zeta. rewrite Hatoi.
  apply Z.ltb_lt in Hneg. rewrite Hneg. rewrite orb_true_r. reflexivity.
Qed.

Lemma IsValidRelJSONPointer_accepts_negative_prefix_witness :
  (strconv_Atoi
     (hd EmptyString
        (if (length (strings_Split "-1/foo" "/") =? 1)%nat
         then strings_Split "-1/foo" "#"
         else strings_Split "-1/foo" "/")) = ((-1)%Z, None)
   /\ (-1 < 0)%Z)
  /\ formatchecker.IsValidRelJSONPointer "-1/foo" = Ok tt.
Proof.
  split; [split; [reflexivity|lia]|].
  apply (IsValidRelJSONPointer_accepts_negative_prefix "-1/foo" (-1));
    [reflexivity|lia].
Defined.

(** The two strings of the claim are accepted; the strings of the tests
    keep their verdicts. *)
Lemma IsValidRelJSONPointer_examples :
  formatchecker.IsValidRelJSONPointer "-1/foo" = Ok tt
  /\ formatchecker.IsValidRelJSONPointer "-1#" = Ok tt
  /\ formatchecker.IsValidRelJSONPointer "0/a/b" = Ok tt
  /\ formatchecker.IsValidRelJSONPointer "5/a/b#" = Ok tt
  /\ formatchecker.IsValidRelJSONPointer "2#" = Ok tt
  /\ formatchecker.IsValidRelJSONPointer "2" = Ok tt
  /\ is_Ok (formatchecker.IsValidRelJSONPointer "/a/b") = false.
Proof. repeat split; reflexivity. Qed.

(** ** C10: a "$ref" without "#" *)

(** C10 (the code departs from the claim).  The claim has the resolution
    of a "$ref" without "#" return an error value.  [validateByRef] reads
    [splittedRef[1]] without a test of the length: when the reference holds
    no "#" the split has one piece and the read panics; when it holds one,
    both reads are inside the slice. *)
Theorem validateByRef_without_hash_panics
  (pool : rootSchemaPool)
  (rec : JsonSchema -> string -> rawJSON -> string -> result unit)
  (r jsonPath : string) (jsonData : rawJSON) (rootSchemaID : string) :
  (strings_Contains r "#" = false ->
   validateByRef pool rec r jsonPath jsonData rootSchemaID
   = Panic "index out of range")
  /\ (strings_Contains r "#" = true ->
      exists schemaURI fragment,
        jsonwalker.index_slice (strings_Split r "#") 0 = Ok schemaURI
        /\ jsonwalker.index_slice (strings_Split r "#") 1 = Ok fragment).
Proof.
  split; intros H.
  - unfold validateByRef. rewrite (strings_Split_without _ _ H). reflexivity.
  - destruct (strings_Split_with _ _ H) as (a & b & rest & ->).
    now exists a, b.
Qed.

Lemma validateByRef_without_hash_panics_witness :
  strings_Contains "other" "#" = false
  /\ validateByRef ∅ (validateJsonData example_lib ∅ 1) "other" ""
       (RawJSON (JNumber 42)) ""
     = Panic "index out of range".
Proof.
  split; [reflexivity|].
  apply (validateByRef_without_hash_panics ∅ (validateJsonData example_lib ∅ 1)
           "other" "" (RawJSON (JNumber 42)) ""). reflexivity.
Defined.

(** The schema [{"$ref":"other"}], compiled and applied to an instance. *)
Lemma ref_without_hash_example (lib : GoLib) (n m : nat) :
  exists pool rs,
    NewRootJsonSchema lib (S n) ∅ (RawJSON schema_ref_without_hash)
    = (pool, Ok rs)
    /\ validateBytes lib pool (S m) rs (RawJSON (JNumber 42))
       = Panic "index out of range".
Proof. eexists _, _. evaluate. Qed.

(** ** C1: additionalItems *)

(** C1 (the code departs from the claim).  The claim has [additionalItems]
    validate the elements at the indices from [len(items)] on, so that S5
    accepts [["x",1,true,false]].  The code ranges over
    [array[len(itemsArray):]] and uses the index of the range, which starts
    at 0, as the index into the instance: it validates the first
    [len(array) - len(itemsArray)] elements.  On S5 it applies
    [{"type":"boolean"}] to the element "x" and rejects both instances. *)
Theorem additionalItems_S5_rejects_both (lib : GoLib) (n m : nat) :
  exists pool rs reason,
    NewRootJsonSchema lib (S (S n)) ∅ (RawJSON schema_S5) = (pool, Ok rs)
    /\ validateBytes lib pool (S (S m)) rs (RawJSON instance_S5_accept)
       = Err (SchemaValidationError EmptyString reason)
    /\ validateBytes lib pool (S (S m)) rs (RawJSON instance_S5_reject)
       = Err (SchemaValidationError EmptyString reason).
Proof. eexists _, _, _. evaluate. Qed.

(** The paths that [additionalItems] validates are numbered from 0: with
    [n] sibling schemas and an instance of [n + k] elements, the validator
    is the loop over the indices [0 .. k-1]. *)
Lemma additionalItems_indices (itemsArray array : list json) :
  (length itemsArray <= length array)%nat ->
  indices (drop (length itemsArray) array)
  = map Z.of_nat (seq 0 (length array - length itemsArray)).
Proof. intros _. unfold indices. now rewrite length_drop. Qed.

(** An instance whose first elements are booleans is accepted by S5's
    "additionalItems" whatever stands at the indices from 2 on: items then
    rejects it, since the same elements must be a string and a number. *)
Lemma additionalItems_S5_validates_prefix (lib : GoLib) (m : nat) :
  exists pool rs ai,
    NewRootJsonSchema lib 2 ∅ (RawJSON schema_S5) = (pool, Ok rs)
    /\ AdditionalItems (root_JsonSchema rs) = Some ai
    /\ additionalItems_validate (validateJsonData lib pool (S m))
         (root_JsonSchema rs) ai EmptyString
         (mkJsonData (JArray [JBool true; JBool false; JString "x"; JNumber 1])
                     (JArray [JBool true; JBool false; JString "x"; JNumber 1]))
         EmptyString
       = Ok tt.
Proof. eexists _, _, _. evaluate. Qed.

(** ** C2: the root id after a "$ref" into another root *)

(** C2 (the code departs from the claim).  The claim has the validation
    that a "$ref" delegates run under the id of the resolved root.
    [validateByRef] passes on [rootSchemaID], the id it was called with.
    With the roots A and B of the scenario, the "$ref" [#/definitions/m]
    inside B, reached from A, is looked up in the entry of A and is not
    found there; the same subschema of B validates the instance when it is
    run under the id of B. *)
Theorem nested_ref_resolves_against_referencing_root (lib : GoLib) (m : nat) :
  exists poolB rsB pool rsA n_schema,
    NewRootJsonSchema lib 3 ∅ (RawJSON schema_B) = (poolB, Ok rsB)
    /\ NewRootJsonSchema lib 3 poolB (RawJSON schema_A) = (pool, Ok rsA)
    /\ validateBytes lib pool (S (S (S (S m)))) rsA
         (RawJSON (JObject [("v", JNumber 1)]))
       = Err (InvalidReferenceError "A" "/definitions/m"
                "could not find fragment in the referenced root schema")
    /\ subSchemaMap rsB !! "/definitions/n" = Some n_schema
    /\ validateJsonData lib pool (S (S (S m))) n_schema "/v"
         (RawJSON (JObject [("v", JNumber 1)])) "B"
       = Ok tt.
Proof. eexists _, _, _, _, _. evaluate. Qed.

(** [validateByRef] hands the id it received to the schema it resolved. *)
Lemma validateByRef_keeps_rootSchemaID
  (pool : rootSchemaPool)
  (rec : JsonSchema -> string -> rawJSON -> string -> result unit)
  (r schemaURI fragment : string) (rest : list string)
  (rootSchema : RootJsonSchema) (subSchema : JsonSchema)
  (jsonPath : string) (jsonData : rawJSON) (rootSchemaID : string) :
  strings_Split r "#" = schemaURI :: fragment :: rest ->
  schemaURI <> EmptyString -> fragment <> EmptyString ->
  pool !! schemaURI = Some rootSchema ->
  subSchemaMap rootSchema !! fragment = Some subSchema ->
  validateByRef pool rec r jsonPath jsonData rootSchemaID
  = rec subSchema jsonPath jsonData rootSchemaID.
Proof.
  intros Hsplit Huri Hfrag Hroot Hsub. unfold validateByRef.
  rewrite Hsplit. simpl.
  destruct (String.eqb_spec schemaURI EmptyString) as [|_]; [contradiction|].
  rewrite Hroot.
  destruct (String.eqb_spec fragment EmptyString) as [|_]; [contradiction|].
  simpl. now rewrite Hsub.
Qed.

(** ** C6: the boolean schemas *)

Lemma NewRootJsonSchema_no_keywords (lib : GoLib) (n : nat) (pool : rootSchemaPool)
  (b : json) (js : JsonSchema) :
  b <> JNull -> UnmarshalJSON b = Ok js ->
  scanSchema lib (S n) js EmptyString = (js, [mkCall js EmptyString], Ok tt) ->
  Id js = None ->
  exists pool', NewRootJsonSchema lib (S n) pool (RawJSON b)
                = (pool', Ok (mkRootJsonSchema js ∅)).
Proof.
  intros Hnull Hdec Hscan Hid. unfold NewRootJsonSchema.
  assert (Hgen :
    match UnmarshalJSON b with
    | Ok js =>
        let rootSchemaId :=
          match Id js with Some id => id | None => EmptyString end in
        let '(js', calls, r) := scanSchema lib (S n) js EmptyString in
        let rootSchema := mkRootJsonSchema js' ∅ in
        let registers := bool_decide (pool !! rootSchemaId = None) in
        let pool1 :=
          if registers then <[rootSchemaId := rootSchema]> pool else pool in
        let pool2 := foldl (apply_call rootSchemaId) pool1 calls in
        let rootSchema :=
          if registers then default rootSchema (pool2 !! rootSchemaId)
          else rootSchema in
        (pool2, _ ← r; Ok rootSchema)
    | Err err => (pool, Err err)
    | Panic msg => (pool, Panic msg)
    | NoFuel => (pool, NoFuel)
    end = (if bool_decide (pool !! EmptyString = None)
           then <[EmptyString := mkRootJsonSchema js ∅]> pool else pool,
           Ok (mkRootJsonSchema js ∅))).
  { rewrite Hdec. cbv zeta. rewrite Hscan, Hid. simpl.
    unfold apply_call, mapSubSchema. simpl.
    case_bool_decide; [|reflexivity].
    now rewrite lookup_insert_eq. }
  eexists. destruct b; try exact Hgen. contradiction.
Qed.

(** C6.  The schemas [{}] and [true] compile to a schema that accepts
    every JSON value, and [false] to one that rejects every JSON value,
    [null] included; this holds in every pool and with any fuel but none. *)
Theorem boolean_schemas_are_constant
  (lib : GoLib) (pool : rootSchemaPool) (n m : nat) (v : json) :
  (exists pool' rs,
     NewRootJsonSchema lib (S n) pool (RawJSON (JObject [])) = (pool', Ok rs)
     /\ validateBytes lib pool' (S m) rs (RawJSON v) = Ok tt)
  /\ (exists pool' rs,
        NewRootJsonSchema lib (S n) pool (RawJSON (JBool true)) = (pool', Ok rs)
        /\ validateBytes lib pool' (S m) rs (RawJSON v) = Ok tt)
  /\ (exists pool' rs reason,
        NewRootJsonSchema lib (S n) pool (RawJSON (JBool false)) = (pool', Ok rs)
        /\ validateBytes lib pool' (S m) rs (RawJSON v)
           = Err (SchemaValidationError EmptyString reason)).
Proof.
  repeat split.
  - destruct (NewRootJsonSchema_no_keywords lib n pool (JObject []) zeroJsonSchema)
      as [pool' H]; try reflexivity; [discriminate|].
    exists pool', (mkRootJsonSchema zeroJsonSchema ∅). split; [exact H|reflexivity].
  - destruct (NewRootJsonSchema_no_keywords lib n pool (JBool true) zeroJsonSchema)
      as [pool' H]; try reflexivity; [discriminate|].
    exists pool', (mkRootJsonSchema zeroJsonSchema ∅). split; [exact H|reflexivity].
  - destruct (NewRootJsonSchema_no_keywords lib n pool (JBool false) rejectAllJsonSchema)
      as [pool' H]; try reflexivity; [discriminate|].
    eexists pool', (mkRootJsonSchema rejectAllJsonSchema ∅), _.
    split; [exact H|reflexivity].
Qed.

(** ** C7: oneOf *)




(** ** C8: type gating *)

(** C8 (the code departs from the claim).  The claim has every
    type-specific keyword succeed on an instance of another type.
    [contains.validate] returns its error when the instance is not an
    array: [{"contains":{}}] rejects 42 (and so it does [true], [null], a
    string and an object), while [{"minLength":5}] accepts the five
    instances of the claim. *)
Theorem contains_rejects_non_arrays (lib : GoLib) (n m : nat) :
  (exists pool rs reason,
     NewRootJsonSchema lib (S (S n)) ∅ (RawJSON schema_contains) = (pool, Ok rs)
     /\ Forall (fun v => validateBytes lib pool (S m) rs (RawJSON v)
                         = Err (SchemaValidationError EmptyString reason))
          [JNumber 42; JBool true; JNull; JString "s"; JObject []])
  /\ (exists pool rs,
        NewRootJsonSchema lib (S n) ∅ (RawJSON schema_minLength) = (pool, Ok rs)
        /\ Forall (fun v => validateBytes lib pool (S m) rs (RawJSON v) = Ok tt)
             [JNumber 42; JBool true; JNull; JArray []; JObject []]).
Proof.
  split.
  - eexists _, _, _. split; [vm_compute; reflexivity|]. evaluate_each.
  - eexists _, _. split; [vm_compute; reflexivity|]. evaluate_each.
Qed.

Section TypeGating.
Variable lib : GoLib.
Variable rec : JsonSchema -> string -> rawJSON -> string -> result unit.
Variables (jsonPath rootSchemaId : string) (jsonData : jsonData).

Ltac gate H :=
  destruct (value jsonData) eqn:?; try reflexivity; exfalso; eapply H; reflexivity.

(** The string keywords succeed on an instance that is not a string. *)
Lemma string_keywords_gated (ml : Z) (p f : string) :
  not_string (value jsonData) ->
  minLength_validate ml jsonPath jsonData rootSchemaId = Ok tt
  /\ maxLength_validate ml jsonPath jsonData rootSchemaId = Ok tt
  /\ pattern_validate lib p jsonPath jsonData rootSchemaId = Ok tt
  /\ format_validate lib f jsonPath jsonData rootSchemaId = Ok tt.
Proof.
  intros H.
  unfold minLength_validate, maxLength_validate, pattern_validate, format_validate.
  repeat split; gate H.
Qed.

(** The numeric keywords succeed on an instance that is not a number. *)
Lemma numeric_keywords_gated (q : Q) :
  not_number (value jsonData) ->
  multipleOf_validate lib q jsonPath jsonData rootSchemaId = Ok tt
  /\ minimum_validate lib q jsonPath jsonData rootSchemaId = Ok tt
  /\ maximum_validate lib q jsonPath jsonData rootSchemaId = Ok tt
  /\ exclusiveMinimum_validate lib q jsonPath jsonData rootSchemaId = Ok tt
  /\ exclusiveMaximum_validate lib q jsonPath jsonData rootSchemaId = Ok tt.
Proof.
  intros H.
  unfold multipleOf_validate, minimum_validate, maximum_validate,
    exclusiveMinimum_validate, exclusiveMaximum_validate.
  repeat split; gate H.
Qed.

(** The object keywords succeed on an instance that is not an object. *)
Lemma object_keywords_gated
  (p : list (string * option JsonSchema)) (js : JsonSchema)
  (ap : additionalProperties) (r : list string) (pn : JsonSchema)
  (d : list (string * dependency)) (mp : Z) :
  not_object (value jsonData) ->
  properties_validate rec p jsonPath jsonData rootSchemaId = Ok tt
  /\ additionalProperties_validate lib rec js ap jsonPath jsonData rootSchemaId = Ok tt
  /\ required_validate r jsonPath jsonData rootSchemaId = Ok tt
  /\ propertyNames_validate lib rec pn jsonPath jsonData rootSchemaId = Ok tt
  /\ dependencies_validate rec d jsonPath jsonData rootSchemaId = Ok tt
  /\ patternProperties_validate lib rec p jsonPath jsonData rootSchemaId = Ok tt
  /\ minProperties_validate mp jsonPath jsonData rootSchemaId = Ok tt
  /\ maxProperties_validate mp jsonPath jsonData rootSchemaId = Ok tt.
Proof.
  intros H.
  unfold properties_validate, additionalProperties_validate, required_validate,
    propertyNames_validate, dependencies_validate, patternProperties_validate,
    minProperties_validate, maxProperties_validate.
  repeat split; gate H.
Qed.

(** The array keywords other than "contains" succeed on an instance that is
    not an array; "additionalItems" does so when its sibling pointer is set,
    and dereferences a nil pointer when it is not. *)
Lemma array_keywords_gated
  (i : json) (js : JsonSchema) (ai : additionalItems) (mi : Z) (ui : bool) :
  not_array (value jsonData) ->
  items_validate rec i jsonPath jsonData rootSchemaId = Ok tt
  /\ minItems_validate mi jsonPath jsonData rootSchemaId = Ok tt
  /\ maxItems_validate mi jsonPath jsonData rootSchemaId = Ok tt
  /\ uniqueItems_validate lib ui jsonPath jsonData rootSchemaId = Ok tt
  /\ (siblingItems ai = true -> Items js <> None ->
      additionalItems_validate rec js ai jsonPath jsonData rootSchemaId = Ok tt)
  /\ (siblingItems ai = false ->
      additionalItems_validate rec js ai jsonPath jsonData rootSchemaId
      = Panic "invalid memory address or nil pointer dereference").
Proof.
  intros H.
  unfold items_validate, minItems_validate, maxItems_validate,
    uniqueItems_validate, additionalItems_validate.
  repeat split; try (gate H).
  - intros -> Hitems. simpl. destruct (Items js) as [[]|]; try reflexivity;
      [gate H|contradiction].
  - intros ->. reflexivity.
Qed.

(** "contains" fails on every instance that is not an array. *)
Lemma contains_not_gated (c : JsonSchema) :
  not_array (value jsonData) ->
  contains_validate rec c jsonPath jsonData rootSchemaId
  = Err (KeywordValidationError "contains"
           "could validate any of the inspected array's items against the given schema").
Proof. intros H. unfold contains_validate. gate H. Qed.

End TypeGating.

(** ** The pool after [NewRootJsonSchema] *)

Ltac destruct_blocks :=
  repeat match goal with
         | |- context [match ?x with (_, _) => _ end] => destruct x
         end.

Lemma scanSchema_Id (lib : GoLib) (fuel : nat) (js : JsonSchema) (path : string) :
  Id (fst (fst (scanSchema lib fuel js path))) = Id js.
Proof.
  destruct fuel; [reflexivity|]. simpl. unfold scanSchema_body.
  destruct_blocks. reflexivity.
Qed.

Lemma mapSubSchema_anonymous (js : JsonSchema) (path : string) (pool : rootSchemaPool) :
  mapSubSchema js path EmptyString pool = pool.
Proof. unfold mapSubSchema. simpl. now rewrite andb_false_r. Qed.

Lemma foldl_apply_call_anonymous (calls : list mapSubSchemaCall) (pool : rootSchemaPool) :
  foldl (apply_call EmptyString) pool calls = pool.
Proof.
  revert pool. induction calls as [|c calls IH]; intros pool; simpl; [reflexivity|].
  unfold apply_call at 2. rewrite mapSubSchema_anonymous. apply IH.
Qed.

(** [mapSubSchema] touches the subschema index of the root under
    [rootSchemaID] and nothing else. *)
Lemma apply_call_root (id : string) (pool : rootSchemaPool) (c : mapSubSchemaCall)
  (k : string) :
  root_JsonSchema <$> (apply_call id pool c !! k) = root_JsonSchema <$> (pool !! k).
Proof.
  unfold apply_call, mapSubSchema.
  destruct (negb (String.eqb (call_schemaPath c) "") && negb (String.eqb id ""));
    [|reflexivity].
  destruct (pool !! id) as [rs|] eqn:Hrs; [|reflexivity].
  destruct (subSchemaMap rs !! call_schemaPath c); [reflexivity|].
  destruct (decide (id = k)) as [<-|Hne].
  - rewrite lookup_insert_eq, Hrs. reflexivity.
  - now rewrite lookup_insert_ne.
Qed.

Lemma foldl_apply_call_root (id : string) (calls : list mapSubSchemaCall)
  (pool : rootSchemaPool) (k : string) :
  root_JsonSchema <$> (foldl (apply_call id) pool calls !! k)
  = root_JsonSchema <$> (pool !! k).
Proof.
  revert pool. induction calls as [|c calls IH]; intros pool; simpl; [reflexivity|].
  rewrite IH. apply apply_call_root.
Qed.

Lemma apply_call_indexed (id : string) (pool : rootSchemaPool) (c : mapSubSchemaCall)
  (p : string) :
  indexed pool id p -> indexed (apply_call id pool c) id p.
Proof.
  intros (rs & Hrs & Hp). unfold apply_call, mapSubSchema.
  destruct (negb (String.eqb (call_schemaPath c) "") && negb (String.eqb id ""));
    [|now exists rs].
  rewrite Hrs.
  destruct (subSchemaMap rs !! call_schemaPath c) eqn:Hc; [now exists rs|].
  eexists. rewrite lookup_insert_eq. split; [reflexivity|]. simpl.
  destruct (decide (call_schemaPath c = p)) as [<-|Hne].
  - rewrite lookup_insert_eq. eauto.
  - now rewrite lookup_insert_ne.
Qed.

Lemma apply_call_indexes (id : string) (pool : rootSchemaPool) (c : mapSubSchemaCall) :
  id <> EmptyString -> call_schemaPath c <> EmptyString -> is_Some (pool !! id) ->
  indexed (apply_call id pool c) id (call_schemaPath c).
Proof.
  intros Hid Hp [rs Hrs]. unfold apply_call, mapSubSchema.
  destruct (String.eqb_spec (call_schemaPath c) "") as [|_]; [contradiction|].
  destruct (String.eqb_spec id "") as [|_]; [contradiction|].
  simpl. rewrite Hrs.
  destruct (subSchemaMap rs !! call_schemaPath c) eqn:Hc.
  - exists rs. rewrite Hc. eauto.
  - eexists. rewrite lookup_insert_eq. split; [reflexivity|]. simpl.
    rewrite lookup_insert_eq. eauto.
Qed.

Lemma apply_call_is_Some (id : string) (pool : rootSchemaPool) (c : mapSubSchemaCall) :
  is_Some (pool !! id) -> is_Some (apply_call id pool c !! id).
Proof.
  intros H. apply fmap_is_Some with (f := root_JsonSchema).
  rewrite apply_call_root. now apply fmap_is_Some.
Qed.

Lemma foldl_apply_call_indexed (id : string) (calls : list mapSubSchemaCall)
  (pool : rootSchemaPool) (p : string) :
  indexed pool id p -> indexed (foldl (apply_call id) pool calls) id p.
Proof.
  revert pool. induction calls as [|c calls IH]; intros pool H; simpl; [exact H|].
  apply IH. now apply apply_call_indexed.
Qed.

(** Every recorded call with a path leaves an entry under its path. *)
Lemma foldl_apply_call_indexes (id : string) (calls : list mapSubSchemaCall)
  (pool : rootSchemaPool) (p : string) :
  id <> EmptyString -> p <> EmptyString -> is_Some (pool !! id) ->
  In p (paths calls) ->
  indexed (foldl (apply_call id) pool calls) id p.
Proof.
  intros Hid Hp. revert pool.
  induction calls as [|c calls IH]; intros pool Hpool Hin; [destruct Hin|].
  simpl in Hin |- *. destruct Hin as [<-|Hin].
  - apply foldl_apply_call_indexed. now apply apply_call_indexes.
  - apply IH; [|exact Hin]. now apply apply_call_is_Some.
Qed.

(** What a successful call of [NewRootJsonSchema] did. *)
Lemma NewRootJsonSchema_Ok (lib : GoLib) (fuel : nat) (pool : rootSchemaPool)
  (bytes : rawJSON) (pool' : rootSchemaPool) (rs : RootJsonSchema) :
  NewRootJsonSchema lib fuel pool bytes = (pool', Ok rs) ->
  exists v js js' calls,
    bytes = RawJSON v /\ UnmarshalJSON v = Ok js
    /\ scanSchema lib fuel js EmptyString = (js', calls, Ok tt)
    /\ pool' = foldl (apply_call (rootSchemaId_of js))
                 (if bool_decide (pool !! rootSchemaId_of js = None)
                  then <[rootSchemaId_of js := mkRootJsonSchema js' ∅]> pool
                  else pool) calls
    /\ rs = (if bool_decide (pool !! rootSchemaId_of js = None)
             then default (mkRootJsonSchema js' ∅) (pool' !! rootSchemaId_of js)
             else mkRootJsonSchema js' ∅).
Proof.
  unfold NewRootJsonSchema. intros H.
  destruct bytes as [v|err]; [|discriminate].
  destruct (UnmarshalJSON v) as [js| | |] eqn:Hdec.
  2-4: destruct v; discriminate.
  assert (Hgen :
    (let rootSchemaId := match Id js with Some id => id | None => EmptyString end in
     let '(js', calls, r) := scanSchema lib fuel js EmptyString in
     let rootSchema := mkRootJsonSchema js' ∅ in
     let registers := bool_decide (pool !! rootSchemaId = None) in
     let pool1 := if registers then <[rootSchemaId := rootSchema]> pool else pool in
     let pool2 := foldl (apply_call rootSchemaId) pool1 calls in
     let rootSchema0 :=
       if registers then default rootSchema (pool2 !! rootSchemaId) else rootSchema in
     (pool2, _ ← r; Ok rootSchema0)) = (pool', Ok rs)).
  { destruct v; try exact H. discriminate. }
  clear H. cbv zeta in Hgen.
  destruct (scanSchema lib fuel js EmptyString) as [[js' calls] r] eqn:Hscan.
  destruct r as [[]| | |]; simpl in Hgen; try discriminate.
  injection Hgen as Hp Hr.
  exists v, js, js', calls. unfold rootSchemaId_of.
  repeat split; try assumption; try reflexivity.
  - symmetry. exact Hp.
  - rewrite <- Hr. rewrite Hp. reflexivity.
Qed.

(** The root that is returned holds the scanned schema, with the "$id" of
    the decoded one. *)
Lemma NewRootJsonSchema_root (lib : GoLib) (fuel : nat) (pool : rootSchemaPool)
  (v : json) (js : JsonSchema) (pool' : rootSchemaPool) (rs : RootJsonSchema) :
  NewRootJsonSchema lib fuel pool (RawJSON v) = (pool', Ok rs) ->
  UnmarshalJSON v = Ok js ->
  Id (root_JsonSchema rs) = Id js.
Proof.
  intros H Hdec.
  destruct (NewRootJsonSchema_Ok _ _ _ _ _ _ H)
    as (v0 & js0 & js' & calls & [= <-] & Hdec0 & Hscan & Hpool & Hrs).
  rewrite Hdec in Hdec0. injection Hdec0 as <-.
  assert (Hid : Id js' = Id js).
  { rewrite <- (scanSchema_Id lib fuel js EmptyString). now rewrite Hscan. }
  rewrite <- Hid. subst rs. case_bool_decide as Hreg; [|reflexivity].
  pose proof (foldl_apply_call_root (rootSchemaId_of js) calls
                (<[rootSchemaId_of js := mkRootJsonSchema js' ∅]> pool)
                (rootSchemaId_of js)) as Hroot.
  rewrite <- Hpool, lookup_insert_eq in Hroot.
  destruct (pool' !! rootSchemaId_of js) as [x|]; simpl in Hroot |- *.
  - now injection Hroot as ->.
  - reflexivity.
Qed.

(** A root without "$id": the pool takes it under the empty id when the
    empty id is free and stays as it is otherwise, and the index of the
    root is empty. *)
Lemma NewRootJsonSchema_anonymous (lib : GoLib) (fuel : nat) (pool : rootSchemaPool)
  (bytes : rawJSON) (pool' : rootSchemaPool) (rs : RootJsonSchema) :
  NewRootJsonSchema lib fuel pool bytes = (pool', Ok rs) ->
  Id (root_JsonSchema rs) = None ->
  pool' = (if bool_decide (pool !! EmptyString = None)
           then <[EmptyString := rs]> pool else pool)
  /\ subSchemaMap rs = ∅.
Proof.
  intros H Hid.
  destruct (NewRootJsonSchema_Ok _ _ _ _ _ _ H)
    as (v & js & js' & calls & -> & Hdec & Hscan & Hpool & Hrs).
  rewrite (NewRootJsonSchema_root _ _ _ _ _ _ _ H Hdec) in Hid.
  unfold rootSchemaId_of in Hpool, Hrs. rewrite Hid in Hpool, Hrs.
  rewrite foldl_apply_call_anonymous in Hpool.
  case_bool_decide as Hreg.
  - rewrite Hpool, lookup_insert_eq in Hrs. simpl in Hrs. subst rs.
    split; [exact Hpool|reflexivity].
  - subst rs. split; [exact Hpool|reflexivity].
Qed.

(** ** C5: two roots without "$id" *)

(** C5, as amended.  When two roots that carry no "$id" are compiled one
    after the other, the entry of the pool under the empty id is afterwards
    what it was after the first compilation: [NewRootJsonSchema] registers a
    root only when its id is free, so the second root does not replace the
    first, and when the empty id was free at the start the entry is the root
    compiled first. *)
Theorem anonymous_root_first_write_wins
  (lib : GoLib) (fuel1 fuel2 : nat) (pool pool1 pool2 : rootSchemaPool)
  (bytes1 bytes2 : rawJSON) (rs1 rs2 : RootJsonSchema) :
  NewRootJsonSchema lib fuel1 pool bytes1 = (pool1, Ok rs1) ->
  Id (root_JsonSchema rs1) = None ->
  NewRootJsonSchema lib fuel2 pool1 bytes2 = (pool2, Ok rs2) ->
  Id (root_JsonSchema rs2) = None ->
  pool2 = pool1
  /\ is_Some (pool2 !! EmptyString)
  /\ (pool !! EmptyString = None -> pool2 !! EmptyString = Some rs1).
Proof.
  intros H1 Hid1 H2 Hid2.
  destruct (NewRootJsonSchema_anonymous _ _ _ _ _ _ H1 Hid1) as [Hp1 _].
  assert (Hsome : is_Some (pool1 !! EmptyString)).
  { rewrite Hp1. case_bool_decide as Hreg.
    - rewrite lookup_insert_eq. eauto.
    - destruct (pool !! EmptyString); [eauto|contradiction]. }
  destruct (NewRootJsonSchema_anonymous _ _ _ _ _ _ H2 Hid2) as [Hp2 _].
  assert (Heq : pool2 = pool1).
  { rewrite Hp2. case_bool_decide as Hreg; [|reflexivity].
    rewrite Hreg in Hsome. now destruct Hsome. }
  rewrite Heq. split; [reflexivity|]. split; [exact Hsome|].
  intros Hfree. rewrite Hp1. rewrite bool_decide_eq_true_2 by exact Hfree.
  apply lookup_insert_eq.
Qed.

Lemma anonymous_root_first_write_wins_witness :
  exists pool1 rs1 pool2 rs2,
    NewRootJsonSchema example_lib 1 ∅ (RawJSON schema_anonymous_1) = (pool1, Ok rs1)
    /\ Id (root_JsonSchema rs1) = None
    /\ NewRootJsonSchema example_lib 1 pool1 (RawJSON schema_anonymous_2)
       = (pool2, Ok rs2)
    /\ Id (root_JsonSchema rs2) = None
    /\ (pool2 = pool1
        /\ is_Some (pool2 !! EmptyString)
        /\ ((∅ : rootSchemaPool) !! EmptyString = None ->
            pool2 !! EmptyString = Some rs1)).
Proof.
  eexists _, _, _, _.
  split; [vm_compute; reflexivity|].
  split; [reflexivity|].
  split; [vm_compute; reflexivity|].
  split; [reflexivity|].
  eapply (anonymous_root_first_write_wins example_lib 1 1 ∅ _ _
            (RawJSON schema_anonymous_1) (RawJSON schema_anonymous_2)).
  - vm_compute; reflexivity.
  - reflexivity.
  - vm_compute; reflexivity.
  - reflexivity.
Defined.

(** C5, as the claim states it, fails: after the roots
    [{"type":"string"}] and [{"type":"number"}] are compiled from an empty
    pool, the entry under the empty id is the first root and not the
    second. *)
Lemma anonymous_root_last_write_does_not_win :
  exists pool1 rs1 pool2 rs2,
    NewRootJsonSchema example_lib 1 ∅ (RawJSON schema_anonymous_1) = (pool1, Ok rs1)
    /\ NewRootJsonSchema example_lib 1 pool1 (RawJSON schema_anonymous_2)
       = (pool2, Ok rs2)
    /\ pool2 !! EmptyString = Some rs1
    /\ Type_ (root_JsonSchema rs1) = Some (JString "string")
    /\ Type_ (root_JsonSchema rs2) = Some (JString "number")
    /\ pool2 !! EmptyString <> Some rs2.
Proof.
  eexists _, _, _, _. split; [vm_compute; reflexivity|].
  split; [vm_compute; reflexivity|].
  split; [vm_compute; reflexivity|].
  split; [reflexivity|]. split; [reflexivity|].
  vm_compute. discriminate.
Qed.

(** ** The calls of [mapSubSchema] that a scan records *)

Lemma paths_app a b : paths (a ++ b) = (paths a ++ paths b)%list.
Proof. apply map_app. Qed.

Lemma below_app d subs1 subs2 path :
  below d (subs1 ++ subs2) path = (below d subs1 path ++ below d subs2 path)%list.
Proof. unfold below. apply flat_map_app. Qed.

Lemma covers_all_nil lib f path : covers_all lib f [] path [].
Proof. intros d _. constructor. Qed.

Lemma covers_all_blocks lib f g gs path c cs :
  covers_all lib f g path c -> covers_all lib f gs path cs ->
  covers_all lib f (g ++ gs) path (c ++ cs).
Proof.
  intros H1 H2 d Hd. rewrite below_app. apply Forall2_app; auto.
Qed.

Lemma covers_all_cons lib f sfx c subs path calls1 calls2 :
  covers lib f c (path +:+ sfx) calls1 -> covers_all lib f subs path calls2 ->
  covers_all lib f ((sfx, c) :: subs) path (calls1 ++ calls2).
Proof.
  intros H1 H2 d Hd.
  change (below d ((sfx, c) :: subs) path)
    with (((path +:+ sfx, c) :: walk d c (path +:+ sfx)) ++ below d subs path)%list.
  apply Forall2_app; auto.
Qed.

Lemma covers_all_single lib f sfx c path calls :
  covers lib f c (path +:+ sfx) calls -> covers_all lib f [(sfx, c)] path calls.
Proof.
  intros H. rewrite <- (List.app_nil_r calls).
  apply covers_all_cons; [exact H|apply covers_all_nil].
Qed.

Lemma decodes_below_sub js suffix c :
  decodes_below js -> In (suffix, c) (subschemas js) -> decodes_below c.
Proof.
  intros H Hin d. specialize (H (S d)). simpl in H.
  apply andb_prop in H as [_ H].
  rewrite forallb_forall in H. apply (H (suffix, c) Hin).
Qed.

Lemma decodes_below_decodes js : decodes_below js -> decodes js = true.
Proof. intros H. specialize (H O). simpl in H. now apply andb_prop in H as [H _]. Qed.

(** [connectRelatedKeywords] changes the sibling flags only. *)
Lemma connect_fields js :
  let js1 := connectRelatedKeywords js in
  Properties js1 = Properties js
  /\ additionalProperties_JsonSchema <$> AdditionalProperties js1
     = additionalProperties_JsonSchema <$> AdditionalProperties js
  /\ PropertyNames js1 = PropertyNames js
  /\ Dependencies js1 = Dependencies js
  /\ PatternProperties js1 = PatternProperties js
  /\ Definitions js1 = Definitions js
  /\ Items js1 = Items js
  /\ additionalItems_JsonSchema <$> AdditionalItems js1
     = additionalItems_JsonSchema <$> AdditionalItems js
  /\ Contains js1 = Contains js
  /\ AnyOf js1 = AnyOf js
  /\ AllOf js1 = AllOf js
  /\ OneOf js1 = OneOf js
  /\ Not js1 = Not js
  /\ if_JsonSchema <$> If js1 = if_JsonSchema <$> If js
  /\ not_nil (If js1) = not_nil (If js)
  /\ Then js1 = Then js
  /\ Else js1 = Else js.
Proof.
  unfold connectRelatedKeywords; simpl.
  destruct (AdditionalProperties js), (AdditionalItems js), (If js);
    simpl; repeat split; reflexivity.
Qed.

Lemma in_pointers (m : list (string * option JsonSchema)) k p :
  forallb (fun kp : string * option JsonSchema => not_nil (snd kp)) m = true ->
  In (k, p) m -> exists c, p = Some c.
Proof.
  intros H Hin. rewrite forallb_forall in H. specialize (H _ Hin). simpl in H.
  destruct p as [c|]; [now exists c|discriminate].
Qed.

Lemma in_elements (l : list (option JsonSchema)) p :
  forallb not_nil l = true -> In p l -> exists c, p = Some c.
Proof.
  intros H Hin. rewrite forallb_forall in H. specialize (H _ Hin).
  destruct p as [c|]; [now exists c|discriminate].
Qed.

Lemma in_subschemas_of_map pre m k c :
  In (k, Some c) m -> In (pre +:+ k, c) (subschemas_of_map pre (Some m)).
Proof.
  intros Hin. unfold subschemas_of_map. apply in_flat_map.
  exists (k, Some c). split; [exact Hin|]. now left.
Qed.

Lemma in_combine_indices {A} (l : list A) x :
  In x l -> exists i, In (i, x) (combine (indices l) l).
Proof.
  unfold indices. generalize 0%nat as n.
  induction l as [|y l IH]; intros n Hin; [destruct Hin|].
  destruct Hin as [->|Hin].
  - exists (Z.of_nat n). now left.
  - destruct (IH (S n) Hin) as [i Hi]. exists i. now right.
Qed.

Lemma in_subschemas_of_slice pre l c :
  In (Some c) l -> exists sfx, In (sfx, c) (subschemas_of_slice pre (Some l)).
Proof.
  intros Hin. destruct (in_combine_indices _ _ Hin) as [i Hi].
  exists (pre +:+ strconv_Itoa i). unfold subschemas_of_slice. apply in_flat_map.
  exists (i, Some c). split; [exact Hi|]. now left.
Qed.

Section Blocks.
Variable lib : GoLib.
Variable f : nat.
Variable scan : JsonSchema -> string -> scanResult.
Hypothesis scan_good : good lib f scan.

Lemma scanSchema_ptr_good c p c' calls ret :
  scanSchema_ptr scan (Some c) p = (c', calls, ret) ->
  decodes_below c ->
  block_ok ret /\ (ret = None -> covers lib f c p calls).
Proof.
  unfold scanSchema_ptr. intros H Hdec.
  destruct (scan c p) as [[js' calls0] r] eqn:Hscan.
  injection H as _ <- <-.
  destruct (scan_good _ _ _ _ _ Hscan Hdec) as [Hr Hcov].
  destruct Hr as [-> | ->]; simpl.
  - split; [now left|]. intros _. now apply Hcov.
  - split; [now right|]. discriminate.
Qed.

Lemma scan_map_covers path pre m : forall m' calls ret,
  scan_map scan (path +:+ pre) m = (m', calls, ret) ->
  (forall k p, In (k, p) m -> exists c, p = Some c /\ decodes_below c) ->
  block_ok ret
  /\ (ret = None -> covers_all lib f (subschemas_of_map pre (Some m)) path calls).
Proof.
  induction m as [|[key child] m IH]; intros m' calls ret H Hm.
  - injection H as _ <- <-. split; [now left|]. intros _. apply covers_all_nil.
  - simpl in H.
    destruct (Hm key child (or_introl eq_refl)) as [c [-> Hdec]].
    destruct (scanSchema_ptr scan (Some c) ((path +:+ pre) +:+ key))
      as [[child' calls1] ret1] eqn:H1.
    destruct (scanSchema_ptr_good _ _ _ _ _ H1 Hdec) as [Hok1 Hcov1].
    destruct ret1 as [r1|].
    + injection H as _ <- <-. split; [exact Hok1|]. discriminate.
    + destruct (scan_map scan (path +:+ pre) m) as [[m'' calls2] ret2] eqn:H2.
      injection H as _ <- <-.
      destruct (IH _ _ _ eq_refl) as [Hok2 Hcov2].
      { intros k p Hin. apply (Hm k p). now right. }
      split; [exact Hok2|]. intros Hret.
      change (subschemas_of_map pre (Some ((key, Some c) :: m)))
        with ((pre +:+ key, c) :: subschemas_of_map pre (Some m)).
      apply covers_all_cons; [|now apply Hcov2].
      rewrite <- string_app_assoc. now apply Hcov1.
Qed.

Lemma scan_slice_from path pre l : forall n l' calls ret,
  scan_slice scan (path +:+ pre) (Z.of_nat n) l = (l', calls, ret) ->
  (forall p, In p l -> exists c, p = Some c /\ decodes_below c) ->
  block_ok ret
  /\ (ret = None ->
      covers_all lib f
        (flat_map (fun ip : Z * option JsonSchema =>
                     match snd ip with
                     | Some c => [(pre +:+ strconv_Itoa (fst ip), c)]
                     | None => []
                     end) (combine (map Z.of_nat (seq n (length l))) l))
        path calls).
Proof.
  induction l as [|child l IH]; intros n l' calls ret H Hl.
  - injection H as _ <- <-. split; [now left|]. intros _. apply covers_all_nil.
  - simpl in H.
    destruct (Hl child (or_introl eq_refl)) as [c [-> Hdec]].
    destruct (scanSchema_ptr scan (Some c)
                ((path +:+ pre) +:+ strconv_Itoa (Z.of_nat n)))
      as [[child' calls1] ret1] eqn:H1.
    destruct (scanSchema_ptr_good _ _ _ _ _ H1 Hdec) as [Hok1 Hcov1].
    destruct ret1 as [r1|].
    + injection H as _ <- <-. split; [exact Hok1|]. discriminate.
    + replace (Z.of_nat n + 1)%Z with (Z.of_nat (S n)) in H by lia.
      destruct (scan_slice scan (path +:+ pre) (Z.of_nat (S n)) l)
        as [[l'' calls2] ret2] eqn:H2.
      injection H as _ <- <-.
      destruct (IH _ _ _ _ H2) as [Hok2 Hcov2].
      { intros p Hin. apply Hl. now right. }
      split; [exact Hok2|]. intros Hret.
      apply (covers_all_cons lib f (pre +:+ strconv_Itoa (Z.of_nat n)) c);
        [|now apply Hcov2].
      rewrite <- string_app_assoc. now apply Hcov1.
Qed.

Lemma scan_slice_covers path pre l l' calls ret :
  scan_slice scan (path +:+ pre) 0 l = (l', calls, ret) ->
  (forall p, In p l -> exists c, p = Some c /\ decodes_below c) ->
  block_ok ret
  /\ (ret = None -> covers_all lib f (subschemas_of_slice pre (Some l)) path calls).
Proof. intros H Hl. exact (scan_slice_from path pre l 0 _ _ _ H Hl). Qed.

Lemma scan_embedded_covers path suffix field a calls ret :
  scan_embedded scan (path +:+ suffix) field = (a, calls, ret) ->
  (forall c, field = Some c -> decodes_below c) ->
  block_ok ret
  /\ (ret = None -> covers_all lib f (subschemas_of_embedded suffix field) path calls).
Proof.
  unfold scan_embedded. intros H Hdec.
  destruct field as [c|].
  - destruct (scanSchema_ptr_good _ _ _ _ _ H (Hdec c eq_refl)) as [Hok Hcov].
    split; [exact Hok|]. intros Hret. apply covers_all_single. now apply Hcov.
  - injection H as _ <- <-. split; [now left|]. intros _. apply covers_all_nil.
Qed.

Lemma scan_dependencies_covers path d : forall d' calls ret,
  scan_dependencies scan path d = (d', calls, ret) ->
  (forall k v, In (k, DepValue (JObject v)) d ->
               exists c, UnmarshalJSON (JObject v) = Ok c /\ decodes_below c) ->
  block_ok ret
  /\ (ret = None -> covers_all lib f (subschemas_of_dependencies (Some d)) path calls).
Proof.
  induction d as [|[key value] d IH]; intros d' calls ret H Hd.
  - injection H as _ <- <-. split; [now left|]. intros _. apply covers_all_nil.
  - assert (Hrest : forall k v, In (k, DepValue (JObject v)) d ->
               exists c, UnmarshalJSON (JObject v) = Ok c /\ decodes_below c).
    { intros k v Hin. apply (Hd k v). now right. }
    assert (Hskip : forall d'' calls' ret',
              scan_dependencies scan path d = (d'', calls', ret') ->
              subschemas_of_dependencies (Some ((key, value) :: d))
              = subschemas_of_dependencies (Some d) ->
              block_ok ret'
              /\ (ret' = None ->
                  covers_all lib f
                    (subschemas_of_dependencies (Some ((key, value) :: d)))
                    path calls')).
    { intros d'' calls' ret' H2 Heq. rewrite Heq. exact (IH _ _ _ H2 Hrest). }
    simpl in H.
    destruct value as [v|s].
    2:{ destruct (scan_dependencies scan path d) as [[d'' calls'] ret'] eqn:H2.
        injection H as _ <- <-. now apply (Hskip _ _ _ eq_refl). }
    destruct v as [| | | | |m].
    1-5: destruct (scan_dependencies scan path d) as [[d'' calls'] ret'] eqn:H2;
         injection H as _ <- <-; now apply (Hskip _ _ _ eq_refl).
    destruct (Hd key m (or_introl eq_refl)) as [c [Hc Hdec]].
    rewrite Hc in H.
    destruct (scan c (path +:+ "/dependencies" +:+ key)) as [[c' calls1] r] eqn:H1.
    destruct (scan_good _ _ _ _ _ H1 Hdec) as [Hr Hcov1].
    destruct Hr as [-> | ->].
    + destruct (scan_dependencies scan path d) as [[d'' calls2] ret2] eqn:H2.
      injection H as _ <- <-.
      destruct (IH _ _ _ eq_refl Hrest) as [Hok2 Hcov2].
      split; [exact Hok2|]. intros Hret.
      assert (Heq : subschemas_of_dependencies (Some ((key, DepValue (JObject m)) :: d))
                    = ("/dependencies" +:+ key, c)
                        :: subschemas_of_dependencies (Some d)).
      { unfold subschemas_of_dependencies. simpl. now rewrite Hc. }
      assert (G : covers_all lib f
                    (("/dependencies" +:+ key, c)
                       :: subschemas_of_dependencies (Some d))
                    path (calls1 ++ calls2)).
      { apply covers_all_cons; [now apply Hcov1|now apply Hcov2]. }
      rewrite <- Heq in G. exact G.
    + injection H as _ <- <-. split; [now right|]. discriminate.
Qed.

Lemma scan_items_array_covers path v : forall n done calls ret,
  scan_items_array scan path (Z.of_nat n) v = (done, calls, ret) ->
  (forall x, In x v -> exists c, UnmarshalJSON x = Ok c /\ decodes_below c) ->
  block_ok ret
  /\ (ret = None ->
      covers_all lib f
        (flat_map (fun ix : Z * json =>
                     match UnmarshalJSON (snd ix) with
                     | Ok c => [("/items" +:+ strconv_Itoa (fst ix), c)]
                     | _ => []
                     end) (combine (map Z.of_nat (seq n (length v))) v))
        path calls).
Proof.
  induction v as [|x v IH]; intros n done calls ret H Hv.
  - injection H as _ <- <-. split; [now left|]. intros _. apply covers_all_nil.
  - simpl in H.
    destruct (Hv x (or_introl eq_refl)) as [c [Hc Hdec]].
    rewrite Hc in H.
    destruct (scan c (path +:+ "/items" +:+ strconv_Itoa (Z.of_nat n)))
      as [[c' calls1] r] eqn:H1.
    destruct (scan_good _ _ _ _ _ H1 Hdec) as [Hr Hcov1].
    destruct Hr as [-> | ->].
    + replace (Z.of_nat n + 1)%Z with (Z.of_nat (S n)) in H by lia.
      destruct (scan_items_array scan path (Z.of_nat (S n)) v)
        as [[done2 calls2] ret2] eqn:H2.
      injection H as _ <- <-.
      destruct (IH _ _ _ _ H2) as [Hok2 Hcov2].
      { intros y Hy. apply Hv. now right. }
      split; [exact Hok2|]. intros Hret.
      simpl. rewrite Hc. simpl.
      apply covers_all_cons; [now apply Hcov1|now apply Hcov2].
    + injection H as _ <- <-. split; [now right|]. discriminate.
Qed.

Lemma scan_items_covers path items items' calls ret :
  scan_items lib scan path items = (items', calls, ret) ->
  items_decode items ->
  block_ok ret
  /\ (ret = None -> covers_all lib f (subschemas_of_items (Some items)) path calls).
Proof.
  intros H Hi.
  assert (Hsingle : forall items' calls ret,
    (exists c, UnmarshalJSON items = Ok c /\ decodes_below c) ->
    match UnmarshalJSON items with
    | Ok subSchema =>
        let '(subSchema', calls, r) := scan subSchema (path +:+ "/items") in
        match r with
        | Ok _ => (MarshalJsonSchema lib subSchema', calls, None)
        | _ => (items, calls, Some r)
        end
    | Err err =>
        (items, [],
         Some (Err (SchemaCompilationError (path +:+ "/items") (Error err))))
    | Panic msg => (items, [], Some (Panic msg))
    | NoFuel => (items, [], Some NoFuel)
    end = (items', calls, ret) ->
    block_ok ret
    /\ (ret = None ->
        covers_all lib f match UnmarshalJSON items with
                         | Ok c => [("/items", c)]
                         | _ => []
                         end path calls)).
  { clear H items' calls ret. intros items' calls ret [c [Hc Hdec]] H.
    rewrite Hc in H |- *.
    destruct (scan c (path +:+ "/items")) as [[c' calls1] r] eqn:H1.
    destruct (scan_good _ _ _ _ _ H1 Hdec) as [Hr Hcov1].
    destruct Hr as [-> | ->]; injection H as _ <- <-.
    - split; [now left|]. intros _. apply covers_all_single. now apply Hcov1.
    - split; [now right|]. discriminate. }
  destruct items as [|b|q|str|v|m]; simpl in H.
  1,3,4: injection H as _ <- <-; split; [now left|]; intros _; apply covers_all_nil.
  - exact (Hsingle _ _ _ Hi H).
  - destruct (scan_items_array scan path 0 v) as [[done calls1] ret1] eqn:H1.
    destruct (scan_items_array_covers _ v 0 _ _ _ H1 Hi) as [Hok Hcov].
    destruct ret1 as [r1|]; injection H as _ <- <-.
    + split; [exact Hok|]. discriminate.
    + split; [now left|]. intros _. now apply Hcov.
  - exact (Hsingle _ _ _ Hi H).
Qed.

Lemma scan_field_covers {A} (run : A -> block A) (subs : option A -> list (string * JsonSchema))
  path field a calls ret :
  scan_field run field = (a, calls, ret) ->
  subs None = [] ->
  (forall x x' calls ret, field = Some x -> run x = (x', calls, ret) ->
     block_ok ret /\ (ret = None -> covers_all lib f (subs (Some x)) path calls)) ->
  block_ok ret /\ (ret = None -> covers_all lib f (subs field) path calls).
Proof.
  unfold scan_field. intros H Hnone Hrun.
  destruct field as [x|].
  - destruct (run x) as [[x' calls1] ret1] eqn:H1.
    injection H as _ <- <-. now apply (Hrun x x').
  - injection H as _ <- <-. split; [now left|]. intros _. rewrite Hnone.
    apply covers_all_nil.
Qed.

Lemma step_covers {A} (prev : option (result unit)) (orig : A) (run : A -> block A)
  a calls ret (P : list mapSubSchemaCall -> Prop) :
  step prev orig run = (a, calls, ret) ->
  block_ok prev ->
  (forall a calls ret, run orig = (a, calls, ret) ->
     block_ok ret /\ (ret = None -> P calls)) ->
  block_ok ret /\ (ret = None -> prev = None /\ P calls).
Proof.
  unfold step. intros H Hprev Hrun.
  destruct prev as [r|].
  - injection H as _ <- <-. split; [exact Hprev|]. discriminate.
  - destruct (Hrun _ _ _ H) as [Hok HP]. split; [exact Hok|]. auto.
Qed.

Lemma block_map prev pre field path a calls ret :
  step prev field (scan_field (scan_map scan (path +:+ pre))) = (a, calls, ret) ->
  block_ok prev ->
  forallb (fun kp : string * option JsonSchema => not_nil (snd kp))
    (default [] field) = true ->
  (forall sfx c, In (sfx, c) (subschemas_of_map pre field) -> decodes_below c) ->
  block_ok ret
  /\ (ret = None ->
      prev = None /\ covers_all lib f (subschemas_of_map pre field) path calls).
Proof.
  intros H Hprev Hptr Hdec.
  apply (step_covers _ _ _ _ _ _ _ H Hprev).
  intros a' calls' ret' Hrun.
  apply (scan_field_covers (scan_map scan (path +:+ pre))
           (subschemas_of_map pre) path _ _ _ _ Hrun eq_refl).
  intros m m' calls'' ret'' -> Hrun'.
  apply (scan_map_covers _ _ _ _ _ _ Hrun').
  intros k p Hin. simpl in Hptr.
  destruct (in_pointers _ _ _ Hptr Hin) as [c ->]. exists c. split; [reflexivity|].
  apply (Hdec (pre +:+ k)). now apply in_subschemas_of_map.
Qed.

Lemma block_slice prev pre field path a calls ret :
  step prev field (scan_field (scan_slice scan (path +:+ pre) 0)) = (a, calls, ret) ->
  block_ok prev ->
  forallb not_nil (default [] field) = true ->
  (forall sfx c, In (sfx, c) (subschemas_of_slice pre field) -> decodes_below c) ->
  block_ok ret
  /\ (ret = None ->
      prev = None /\ covers_all lib f (subschemas_of_slice pre field) path calls).
Proof.
  intros H Hprev Hptr Hdec.
  apply (step_covers _ _ _ _ _ _ _ H Hprev).
  intros a' calls' ret' Hrun.
  apply (scan_field_covers (scan_slice scan (path +:+ pre) 0)
           (subschemas_of_slice pre) path _ _ _ _ Hrun eq_refl).
  intros l l' calls'' ret'' -> Hrun'.
  apply (scan_slice_covers _ _ _ _ _ _ Hrun').
  intros p Hin. simpl in Hptr.
  destruct (in_elements _ _ Hptr Hin) as [c ->]. exists c. split; [reflexivity|].
  destruct (in_subschemas_of_slice pre _ _ Hin) as [sfx Hsfx].
  now apply (Hdec sfx).
Qed.

Lemma block_embedded prev sfx field path a calls ret :
  step prev field (scan_embedded scan (path +:+ sfx)) = (a, calls, ret) ->
  block_ok prev ->
  (forall s c, In (s, c) (subschemas_of_embedded sfx field) -> decodes_below c) ->
  block_ok ret
  /\ (ret = None ->
      prev = None /\ covers_all lib f (subschemas_of_embedded sfx field) path calls).
Proof.
  intros H Hprev Hdec.
  apply (step_covers _ _ _ _ _ _ _ H Hprev).
  intros a' calls' ret' Hrun.
  apply (scan_embedded_covers _ _ _ _ _ _ Hrun).
  intros c ->. apply (Hdec sfx). now left.
Qed.

Lemma block_conditional (cond : bool) prev sfx field path a calls ret :
  step prev field
    (fun t => if cond then scan_embedded scan (path +:+ sfx) t else (t, [], None))
  = (a, calls, ret) ->
  block_ok prev ->
  (forall s c, cond = true -> In (s, c) (subschemas_of_embedded sfx field) ->
               decodes_below c) ->
  block_ok ret
  /\ (ret = None ->
      prev = None
      /\ covers_all lib f (if cond then subschemas_of_embedded sfx field else [])
           path calls).
Proof.
  intros H Hprev Hdec. destruct cond.
  - apply (block_embedded _ _ _ _ _ _ _ H Hprev). intros s c. now apply Hdec.
  - apply (step_covers _ _ _ _ _ _ _ H Hprev).
    intros a' calls' ret' [= _ <- <-]. split; [now left|].
    intros _. apply covers_all_nil.
Qed.

Lemma block_dependencies prev field path a calls ret :
  step prev field (scan_field (scan_dependencies scan path)) = (a, calls, ret) ->
  block_ok prev ->
  forallb (fun kd : string * dependency =>
             match snd kd with
             | DepValue (JObject v) => is_Ok (UnmarshalJSON (JObject v))
             | _ => true
             end) (default [] field) = true ->
  (forall sfx c, In (sfx, c) (subschemas_of_dependencies field) -> decodes_below c) ->
  block_ok ret
  /\ (ret = None ->
      prev = None /\ covers_all lib f (subschemas_of_dependencies field) path calls).
Proof.
  intros H Hprev Hok Hdec.
  apply (step_covers _ _ _ _ _ _ _ H Hprev).
  intros a' calls' ret' Hrun.
  apply (scan_field_covers (scan_dependencies scan path)
           subschemas_of_dependencies path _ _ _ _ Hrun eq_refl).
  intros d d' calls'' ret'' -> Hrun'.
  apply (scan_dependencies_covers _ _ _ _ _ Hrun').
  intros k v Hin. simpl in Hok. rewrite forallb_forall in Hok.
  pose proof (Hok _ Hin) as Hv. simpl in Hv.
  destruct (UnmarshalJSON (JObject v)) as [c| | |] eqn:Hc; try discriminate.
  exists c. split; [reflexivity|].
  apply (Hdec ("/dependencies" +:+ k)).
  unfold subschemas_of_dependencies. apply in_flat_map.
  exists (k, DepValue (JObject v)). split; [exact Hin|]. simpl. rewrite Hc. now left.
Qed.

Lemma block_items prev field path a calls ret :
  step prev field (scan_field (scan_items lib scan path)) = (a, calls, ret) ->
  block_ok prev ->
  match field with
  | Some (JArray v) => forallb (fun x => is_Ok (UnmarshalJSON x)) v
  | Some (JObject _ as v) | Some (JBool _ as v) => is_Ok (UnmarshalJSON v)
  | _ => true
  end = true ->
  (forall sfx c, In (sfx, c) (subschemas_of_items field) -> decodes_below c) ->
  block_ok ret
  /\ (ret = None ->
      prev = None /\ covers_all lib f (subschemas_of_items field) path calls).
Proof.
  intros H Hprev Hok Hdec.
  apply (step_covers _ _ _ _ _ _ _ H Hprev).
  intros a' calls' ret' Hrun.
  apply (scan_field_covers (scan_items lib scan path)
           subschemas_of_items path _ _ _ _ Hrun eq_refl).
  intros items items' calls'' ret'' -> Hrun'.
  apply (scan_items_covers _ _ _ _ _ Hrun').
  assert (Hsingle : is_Ok (UnmarshalJSON items) = true ->
            (forall c, UnmarshalJSON items = Ok c -> decodes_below c) ->
            exists c, UnmarshalJSON items = Ok c /\ decodes_below c).
  { intros Hv Hc. destruct (UnmarshalJSON items) as [c| | |]; try discriminate.
    exists c. split; [reflexivity|]. now apply Hc. }
  destruct items as [|b|q|str|v|m]; simpl; try exact I.
  - apply Hsingle; [exact Hok|]. intros c Hc. apply (Hdec "/items").
    simpl. rewrite Hc. now left.
  - intros x Hin. rewrite forallb_forall in Hok. pose proof (Hok _ Hin) as Hx.
    destruct (UnmarshalJSON x) as [c| | |] eqn:Hc; try discriminate.
    exists c. split; [reflexivity|].
    destruct (in_combine_indices _ _ Hin) as [i Hi].
    apply (Hdec ("/items" +:+ strconv_Itoa i)). simpl. apply in_flat_map.
    exists (i, x). split; [exact Hi|]. simpl. rewrite Hc. now left.
  - apply Hsingle; [exact Hok|]. intros c Hc. apply (Hdec "/items").
    simpl. rewrite Hc. now left.
Qed.

End Blocks.

Ltac in_group :=
  unfold subschemas; repeat rewrite in_app_iff; tauto.

Ltac next_block H E :=
  match type of H with
  | context [match ?x with (_, _) => _ end] =>
      let a := fresh "new" in
      let c := fresh "calls" in
      let r := fresh "ret" in
      destruct x as [[a c] r] eqn:E
  end.

(** One call of [scanSchema] on a schema that decodes: it does not fail, and
    when it returns it has recorded the schema as it leaves it, under the
    path it was given, and then made the calls for the subschemas, one
    after the other. *)
Lemma body_covers lib f scan : good lib f scan ->
  forall js path js' calls r,
    scanSchema_body lib scan js path = (js', calls, r) -> decodes_below js ->
    (r = Ok tt \/ r = NoFuel)
    /\ (r = Ok tt ->
        exists tail, calls = mkCall js' path :: tail
                     /\ covers_all lib f (subschemas js) path tail).
Proof.
  intros Hgood js path js' calls r H Hdec.
  pose proof (decodes_below_decodes _ Hdec) as Hloc.
  unfold decodes in Hloc.
  apply andb_prop in Hloc as [Hloc Hitems].
  apply andb_prop in Hloc as [Hloc Hdeps].
  apply andb_prop in Hloc as [Hloc HoneOf].
  apply andb_prop in Hloc as [Hloc HallOf].
  apply andb_prop in Hloc as [Hloc HanyOf].
  apply andb_prop in Hloc as [Hloc Hdefs].
  apply andb_prop in Hloc as [Hprops Hpats].
  assert (Hsub : forall sfx c, In (sfx, c) (subschemas js) -> decodes_below c).
  { intros sfx c. now apply decodes_below_sub. }
  unfold scanSchema_body in H. cbv zeta in H.
  destruct (connect_fields js)
    as (E1 & E2 & E3 & E4 & E5 & E6 & E7 & E8 & E9 & E10 & E11 & E12 & E13
        & E14 & E15 & E16 & E17).
  rewrite E1, E2, E3, E4, E5, E6, E7, E8, E9, E10, E11, E12, E13, E14, E15, E16, E17 in H.
  clear E1 E2 E3 E4 E5 E6 E7 E8 E9 E10 E11 E12 E13 E14 E15 E16 E17.
  next_block H B1. next_block H B2. next_block H B3. next_block H B4.
  next_block H B5. next_block H B6. next_block H B7. next_block H B8.
  next_block H B9. next_block H B10. next_block H B11. next_block H B12.
  next_block H B13. next_block H B14. next_block H B15. next_block H B16.
  injection H as <- <- <-.
  apply (block_map lib f scan Hgood) in B1;
    [destruct B1 as [K1 B1] | now left | assumption
    | intros sfx c Hin; apply (Hsub sfx); in_group].
  apply (block_embedded lib f scan Hgood) in B2;
    [destruct B2 as [K2 B2] | assumption
    | intros sfx c Hin; apply (Hsub sfx); in_group].
  apply (block_embedded lib f scan Hgood) in B3;
    [destruct B3 as [K3 B3] | assumption
    | intros sfx c Hin; apply (Hsub sfx); in_group].
  apply (block_dependencies lib f scan Hgood) in B4;
    [destruct B4 as [K4 B4] | assumption | assumption
    | intros sfx c Hin; apply (Hsub sfx); in_group].
  apply (block_map lib f scan Hgood) in B5;
    [destruct B5 as [K5 B5] | assumption | assumption
    | intros sfx c Hin; apply (Hsub sfx); in_group].
  apply (block_map lib f scan Hgood) in B6;
    [destruct B6 as [K6 B6] | assumption | assumption
    | intros sfx c Hin; apply (Hsub sfx); in_group].
  apply (block_items lib f scan Hgood) in B7;
    [destruct B7 as [K7 B7] | assumption | assumption
    | intros sfx c Hin; apply (Hsub sfx); in_group].
  apply (block_embedded lib f scan Hgood) in B8;
    [destruct B8 as [K8 B8] | assumption
    | intros sfx c Hin; apply (Hsub sfx); in_group].
  apply (block_embedded lib f scan Hgood) in B9;
    [destruct B9 as [K9 B9] | assumption
    | intros sfx c Hin; apply (Hsub sfx); in_group].
  apply (block_slice lib f scan Hgood) in B10;
    [destruct B10 as [K10 B10] | assumption | assumption
    | intros sfx c Hin; apply (Hsub sfx); in_group].
  apply (block_slice lib f scan Hgood) in B11;
    [destruct B11 as [K11 B11] | assumption | assumption
    | intros sfx c Hin; apply (Hsub sfx); in_group].
  apply (block_slice lib f scan Hgood) in B12;
    [destruct B12 as [K12 B12] | assumption | assumption
    | intros sfx c Hin; apply (Hsub sfx); in_group].
  apply (block_embedded lib f scan Hgood) in B13;
    [destruct B13 as [K13 B13] | assumption
    | intros sfx c Hin; apply (Hsub sfx); in_group].
  apply (block_embedded lib f scan Hgood) in B14;
    [destruct B14 as [K14 B14] | assumption
    | intros sfx c Hin; apply (Hsub sfx); in_group].
  apply (block_conditional lib f scan Hgood) in B15;
    [destruct B15 as [K15 B15] | assumption
    | intros sfx c Hc Hin; apply (Hsub sfx); unfold subschemas; rewrite Hc;
      repeat rewrite in_app_iff; tauto].
  apply (block_conditional lib f scan Hgood) in B16;
    [destruct B16 as [K16 B16] | assumption
    | intros sfx c Hc Hin; apply (Hsub sfx); unfold subschemas; rewrite Hc;
      repeat rewrite in_app_iff; tauto].
  split.
  - destruct K16 as [-> | ->]; [now left|now right].
  - intros Hr. destruct K16 as [-> | ->]; [|discriminate]. clear Hr.
    destruct (B16 eq_refl) as [-> C16]. destruct (B15 eq_refl) as [-> C15].
    destruct (B14 eq_refl) as [-> C14]. destruct (B13 eq_refl) as [-> C13].
    destruct (B12 eq_refl) as [-> C12]. destruct (B11 eq_refl) as [-> C11].
    destruct (B10 eq_refl) as [-> C10]. destruct (B9 eq_refl) as [-> C9].
    destruct (B8 eq_refl) as [-> C8]. destruct (B7 eq_refl) as [-> C7].
    destruct (B6 eq_refl) as [-> C6]. destruct (B5 eq_refl) as [-> C5].
    destruct (B4 eq_refl) as [-> C4]. destruct (B3 eq_refl) as [-> C3].
    destruct (B2 eq_refl) as [-> C2]. destruct (B1 eq_refl) as [_ C1].
    eexists. split; [reflexivity|].
    unfold subschemas.
    repeat (apply covers_all_blocks; [assumption|]).
    destruct (not_nil (If js)); exact (covers_all_blocks _ _ _ _ _ _ _ C15 C16).
Qed.

(** With [fuel] units of fuel [scanSchema] records, for a schema that
    decodes, the schema and the subschemas below it in the order of [walk],
    whatever the depth of the walk from [fuel] on. *)
Lemma good_scanSchema lib fuel : good lib fuel (scanSchema lib fuel).
Proof.
  induction fuel as [|fuel IH].
  - intros js path js' calls r [= _ _ <-] _. split; [now right|discriminate].
  - intros js path js' calls r H Hdec.
    destruct (body_covers lib fuel _ IH js path js' calls r H Hdec) as [Hr Hcov].
    split; [exact Hr|]. intros ->.
    destruct (Hcov eq_refl) as (tail & -> & Hall).
    intros d Hd. destruct d as [|d]; [lia|].
    change (walk (S d) js path) with (below d (subschemas js) path).
    constructor.
    + split; [reflexivity|]. exists (S fuel), (mkCall js' path :: tail). exact H.
    + apply Hall. lia.
Qed.

(** ** C3: the subschema index *)

Lemma subschemas_of_map_suffix (t : string)
  (m : option (list (string * option JsonSchema))) (sfx : string) (c : JsonSchema) :
  In (sfx, c) (subschemas_of_map (String "/" t) m) -> exists u, sfx = String "/" u.
Proof.
  unfold subschemas_of_map. intros H.
  apply in_flat_map in H as [[k p] [_ H]]. simpl in H.
  destruct p; [|destruct H]. destruct H as [[= <- _]|[]]. eexists. reflexivity.
Qed.

Lemma subschemas_of_slice_suffix (t : string)
  (l : option (list (option JsonSchema))) (sfx : string) (c : JsonSchema) :
  In (sfx, c) (subschemas_of_slice (String "/" t) l) -> exists u, sfx = String "/" u.
Proof.
  unfold subschemas_of_slice. intros H.
  apply in_flat_map in H as [[k p] [_ H]]. simpl in H.
  destruct p; [|destruct H]. destruct H as [[= <- _]|[]]. eexists. reflexivity.
Qed.

Lemma subschemas_of_embedded_suffix (t : string) (field : option JsonSchema)
  (sfx : string) (c : JsonSchema) :
  In (sfx, c) (subschemas_of_embedded (String "/" t) field) ->
  exists u, sfx = String "/" u.
Proof.
  destruct field; intros H; [|destruct H].
  destruct H as [[= <- _]|[]]. eexists. reflexivity.
Qed.

Lemma subschemas_of_dependencies_suffix
  (d : option (list (string * dependency))) (sfx : string) (c : JsonSchema) :
  In (sfx, c) (subschemas_of_dependencies d) -> exists u, sfx = String "/" u.
Proof.
  unfold subschemas_of_dependencies. intros H.
  apply in_flat_map in H as [[k v] [_ H]]. simpl in H.
  destruct v as [[| | | | |m]|]; try (destruct H; fail).
  destruct (UnmarshalJSON (JObject m)); try (destruct H; fail).
  destruct H as [[= <- _]|[]]. eexists. reflexivity.
Qed.

Lemma subschemas_of_items_suffix (items : option json) (sfx : string) (c : JsonSchema) :
  In (sfx, c) (subschemas_of_items items) -> exists u, sfx = String "/" u.
Proof.
  assert (Hsingle : forall v,
            In (sfx, c) match UnmarshalJSON v with
                        | Ok c => [("/items", c)]
                        | _ => []
                        end -> exists u, sfx = String "/" u).
  { intros v H. destruct (UnmarshalJSON v); try (destruct H; fail).
    destruct H as [[= <- _]|[]]. eexists. reflexivity. }
  destruct items as [[| | | |v|]|]; simpl; intros H; try (destruct H; fail); eauto.
  apply in_flat_map in H as [[i x] [_ H]]. simpl in H.
  destruct (UnmarshalJSON x); try (destruct H; fail).
  destruct H as [[= <- _]|[]]. eexists. reflexivity.
Qed.

(** Every subschema adds a path that starts with a slash. *)
Lemma subschemas_suffix (js : JsonSchema) (sfx : string) (c : JsonSchema) :
  In (sfx, c) (subschemas js) -> exists u, sfx = String "/" u.
Proof.
  unfold subschemas. intros H.
  repeat (apply in_app_or in H as [H|H];
          [first [ now apply subschemas_of_map_suffix in H
                 | now apply subschemas_of_slice_suffix in H
                 | now apply subschemas_of_embedded_suffix in H
                 | now apply subschemas_of_dependencies_suffix in H
                 | now apply subschemas_of_items_suffix in H ]|]).
  destruct (not_nil (If js)); [|destruct H].
  apply in_app_or in H as [H|H]; now apply subschemas_of_embedded_suffix in H.
Qed.

(** No subschema has the empty path, under which the root stands. *)
Lemma walk_path_nonempty (d : nat) : forall (js : JsonSchema) (path p : string)
  (s : JsonSchema),
  In (p, s) (walk d js path) -> p <> EmptyString.
Proof.
  induction d as [|d IH]; intros js path p s H; [destruct H|].
  simpl in H. apply in_flat_map in H as [[sfx c] [Hsub H]].
  simpl in H. destruct H as [[= <- _]|H].
  - destruct (subschemas_suffix _ _ _ Hsub) as [u ->]. apply string_app_slash.
  - now apply (IH c (path +:+ sfx) p s).
Qed.

(** A deeper walk reaches what a walk reaches. *)
Lemma walk_deeper (d : nat) : forall (js : JsonSchema) (path : string)
  (x : string * JsonSchema),
  In x (walk d js path) -> In x (walk (S d) js path).
Proof.
  induction d as [|d IH]; intros js path x H; [destruct H|].
  change (walk (S (S d)) js path) with (below (S d) (subschemas js) path).
  change (walk (S d) js path) with (below d (subschemas js) path) in H.
  unfold below in *. apply in_flat_map in H as [sc [Hsc H]].
  apply in_flat_map. exists sc. split; [exact Hsc|].
  destruct H as [<-|H]; [now left|right]. now apply IH.
Qed.

Lemma walk_le (d d' : nat) (js : JsonSchema) (path : string)
  (x : string * JsonSchema) :
  (d <= d')%nat -> In x (walk d js path) -> In x (walk d' js path).
Proof.
  induction 1 as [|d' _ IH]; [auto|]. intros H. apply walk_deeper. auto.
Qed.

Lemma recorded_node {A B} (R : A -> B -> Prop) (l : list A) (k : list B) (x : A) :
  Forall2 R l k -> In x l -> exists y, In y k /\ R x y.
Proof.
  induction 1 as [|a b l k Hab _ IH]; intros Hin; [destruct Hin|].
  destruct Hin as [<-|Hin].
  - exists b. split; [now left|exact Hab].
  - destruct (IH Hin) as (y & Hy & Hxy). exists y. split; [now right|exact Hxy].
Qed.

Lemma recording_call {A B} (R : A -> B -> Prop) (l : list A) (k : list B) (y : B) :
  Forall2 R l k -> In y k -> exists x, In x l /\ R x y.
Proof.
  induction 1 as [|a b l k Hab _ IH]; intros Hin; [destruct Hin|].
  destruct Hin as [<-|Hin].
  - exists a. split; [now left|exact Hab].
  - destruct (IH Hin) as (x & Hx & Hxy). exists x. split; [now right|exact Hxy].
Qed.

(** An entry of the subschema index was there before the call of
    [mapSubSchema], or it is the schema of the call, under the path of the
    call. *)
Lemma apply_call_origin (id : string) (pool : rootSchemaPool) (c : mapSubSchemaCall)
  (p : string) (s' : JsonSchema) (rs : RootJsonSchema) :
  apply_call id pool c !! id = Some rs -> subSchemaMap rs !! p = Some s' ->
  (exists rs0, pool !! id = Some rs0 /\ subSchemaMap rs0 !! p = Some s')
  \/ (call_schemaPath c = p /\ call_js c = s').
Proof.
  unfold apply_call, mapSubSchema.
  destruct (negb (String.eqb (call_schemaPath c) "") && negb (String.eqb id ""));
    [|intros H Hp; left; eauto].
  destruct (pool !! id) as [rs0|] eqn:Hrs0.
  - destruct (subSchemaMap rs0 !! call_schemaPath c) eqn:Hc.
    + rewrite Hrs0. intros [= <-] Hp. left. eauto.
    + rewrite lookup_insert_eq. intros [= <-]. simpl.
      destruct (decide (call_schemaPath c = p)) as [<-|Hne].
      * rewrite lookup_insert_eq. intros [= <-]. now right.
      * rewrite lookup_insert_ne by exact Hne. intros Hp. left. eauto.
  - rewrite Hrs0. discriminate.
Qed.

Lemma foldl_apply_call_origin (id : string) (calls : list mapSubSchemaCall) :
  forall (pool : rootSchemaPool) (p : string) (s' : JsonSchema) (rs : RootJsonSchema),
  foldl (apply_call id) pool calls !! id = Some rs ->
  subSchemaMap rs !! p = Some s' ->
  (exists rs0, pool !! id = Some rs0 /\ subSchemaMap rs0 !! p = Some s')
  \/ (exists c, In c calls /\ call_schemaPath c = p /\ call_js c = s').
Proof.
  induction calls as [|c calls IH]; intros pool p s' rs H Hp; simpl in H.
  - left. eauto.
  - destruct (IH _ _ _ _ H Hp) as [(rs1 & Hrs1 & Hp1)|(c' & Hin & Hc')].
    + destruct (apply_call_origin _ _ _ _ _ _ Hrs1 Hp1) as [Hold|Hnew].
      * now left.
      * right. exists c. split; [now left|exact Hnew].
    + right. exists c'. split; [now right|exact Hc'].
Qed.

(** C3, as amended.  Take a root that compiles.  When it carries a
    non-empty "$id" under which the pool holds no root yet, and all of its
    members that stand for a schema decode to one, the root is the entry of
    the pool under its id, and every subschema [s] reachable from the root
    (through "properties", "patternProperties", "definitions", the members
    of "dependencies" that are objects, "items", "additionalProperties",
    "additionalItems", "propertyNames", "contains", "anyOf", "allOf",
    "oneOf", "not", "if", and "then" and "else" below a schema that has an
    "if") has an entry in the subschema index of the root under its
    canonical path [p]: the entry is what [scanSchema] leaves of a reachable
    subschema [s0] whose canonical path is [p], and [s0] is [s] when no
    other reachable subschema has that path.  When the root carries no
    "$id", its subschema index is empty. *)
Theorem subschemas_are_indexed
  (lib : GoLib) (fuel : nat) (pool pool' : rootSchemaPool) (v : json)
  (js : JsonSchema) (rs : RootJsonSchema) :
  NewRootJsonSchema lib fuel pool (RawJSON v) = (pool', Ok rs) ->
  UnmarshalJSON v = Ok js ->
  (forall id : string,
     Id js = Some id -> id <> EmptyString -> pool !! id = None ->
     decodes_below js ->
     pool' !! id = Some rs
     /\ forall d p s, In (p, s) (walk d js EmptyString) ->
          exists s0 s',
            (exists d0, In (p, s0) (walk d0 js EmptyString))
            /\ subSchemaMap rs !! p = Some s'
            /\ compiled lib s0 p s'
            /\ ((forall d1 s1, In (p, s1) (walk d1 js EmptyString) -> s1 = s) ->
                s0 = s))
  /\ (Id js = None -> subSchemaMap rs = ∅).
Proof.
  intros H Hdec. split.
  - intros id Hid Hne Hfree Hwf.
    destruct (NewRootJsonSchema_Ok _ _ _ _ _ _ H)
      as (v0 & js0 & js' & calls & [= <-] & Hdec0 & Hscan & Hpool & Hrs).
    rewrite Hdec in Hdec0. injection Hdec0 as <-.
    unfold rootSchemaId_of in Hpool, Hrs. rewrite Hid in Hpool, Hrs.
    rewrite bool_decide_eq_true_2 in Hpool, Hrs by exact Hfree.
    assert (Hsome : is_Some (pool' !! id)).
    { apply fmap_is_Some with (f := root_JsonSchema). rewrite Hpool.
      rewrite foldl_apply_call_root, lookup_insert_eq. simpl. eauto. }
    destruct Hsome as [rs' Hrs']. rewrite Hrs' in Hrs. simpl in Hrs. subst rs'.
    split; [exact Hrs'|].
    intros d p s Hin.
    pose proof (walk_path_nonempty d js EmptyString p s Hin) as Hp.
    destruct (good_scanSchema lib fuel js EmptyString js' calls (Ok tt) Hscan Hwf)
      as [_ Hcov].
    assert (Hle : (fuel <= Nat.max d fuel)%nat) by lia.
    pose proof (Hcov eq_refl (Nat.max d fuel) Hle) as Hrec. clear Hcov Hle.
    assert (HinD : In (p, s) (walk (Nat.max d fuel) js EmptyString)).
    { apply (walk_le d); [lia|exact Hin]. }
    destruct (recording_call _ _ _ (p, s) Hrec (or_intror HinD))
      as (c & Hc & Hpc & _).
    assert (Hidx : indexed pool' id p).
    { rewrite Hpool. apply foldl_apply_call_indexes.
      - exact Hne.
      - exact Hp.
      - rewrite lookup_insert_eq. eauto.
      - unfold paths. apply in_map_iff. exists c. split; [exact Hpc|exact Hc]. }
    destruct Hidx as (rs0 & Hrs0 & [s' Hs']).
    rewrite Hrs' in Hrs0. injection Hrs0 as <-.
    rewrite Hpool in Hrs'.
    destruct (foldl_apply_call_origin _ _ _ _ _ _ Hrs' Hs')
      as [(rs1 & Hrs1 & Hp1)|(c' & Hin' & Hpath & Hjs)].
    { rewrite lookup_insert_eq in Hrs1. injection Hrs1 as <-.
      simpl in Hp1. rewrite lookup_empty in Hp1. discriminate. }
    destruct (recorded_node _ _ _ c' Hrec Hin') as ([q s0] & Hnode & Hq & Hcomp).
    simpl in Hq, Hcomp. rewrite Hpath in Hq. subst q. rewrite Hjs in Hcomp.
    destruct Hnode as [[= Hempty _]|Hnode]; [now symmetry in Hempty|].
    exists s0, s'. split; [now exists (Nat.max d fuel)|].
    split; [exact Hs'|]. split; [exact Hcomp|].
    intros Hunique. exact (Hunique _ _ Hnode).
  - intros Hid.
    apply (NewRootJsonSchema_anonymous _ _ _ _ _ _ H).
    now rewrite (NewRootJsonSchema_root _ _ _ _ _ _ _ H Hdec).
Qed.

Lemma subschemas_are_indexed_witness :
  (exists pool' rs js,
     NewRootJsonSchema example_lib 3 ∅ (RawJSON schema_with_id) = (pool', Ok rs)
     /\ UnmarshalJSON schema_with_id = Ok js
     /\ Id js = Some "R" /\ "R" <> EmptyString
     /\ (∅ : rootSchemaPool) !! "R" = None
     /\ decodes_below js
     /\ pool' !! "R" = Some rs
     /\ (exists s',
           subSchemaMap rs !! "/properties/a/items" = Some s'
           /\ compiled example_lib zeroJsonSchema "/properties/a/items" s')
     /\ (exists s',
           subSchemaMap rs !! "/not" = Some s'
           /\ compiled example_lib zeroJsonSchema "/not" s'))
  /\ (exists pool' rs js,
        NewRootJsonSchema example_lib 2 ∅ (RawJSON schema_without_id)
        = (pool', Ok rs)
        /\ UnmarshalJSON schema_without_id = Ok js
        /\ Id js = None
        /\ subSchemaMap rs = ∅).
Proof.
  split.
  - destruct (NewRootJsonSchema example_lib 3 ∅ (RawJSON schema_with_id))
      as [pool' res] eqn:E.
    assert (Hres : exists rs, res = Ok rs).
    { pose proof (f_equal snd E) as E'. simpl in E'. rewrite <- E'.
      vm_compute. eexists. reflexivity. }
    destruct Hres as [rs ->].
    destruct (UnmarshalJSON schema_with_id) as [js| | |] eqn:Hdec;
      try (vm_compute in Hdec; discriminate).
    assert (Hid : Id js = Some "R").
    { vm_compute in Hdec. injection Hdec as <-. reflexivity. }
    assert (Hwf : decodes_below js).
    { vm_compute in Hdec. injection Hdec as <-.
      intros d. destruct d as [|[|[|d]]]; vm_compute; reflexivity. }
    assert (Hne : "R" <> EmptyString) by discriminate.
    destruct (subschemas_are_indexed example_lib 3 ∅ pool' schema_with_id js rs
                E Hdec) as [Hwith _].
    destruct (Hwith "R" Hid Hne eq_refl Hwf) as [Hpool Hidx].
    exists pool', rs, js. repeat split; try assumption; try reflexivity.
    + destruct (Hidx 2%nat "/properties/a/items" zeroJsonSchema)
        as (s0 & s' & _ & Hs' & Hcomp & Hsame).
      { vm_compute in Hdec. injection Hdec as <-. vm_compute. right. now left. }
      exists s'. split; [exact Hs'|]. rewrite <- Hsame; [exact Hcomp|].
      intros d1 s1 Hin. vm_compute in Hdec. injection Hdec as <-.
      destruct d1 as [|[|[|d1]]]; vm_compute in Hin;
        repeat (destruct Hin as [Hin|Hin];
                [first [discriminate Hin | injection Hin as <-; reflexivity]|]);
        contradiction.
    + destruct (Hidx 1%nat "/not" zeroJsonSchema)
        as (s0 & s' & _ & Hs' & Hcomp & Hsame).
      { vm_compute in Hdec. injection Hdec as <-. vm_compute. right. now left. }
      exists s'. split; [exact Hs'|]. rewrite <- Hsame; [exact Hcomp|].
      intros d1 s1 Hin. vm_compute in Hdec. injection Hdec as <-.
      destruct d1 as [|[|[|d1]]]; vm_compute in Hin;
        repeat (destruct Hin as [Hin|Hin];
                [first [discriminate Hin | injection Hin as <-; reflexivity]|]);
        contradiction.
  - destruct (NewRootJsonSchema example_lib 2 ∅ (RawJSON schema_without_id))
      as [pool' res] eqn:E.
    assert (Hres : exists rs, res = Ok rs).
    { pose proof (f_equal snd E) as E'. simpl in E'. rewrite <- E'.
      vm_compute. eexists. reflexivity. }
    destruct Hres as [rs ->].
    destruct (UnmarshalJSON schema_without_id) as [js| | |] eqn:Hdec;
      try (vm_compute in Hdec; discriminate).
    assert (Hid : Id js = None).
    { vm_compute in Hdec. injection Hdec as <-. reflexivity. }
    destruct (subschemas_are_indexed example_lib 2 ∅ pool' schema_without_id js rs
                E Hdec) as [_ Hwithout].
    exists pool', rs, js. repeat split; try assumption; try reflexivity.
    exact (Hwithout Hid).
Defined.

(** C3, as the claim states it, fails.  A root without "$id" compiles with
    an empty subschema index, though "/properties/a" is a subschema of it;
    below a schema without "if", "then" is not walked; and a root whose
    "$id" is taken gets no entry, in the pool or in its own index. *)
Lemma subschema_index_incomplete :
  (exists pool rs js c,
     NewRootJsonSchema example_lib 2 ∅ (RawJSON schema_without_id) = (pool, Ok rs)
     /\ UnmarshalJSON schema_without_id = Ok js
     /\ In ("/properties/a", c) (walk 1 js EmptyString)
     /\ subSchemaMap rs !! "/properties/a" = None)
  /\ (exists pool rs,
        NewRootJsonSchema example_lib 2 ∅ (RawJSON schema_then_without_if)
        = (pool, Ok rs)
        /\ Then (root_JsonSchema rs) = Some zeroJsonSchema
        /\ subSchemaMap rs !! "/then" = None)
  /\ (exists pool1 rs1 pool2 rs2,
        NewRootJsonSchema example_lib 3 ∅ (RawJSON schema_with_id) = (pool1, Ok rs1)
        /\ NewRootJsonSchema example_lib 3 pool1 (RawJSON schema_with_id)
           = (pool2, Ok rs2)
        /\ Not (root_JsonSchema rs2) = Some zeroJsonSchema
        /\ subSchemaMap rs2 !! "/not" = None
        /\ pool2 !! "R" = Some rs1).
Proof.
  split; [|split].
  - eexists _, _, _, _.
    split; [vm_compute; reflexivity|]. split; [vm_compute; reflexivity|].
    split; [vm_compute; left; reflexivity|]. vm_compute. reflexivity.
  - eexists _, _. evaluate.
  - eexists _, _, _, _. evaluate.
Qed.

(** Two subschemas with one canonical path have one entry between them:
    [mapSubSchema] keeps the entry that is there, so the index holds the
    subschema that was scanned first, here the property "b" of the property
    "a", under the path that the property "a/properties/b" has as well. *)
Lemma colliding_paths_share_an_entry :
  exists pool rs js s entry,
    NewRootJsonSchema example_lib 4 ∅ (RawJSON schema_colliding_paths)
    = (pool, Ok rs)
    /\ UnmarshalJSON schema_colliding_paths = Ok js
    /\ In ("/properties/a/properties/b", s) (walk 1 js EmptyString)
    /\ Type_ s = Some (JString "number")
    /\ subSchemaMap rs !! "/properties/a/properties/b" = Some entry
    /\ Type_ entry = Some (JString "string").
Proof.
  eexists _, _, _, _, _.
  split; [vm_compute; reflexivity|]. split; [vm_compute; reflexivity|].
  split; [vm_compute; right; left; reflexivity|].
  split; [reflexivity|]. split; [vm_compute; reflexivity|]. reflexivity.
Qed.

(** * Further properties *)

(** ** jsonwalker *)

Lemma strings_Split_app (a b : string) (sep : ascii) :
  strings_Contains a sep = false ->
  strings_Split (a +:+ String sep b) sep = a :: strings_Split b sep.
Proof.
  induction a as [|c a IH]; intros H.
  - change (strings_Split (String sep b) sep = "" :: strings_Split b sep).
    simpl. now rewrite Ascii.eqb_refl.
  - simpl in H. apply orb_false_iff in H as [Hc Ha].
    change (strings_Split (String c (a +:+ String sep b)) sep
            = String c a :: strings_Split b sep).
    simpl. rewrite Hc, (IH Ha). reflexivity.
Qed.

Lemma strings_Split_concat (t : string) (tokens : list string) :
  Forall (fun t => strings_Contains t "/" = false) (t :: tokens) ->
  strings_Split (String.concat "/" (t :: tokens)) "/" = t :: tokens.
Proof.
  revert t. induction tokens as [|u tokens IH]; intros t H.
  - simpl. apply strings_Split_without. now inversion H.
  - inversion H as [|? ? Ht Hrest]; subst.
    change (String.concat "/" (t :: u :: tokens))
      with (t +:+ String "/" (String.concat "/" (u :: tokens))).
    rewrite (strings_Split_app _ _ _ Ht). now rewrite (IH u Hrest).
Qed.

(** X1. The path that [Evaluate] prints in its errors, a slash followed by the
    tokens joined by slashes, is read back by [NewJsonPointer] as the same
    tokens; the pointer of the one empty token is the exception, which is
    written "/" and read as the empty pointer. *)
Theorem NewJsonPointer_of_joined_tokens (tokens : list string) :
  Forall (fun t => strings_Contains t "/" = false) tokens ->
  tokens <> [EmptyString] ->
  jsonwalker.NewJsonPointer ("/" +:+ String.concat "/" tokens) = Ok tokens.
Proof.
  intros Hall Hne.
  change ("/" +:+ String.concat "/" tokens)
    with (String "/" (String.concat "/" tokens)).
  destruct tokens as [|t tokens]; [reflexivity|].
  unfold jsonwalker.NewJsonPointer.
  destruct (String.eqb_spec (String "/" (String.concat "/" (t :: tokens))) "/")
    as [Heq|_].
  - exfalso. injection Heq as Heq.
    destruct tokens as [|u tokens].
    + simpl in Heq. now subst t.
    + change (String.concat "/" (t :: u :: tokens))
        with (t +:+ String "/" (String.concat "/" (u :: tokens))) in Heq.
      destruct t; discriminate.
  - cbn [negb Ascii.eqb Bool.eqb andb strings_Split tail].
    now rewrite strings_Split_concat.
Qed.

Lemma NewJsonPointer_of_joined_tokens_witness :
  Forall (fun t => strings_Contains t "/" = false) ["a~1b"; ""; "0"]
  /\ ["a~1b"; ""; "0"] <> [EmptyString]
  /\ jsonwalker.NewJsonPointer "/a~1b//0" = Ok ["a~1b"; ""; "0"].
Proof.
  assert (H : Forall (fun t => strings_Contains t "/" = false) ["a~1b"; ""; "0"]).
  { repeat constructor. }
  split; [exact H|]. split; [discriminate|].
  apply (NewJsonPointer_of_joined_tokens ["a~1b"; ""; "0"] H). discriminate.
Defined.

Lemma Evaluate_loop_path (jp jp' tokens : list string) (data x : json) :
  jsonwalker.Evaluate_loop jp tokens data = Ok x ->
  jsonwalker.Evaluate_loop jp' tokens data = Ok x.
Proof.
  revert data. induction tokens as [|t tokens IH]; intros data; simpl; [easy|].
  destruct (jsonwalker.evaluateToken t data); try discriminate. apply IH.
Qed.

Lemma Evaluate_loop_app (jp t1 t2 : list string) (data e : json) :
  jsonwalker.Evaluate_loop jp (t1 ++ t2)%list data = Ok e
  <-> exists d, jsonwalker.Evaluate_loop jp t1 data = Ok d
                /\ jsonwalker.Evaluate_loop jp t2 d = Ok e.
Proof.
  revert data. induction t1 as [|t t1 IH]; intros data; simpl.
  - split.
    + intros H. now exists data.
    + now intros (d & [= <-] & H).
  - destruct (jsonwalker.evaluateToken t data) as [data'| | |]; [apply IH| | |];
      (split; [discriminate|now intros (d & H & _)]).
Qed.

Lemma Evaluate_as_loop (jp : list string) (data : json) :
  jsonwalker.Evaluate jp (RawJSON data) = jsonwalker.Evaluate_loop jp jp data.
Proof. now destruct jp. Qed.

(** X2. Evaluating a pointer in two steps: the tokens [jp1 ++ jp2] lead to a
    value in a document exactly when [jp1] leads to a value in it, and [jp2]
    leads from that value on. The empty pointer leads to the document. *)
Theorem Evaluate_app (jp1 jp2 : jsonwalker.JsonPointer) (v e : json) :
  jsonwalker.Evaluate [] (RawJSON v) = Ok v
  /\ (jsonwalker.Evaluate (jp1 ++ jp2)%list (RawJSON v) = Ok e
      <-> exists d, jsonwalker.Evaluate jp1 (RawJSON v) = Ok d
                    /\ jsonwalker.Evaluate jp2 (RawJSON d) = Ok e).
Proof.
  split; [reflexivity|].
  rewrite !Evaluate_as_loop, Evaluate_loop_app. split.
  - intros (d & H1 & H2). exists d. rewrite Evaluate_as_loop. split.
    + now apply Evaluate_loop_path with (jp := (jp1 ++ jp2)%list).
    + now apply Evaluate_loop_path with (jp := (jp1 ++ jp2)%list).
  - intros (d & H1 & H2). exists d. rewrite Evaluate_as_loop in H2. split.
    + now apply Evaluate_loop_path with (jp := jp1).
    + now apply Evaluate_loop_path with (jp := jp2).
Qed.

Lemma Evaluate_loop_error (jp tokens : list string) (data : json) (e : error) :
  jsonwalker.Evaluate_loop jp tokens data = Err e ->
  exists reason,
    e = InvalidJsonPointerError ("/" +:+ String.concat "/" jp) reason.
Proof.
  revert data. induction tokens as [|t tokens IH]; intros data; simpl;
    [discriminate|].
  destruct (jsonwalker.evaluateToken t data); try discriminate.
  - apply IH.
  - intros [= <-]. eauto.
Qed.

(** X3. On a document that decodes, every error of [Evaluate] is an
    [InvalidJsonPointerError] that carries the whole pointer, whichever token
    failed. *)
Theorem Evaluate_error_carries_pointer
  (jp : jsonwalker.JsonPointer) (v : json) (e : error) :
  jsonwalker.Evaluate jp (RawJSON v) = Err e ->
  exists reason,
    e = InvalidJsonPointerError ("/" +:+ String.concat "/" jp) reason.
Proof. rewrite Evaluate_as_loop. apply Evaluate_loop_error. Qed.

Lemma Evaluate_error_carries_pointer_witness :
  jsonwalker.Evaluate ["a"; "b"; "c"]
    (RawJSON (JObject [("a", JObject [])]))
  = Err (InvalidJsonPointerError "/a/b/c"
           (Error (MissingJsonTokenError "b")))
  /\ exists reason,
       InvalidJsonPointerError "/a/b/c" (Error (MissingJsonTokenError "b"))
       = InvalidJsonPointerError ("/" +:+ String.concat "/" ["a"; "b"; "c"]) reason.
Proof.
  split; [reflexivity|].
  apply (Evaluate_error_carries_pointer ["a"; "b"; "c"]
           (JObject [("a", JObject [])])). reflexivity.
Defined.

(** ** formatchecker *)

Lemma string_app_cons_inv (c : ascii) (s' p s : string) (x : ascii) :
  String c s' = p +:+ String x s ->
  (p = EmptyString /\ c = x /\ s' = s)
  \/ exists p', p = String c p' /\ s' = p' +:+ String x s.
Proof.
  destruct p as [|d p]; intros H.
  - left. now injection H as -> ->.
  - right. change (String c s' = String d (p +:+ String x s)) in H.
    injection H as -> ->. now exists p.
Qed.

(** Every tilde of [str] is followed by 0 or by 1. *)
Lemma tildes_escaped (str : string) :
  (formatchecker.unescapedTilda_MatchString str = false
   /\ formatchecker.endingTilda_MatchString str = false)
  <-> forall p s, str = p +:+ String "~" s ->
                  exists s', s = String "0" s' \/ s = String "1" s'.
Proof.
  induction str as [|c s' IH].
  - split; [|now split]. intros _ p s H. destruct p; discriminate.
  - destruct s' as [|d s''].
    + simpl. split.
      * intros [_ Hc] p s H.
        apply string_app_cons_inv in H as [(-> & -> & <-)|(p' & -> & H)].
        -- discriminate.
        -- destruct p'; discriminate.
      * intros H. split; [reflexivity|].
        destruct (Ascii.eqb_spec c "~") as [->|]; [|reflexivity].
        destruct (H EmptyString EmptyString eq_refl) as [x [|]]; discriminate.
    + change (formatchecker.unescapedTilda_MatchString (String c (String d s'')))
        with ((Ascii.eqb c "~" && negb (Ascii.eqb d "0" || Ascii.eqb d "1"))
              || formatchecker.unescapedTilda_MatchString (String d s'')).
      change (formatchecker.endingTilda_MatchString (String c (String d s'')))
        with (formatchecker.endingTilda_MatchString (String d s'')).
      rewrite orb_false_iff. split.
      * intros [[Hc Hu] He] p s H.
        apply string_app_cons_inv in H as [(-> & -> & <-)|(p' & -> & H)].
        -- rewrite Ascii.eqb_refl in Hc. simpl in Hc.
           apply negb_false_iff, orb_true_iff in Hc as [Hd|Hd];
             apply Ascii.eqb_eq in Hd; subst d; eauto.
        -- apply (proj1 IH (conj Hu He) p' s H).
      * intros H.
        assert (Hrest : forall p s, String d s'' = p +:+ String "~" s ->
                  exists s', s = String "0" s' \/ s = String "1" s').
        { intros p s Hp. apply (H (String c p) s).
          change (String c (String d s'') = String c (p +:+ String "~" s)).
          now rewrite Hp. }
        destruct (proj2 IH Hrest) as [Hu He].
        repeat split; try assumption.
        destruct (Ascii.eqb_spec c "~") as [->|]; [|reflexivity].
        destruct (H EmptyString (String d s'') eq_refl) as [x [[= -> _]|[= -> _]]];
          reflexivity.
Qed.

(** X4. [IsValidJSONPointer] accepts the empty string, and a string that
    starts with a slash in which every tilde is followed by 0 or by 1; it
    rejects every other string. *)
Theorem IsValidJSONPointer_accepts (jsonPointer : string) :
  formatchecker.IsValidJSONPointer jsonPointer = Ok tt
  <-> jsonPointer = EmptyString
      \/ exists str,
           jsonPointer = String "/" str
           /\ forall p s, str = p +:+ String "~" s ->
                          exists s', s = String "0" s' \/ s = String "1" s'.
Proof.
  destruct jsonPointer as [|c str]; [split; [now left|reflexivity]|].
  unfold formatchecker.IsValidJSONPointer. split.
  - intros H. right.
    destruct (Ascii.eqb_spec c "/") as [->|]; [|discriminate]. simpl in H.
    exists str. split; [reflexivity|]. apply tildes_escaped.
    destruct (formatchecker.unescapedTilda_MatchString str); [discriminate|].
    destruct (formatchecker.endingTilda_MatchString str); [discriminate|].
    now split.
  - intros [|(str' & [= -> <-] & H)]; [discriminate|].
    apply tildes_escaped in H as [-> ->]. reflexivity.
Qed.

Lemma string_drop_app (a b : string) :
  string_drop (String.length a) (a +:+ b) = b.
Proof. induction a as [|c a IH]; [now destruct b|exact IH]. Qed.

Lemma strings_Split_length (s : string) (sep : ascii) :
  (1 <= length (strings_Split s sep))%nat.
Proof.
  induction s as [|c s IH]; simpl; [lia|].
  destruct (Ascii.eqb c sep); simpl; [lia|].
  destruct (strings_Split s sep); simpl; lia.
Qed.

Lemma strings_Contains_app (a b : string) (sep : ascii) :
  strings_Contains (a +:+ b) sep = strings_Contains a sep || strings_Contains b sep.
Proof.
  induction a as [|c a IH]; [reflexivity|].
  change (strings_Contains (String c (a +:+ b)) sep
          = strings_Contains (String c a) sep || strings_Contains b sep).
  simpl. now rewrite IH, orb_assoc.
Qed.

(** X5. A relative JSON pointer whose prefix [strconv.Atoi] reads as an
    integer that is not negative: followed by a slash, it gets the verdict of
    [IsValidJSONPointer] on what starts at that slash; followed by "#" and no
    slash at all, or by nothing, it is accepted. *)
Theorem IsValidRelJSONPointer_nonnegative_prefix
  (prefix rest : string) (i : Z) :
  strconv_Atoi prefix = (i, None) -> (0 <= i)%Z ->
  strings_Contains prefix "/" = false ->
  strings_Contains prefix "#" = false ->
  formatchecker.IsValidRelJSONPointer (prefix +:+ String "/" rest)
  = formatchecker.IsValidJSONPointer (String "/" rest)
  /\ (strings_Contains rest "/" = false ->
      formatchecker.IsValidRelJSONPointer (prefix +:+ String "#" rest) = Ok tt)
  /\ formatchecker.IsValidRelJSONPointer prefix = Ok tt.
Proof.
  intros Hatoi Hpos Hslash Hhash.
  assert (Hi : (i <? 0)%Z = false) by now apply Z.ltb_ge.
  unfold formatchecker.IsValidRelJSONPointer. cbv zeta. repeat split.
  - rewrite (strings_Split_app _ _ _ Hslash).
    pose proof (strings_Split_length rest "/") as Hlen.
    destruct (strings_Split rest "/") as [|x xs] eqn:E; [simpl in Hlen; lia|].
    cbn [length Nat.eqb hd]. rewrite Hatoi, Hi. simpl orb. cbv iota.
    rewrite string_drop_app. reflexivity.
  - intros Hrest.
    rewrite (strings_Split_without (prefix +:+ String "#" rest) "/").
    2:{ rewrite strings_Contains_app. simpl. now rewrite Hslash, Hrest. }
    cbn [length Nat.eqb]. rewrite (strings_Split_app _ _ _ Hhash).
    cbn [hd]. rewrite Hatoi, Hi. simpl orb. cbv iota.
    rewrite string_drop_app. reflexivity.
  - rewrite (strings_Split_without prefix "/" Hslash).
    cbn [length Nat.eqb]. rewrite (strings_Split_without prefix "#" Hhash).
    cbn [hd]. rewrite Hatoi, Hi. simpl orb. cbv iota.
    replace (string_drop (String.length prefix) prefix) with EmptyString.
    + reflexivity.
    + clear. induction prefix; [reflexivity|assumption].
Qed.

Lemma IsValidRelJSONPointer_nonnegative_prefix_witness :
  formatchecker.IsValidRelJSONPointer "007/a~2"
  = formatchecker.IsValidJSONPointer "/a~2"
  /\ (strings_Contains "a~2" "/" = false ->
      formatchecker.IsValidRelJSONPointer "007#a~2" = Ok tt)
  /\ formatchecker.IsValidRelJSONPointer "007" = Ok tt.
Proof.
  apply (IsValidRelJSONPointer_nonnegative_prefix "007" _ 7);
    [reflexivity|lia|reflexivity|reflexivity].
Defined.

(** Every byte below 0x80 of a string is one of its runes: whatever the
    bytes around it are, the decoder never takes it for a part of a longer
    encoding. *)
Lemma accept_high (lo hi : Z) (b0 b : ascii) :
  utf8.acceptRange (utf8.byte_of b0) = (lo, hi) ->
  utf8.accept lo hi b = true -> (0x80 <= utf8.byte_of b)%Z.
Proof.
  unfold utf8.acceptRange, utf8.accept, utf8.locb, utf8.hicb. intros H A.
  apply andb_prop in A as [A _]. apply Z.leb_le in A.
  repeat match type of H with
         | (if ?c then _ else _) = _ => destruct c
         end; injection H as <- <-; lia.
Qed.

Lemma runes_step (b0 : ascii) (s1 : string) :
  exists r pre s',
    s1 = pre +:+ s'
    /\ utf8.runes (String b0 s1) = r :: utf8.runes s'
    /\ forall c, In c (list_ascii_of_string (String b0 pre)) ->
                 (utf8.byte_of c < 0x80)%Z -> r = utf8.byte_of c.
Proof.
  assert (Hcont : forall b, utf8.accept utf8.locb utf8.hicb b = true ->
                            (0x80 <= utf8.byte_of b)%Z).
  { intros b A. apply andb_prop in A as [A _]. now apply Z.leb_le in A. }
  assert (Hone : forall r, (0x80 <= utf8.byte_of b0)%Z ->
            exists r' pre s', s1 = pre +:+ s'
              /\ r :: utf8.runes s1 = r' :: utf8.runes s'
              /\ forall c, In c (list_ascii_of_string (String b0 pre)) ->
                           (utf8.byte_of c < 0x80)%Z -> r' = utf8.byte_of c).
  { intros r Hb. exists r, EmptyString, s1. split; [reflexivity|].
    split; [reflexivity|]. intros c [<-|[]] Hc. lia. }
  cbn [utf8.runes].
  destruct (utf8.acceptRange (utf8.byte_of b0)) as [lo hi] eqn:Hr.
  destruct (Z.ltb_spec (utf8.byte_of b0) 0x80) as [Hlow|Hhigh].
  { exists (utf8.byte_of b0), EmptyString, s1. split; [reflexivity|].
    split; [reflexivity|]. now intros c [<-|[]] _. }
  destruct ((utf8.byte_of b0 <? 0xC2)%Z || (0xF4 <? utf8.byte_of b0)%Z);
    [now apply Hone|].
  destruct (utf8.byte_of b0 <? 0xE0)%Z.
  { destruct s1 as [|b1 s2]; [now apply Hone|].
    destruct (utf8.accept lo hi b1) eqn:A1; [|now apply Hone].
    eexists _, (String b1 EmptyString), s2. split; [reflexivity|].
    split; [reflexivity|]. intros c [<-|[<-|[]]] Hc; [lia|].
    pose proof (accept_high _ _ _ _ Hr A1). lia. }
  destruct (utf8.byte_of b0 <? 0xF0)%Z.
  { destruct s1 as [|b1 [|b2 s3]]; [now apply Hone|now apply Hone|].
    destruct (utf8.accept lo hi b1) eqn:A1; [|now apply Hone].
    destruct (utf8.accept utf8.locb utf8.hicb b2) eqn:A2; [|now apply Hone].
    eexists _, (String b1 (String b2 EmptyString)), s3.
    split; [reflexivity|]. split; [reflexivity|].
    pose proof (accept_high _ _ _ _ Hr A1). pose proof (Hcont _ A2).
    intros c [<-|[<-|[<-|[]]]] Hc; lia. }
  destruct s1 as [|b1 [|b2 [|b3 s4]]]; try now apply Hone.
  destruct (utf8.accept lo hi b1) eqn:A1; [|now apply Hone].
  destruct (utf8.accept utf8.locb utf8.hicb b2) eqn:A2; [|now apply Hone].
  destruct (utf8.accept utf8.locb utf8.hicb b3) eqn:A3; [|now apply Hone].
  eexists _, (String b1 (String b2 (String b3 EmptyString))), s4.
  split; [reflexivity|]. split; [reflexivity|].
  pose proof (accept_high _ _ _ _ Hr A1).
  pose proof (Hcont _ A2). pose proof (Hcont _ A3).
  intros c [<-|[<-|[<-|[<-|[]]]]] Hc; lia.
Qed.

Lemma list_ascii_of_string_app (s t : string) :
  list_ascii_of_string (s +:+ t)
  = (list_ascii_of_string s ++ list_ascii_of_string t)%list.
Proof. induction s as [|a s IH]; simpl; [reflexivity|now rewrite IH]. Qed.

Lemma string_length_app (s t : string) :
  String.length (s +:+ t) = (String.length s + String.length t)%nat.
Proof. induction s as [|a s IH]; simpl; [reflexivity|now rewrite IH]. Qed.

Lemma runes_ascii (c : ascii) (s : string) :
  (utf8.byte_of c < 0x80)%Z -> In c (list_ascii_of_string s) ->
  In (utf8.byte_of c) (utf8.runes s).
Proof.
  intros Hc. remember (String.length s) as n eqn:Hn.
  assert (Hle : (String.length s <= n)%nat) by lia. clear Hn.
  revert s Hle. induction n as [|n IH]; intros [|b0 s1] Hle Hin;
    try contradiction; simpl in Hle; [lia|].
  destruct (runes_step b0 s1) as (r & pre & s' & -> & -> & Hr).
  change (list_ascii_of_string (String b0 (pre +:+ s')))
    with (b0 :: list_ascii_of_string (pre +:+ s')) in Hin.
  rewrite list_ascii_of_string_app in Hin.
  rewrite string_length_app in Hle.
  assert (Hcase : In c (list_ascii_of_string (String b0 pre))
                  \/ In c (list_ascii_of_string s')).
  { destruct Hin as [->|Hin]; [left; now left|].
    apply in_app_or in Hin as [Hin|Hin]; [left; now right|now right]. }
  destruct Hcase as [Hin'|Hin'].
  - left. now apply Hr.
  - right. apply IH; [lia|exact Hin'].
Qed.

Section IdnHostname.
Variable lib : GoLib.

Lemma IsValidIdnHostname_loop_Ok (runes : list Z) :
  formatchecker.IsValidIdnHostname_loop lib runes = Ok tt
  <-> Forall (fun r => ~ In r formatchecker.disallowedIdnChars) runes.
Proof.
  induction runes as [|r runes IH];
    cbn [formatchecker.IsValidIdnHostname_loop].
  - split; [constructor|reflexivity].
  - destruct (existsb (Z.eqb r) formatchecker.disallowedIdnChars) eqn:E.
    + split; [discriminate|]. intros H. inversion H as [|? ? Hr _]; subst.
      exfalso. apply existsb_exists in E as (x & Hx & Heq).
      apply Z.eqb_eq in Heq. subst x. now apply Hr.
    + rewrite IH. split.
      * intros H. constructor; [|exact H]. intros Hin.
        assert (existsb (Z.eqb r) formatchecker.disallowedIdnChars = true).
        { apply existsb_exists. exists r. split; [exact Hin|apply Z.eqb_refl]. }
        congruence.
      * intros H. now inversion H.
Qed.

Lemma IsValidIdnHostname_loop_cases (runes : list Z) :
  formatchecker.IsValidIdnHostname_loop lib runes = Ok tt
  \/ exists e, formatchecker.IsValidIdnHostname_loop lib runes = Err e.
Proof.
  induction runes as [|r runes IH];
    cbn [formatchecker.IsValidIdnHostname_loop]; [now left|].
  destruct (existsb (Z.eqb r) formatchecker.disallowedIdnChars);
    [right; eauto|exact IH].
Qed.

(** X6. [IsValidIdnHostname] accepts a host name exactly when it has at most
    255 bytes and none of the characters its bytes encode is in the table of
    disallowed ones; a host name with a space or a hyphen among its bytes is
    rejected, whatever the other bytes are. *)
Theorem IsValidIdnHostname_accepts (idnHostname : string) :
  (formatchecker.IsValidIdnHostname lib idnHostname = Ok tt
   <-> (String.length idnHostname <= 255)%nat
       /\ Forall (fun r => ~ In r formatchecker.disallowedIdnChars)
            (utf8.runes idnHostname))
  /\ forall c : ascii,
       c = " "%char \/ c = "-"%char ->
       In c (list_ascii_of_string idnHostname) ->
       exists e, formatchecker.IsValidIdnHostname lib idnHostname = Err e.
Proof.
  assert (Hiff : formatchecker.IsValidIdnHostname lib idnHostname = Ok tt
                 <-> (String.length idnHostname <= 255)%nat
                     /\ Forall (fun r => ~ In r formatchecker.disallowedIdnChars)
                          (utf8.runes idnHostname)).
  { unfold formatchecker.IsValidIdnHostname.
    destruct (Nat.ltb_spec 255 (String.length idnHostname)) as [Hlong|Hshort].
    - split; [discriminate|]. intros [H _]. lia.
    - rewrite IsValidIdnHostname_loop_Ok. split; [now split|now intros [_ H]]. }
  split; [exact Hiff|]. intros c Hc Hin.
  assert (Hrune : In (utf8.byte_of c) (utf8.runes idnHostname)).
  { apply runes_ascii; [destruct Hc as [->| ->]; vm_compute; reflexivity|exact Hin]. }
  assert (Hbad : In (utf8.byte_of c) formatchecker.disallowedIdnChars).
  { destruct Hc as [->| ->]; [now left|right; now left]. }
  assert (Hno : formatchecker.IsValidIdnHostname lib idnHostname <> Ok tt).
  { intros H. apply Hiff in H as [_ H].
    rewrite List.Forall_forall in H. exact (H _ Hrune Hbad). }
  unfold formatchecker.IsValidIdnHostname in *.
  destruct (255 <? String.length idnHostname)%nat; [eauto|].
  destruct (IsValidIdnHostname_loop_cases (utf8.runes idnHostname))
    as [H|H]; [contradiction|exact H].
Qed.

End IdnHostname.

(** ** Decoding a schema *)

Lemma member_unknown {X} (key : string) (dec : json -> result X) (absent : X)
  (m1 m2 : list (string * json)) (k : string) (v : json) :
  k <> key ->
  member key dec absent (m1 ++ (k, v) :: m2) = member key dec absent (m1 ++ m2).
Proof.
  intros Hne. induction m1 as [|[k1 v1] m1 IH]; simpl.
  - destruct (String.eqb_spec k key); [contradiction|reflexivity].
  - now rewrite IH.
Qed.

Ltac in_tags := repeat first [left; reflexivity | right].

(** X7. The decoder ignores the members it has no field for: a member whose
    name is made of ASCII bytes and is not a tag of the struct, whatever the
    case of its letters, can be taken out of the object, wherever it stands,
    and the schema that is decoded, or the error, is the same. *)
Theorem UnmarshalJSON_ignores_unknown_members
  (m1 m2 : list (string * json)) (k : string) (v : json) :
  is_ascii k = true ->
  ~ In (strings_ToLower k) (map strings_ToLower JsonSchema_tags) ->
  UnmarshalJSON (JObject (m1 ++ (k, v) :: m2)) = UnmarshalJSON (JObject (m1 ++ m2)).
Proof.
  intros _ Hk.
  assert (Hne : forall t, In t JsonSchema_tags -> k <> t).
  { intros t Ht ->. apply Hk. now apply in_map. }
  change (decode_struct UnmarshalJSON (m1 ++ (k, v) :: m2)
          = decode_struct UnmarshalJSON (m1 ++ m2)).
  unfold decode_struct.
  repeat (rewrite (member_unknown _ _ _ m1 m2 k v) by (apply Hne; in_tags)).
  reflexivity.
Qed.

Lemma UnmarshalJSON_ignores_unknown_members_witness :
  (is_ascii "x-Vendor" = true
   /\ ~ In (strings_ToLower "x-Vendor") (map strings_ToLower JsonSchema_tags))
  /\ UnmarshalJSON (JObject [("type", JString "string"); ("x-Vendor", JNull);
                             ("minLength", JNumber 1)])
     = UnmarshalJSON (JObject [("type", JString "string");
                               ("minLength", JNumber 1)]).
Proof.
  assert (H : ~ In (strings_ToLower "x-Vendor")
                (map strings_ToLower JsonSchema_tags)).
  { intros H. vm_compute in H.
    repeat (destruct H as [H|H]; [discriminate|]). destruct H. }
  split; [split; [reflexivity|exact H]|].
  apply (UnmarshalJSON_ignores_unknown_members
           [("type", JString "string")] [("minLength", JNumber 1)]
           "x-Vendor" JNull eq_refl H).
Defined.

Lemma bind_Ok_inv {A B} (m : result A) (f : A -> result B) (y : B) :
  (x ← m; f x) = Ok y -> exists x, m = Ok x /\ f x = Ok y.
Proof. destruct m; try discriminate. intros H. now eexists. Qed.

Ltac invert_decode H :=
  unfold decode_struct in H;
  repeat (let r := fresh "r" in
          let E := fresh "E" in
          apply bind_Ok_inv in H as (r & E & H)).

(** The decoder leaves the sibling pointers unset. *)
Lemma UnmarshalJSON_siblings (v : json) (js : JsonSchema) :
  UnmarshalJSON v = Ok js ->
  (forall i, If js = Some i -> siblingThen i = false /\ siblingElse i = false)
  /\ (forall ai, AdditionalItems js = Some ai -> siblingItems ai = false)
  /\ (forall ap, AdditionalProperties js = Some ap ->
                 siblingProperties ap = false
                 /\ siblingPatternProperties ap = false).
Proof.
  destruct v as [|[]| | | |m]; try discriminate.
  - intros [= <-]. repeat split; discriminate.
  - intros [= <-]. repeat split; discriminate.
  - change (UnmarshalJSON (JObject m)) with (decode_struct UnmarshalJSON m).
    intros H. invert_decode H. injection H as <-. cbn.
    split; [|split]; intros x Hx;
      match type of Hx with
      | _ <$> ?o = Some _ => destruct o; [injection Hx as <-|discriminate]
      end; split; reflexivity || now split.
Qed.

(** X8. In a schema that is used as the decoder leaves it, as [items.validate]
    uses the schemas of "items", the keywords that look at a sibling are not
    connected: "if" succeeds whatever "then" and "else" hold, and
    "additionalItems" dereferences its nil sibling pointer. *)
Theorem decoded_schema_siblings_not_connected
  (v : json) (js : JsonSchema)
  (rec : JsonSchema -> string -> rawJSON -> string -> result unit)
  (jsonPath rootSchemaId : string) (jsonData : jsonData) :
  UnmarshalJSON v = Ok js ->
  (forall i, If js = Some i ->
     returned (rec (if_JsonSchema i) EmptyString (RawJSON (raw jsonData))
                 rootSchemaId) = true ->
     _if_validate rec js i jsonPath jsonData rootSchemaId = Ok tt)
  /\ (forall ai, AdditionalItems js = Some ai ->
        additionalItems_validate rec js ai jsonPath jsonData rootSchemaId
        = Panic "invalid memory address or nil pointer dereference").
Proof.
  intros Hdec. destruct (UnmarshalJSON_siblings v js Hdec) as (Hif & Hai & _).
  split.
  - intros i Hi Hret. destruct (Hif i Hi) as [Hthen Helse].
    unfold _if_validate. rewrite Hthen, Helse.
    destruct (rec (if_JsonSchema i) EmptyString (RawJSON (raw jsonData))
                rootSchemaId); try discriminate; reflexivity.
  - intros ai Hai'. unfold additionalItems_validate. now rewrite (Hai ai Hai').
Qed.

Lemma decoded_schema_siblings_not_connected_witness :
  exists js i ai,
    UnmarshalJSON (JObject [("if", JBool true); ("then", JBool false);
                            ("items", JArray []);
                            ("additionalItems", JBool true)]) = Ok js
    /\ If js = Some i /\ Then js = Some rejectAllJsonSchema
    /\ AdditionalItems js = Some ai
    /\ _if_validate (validateJsonData example_lib ∅ 1) js i EmptyString
         (mkJsonData JNull JNull) EmptyString = Ok tt
    /\ additionalItems_validate (validateJsonData example_lib ∅ 1) js ai
         EmptyString (mkJsonData JNull JNull) EmptyString
       = Panic "invalid memory address or nil pointer dereference".
Proof.
  eexists _, _, _.
  split; [vm_compute; reflexivity|].
  split; [reflexivity|]. split; [reflexivity|]. split; [reflexivity|].
  pose proof (decoded_schema_siblings_not_connected
                (JObject [("if", JBool true); ("then", JBool false);
                          ("items", JArray []);
                          ("additionalItems", JBool true)])
                _ (validateJsonData example_lib ∅ 1) EmptyString EmptyString
                (mkJsonData JNull JNull) eq_refl) as [Hif Hai].
  split.
  - apply Hif; reflexivity.
  - apply Hai; reflexivity.
Defined.

Lemma member_app_skip {X} (key : string) (dec : json -> result X) (absent : X)
  (l1 l2 : list (string * json)) :
  Forall (fun kv => fst kv <> key) l1 ->
  member key dec absent (l1 ++ l2) = member key dec absent l2.
Proof.
  induction 1 as [|[k v] l1 Hk _ IH]; [reflexivity|]. simpl in Hk |- *.
  destruct (String.eqb_spec k key); [contradiction|exact IH].
Qed.

Section MarshalRoundTrip.
Variable lib : GoLib.

Ltac skip_member :=
  rewrite member_app_skip;
  [|first [ apply Forall_nil_2
          | match goal with
            | |- Forall _ (if ?b then _ else _) => destruct b
            | |- Forall _ (omitempty _ _ ?o) => destruct o
            | |- Forall _ (omitempty_list _ _ ?o) => destruct o as [[|? ?]|]
            end; repeat constructor; discriminate ]].

Lemma Marshal_member_const {X} (js : JsonSchema) (c : json)
  (dec : json -> result X) (absent : X) :
  Const js = Some c ->
  exists segs,
    MarshalJsonSchema lib js = JObject segs
    /\ member "const" dec absent segs = dec (encodeByteSlice lib c).
Proof.
  intros Hc. destruct js. simpl in Hc. subst.
  eexists. split; [reflexivity|].
  cbn [jsonvalidator.RejectAll jsonvalidator.Schema jsonvalidator.Ref
       jsonvalidator.Id jsonvalidator.Comment jsonvalidator.Title
       jsonvalidator.Description jsonvalidator.Type_
       jsonvalidator.Default jsonvalidator.Examples
       jsonvalidator.Enum jsonvalidator.Const].
  do 11 skip_member.
  reflexivity.
Qed.

(** X9. [scanSchema] stores the schema of "items" as [json.Marshal] writes it,
    and [items.validate] decodes that text again. The round trip does not give
    the schema back: "const", a byte slice without a [MarshalJSON] method,
    comes back as the JSON string of its base64 text. *)
Theorem Marshal_then_Unmarshal_const (js js' : JsonSchema) (c : json) :
  Const js = Some c ->
  UnmarshalJSON (MarshalJsonSchema lib js) = Ok js' ->
  Const js' = Some (JString (base64_EncodeToString lib (json_Marshal lib c))).
Proof.
  intros Hc H.
  destruct (Marshal_member_const js c decode_raw_ptr None Hc) as (segs & Hsegs & Hm).
  rewrite Hsegs in H.
  change (decode_struct UnmarshalJSON segs = Ok js') in H.
  unfold decode_struct in H.
  do 11 (let r := fresh "r" in
         apply bind_Ok_inv in H as (r & _ & H)).
  apply bind_Ok_inv in H as (const & E & H).
  rewrite Hm in E. injection E as <-.
  repeat (let r := fresh "r" in
          apply bind_Ok_inv in H as (r & _ & H)).
  injection H as <-. reflexivity.
Qed.

End MarshalRoundTrip.

Lemma Marshal_then_Unmarshal_const_witness :
  exists js js',
    UnmarshalJSON (JObject [("const", JNumber 1)]) = Ok js
    /\ Const js = Some (JNumber 1)
    /\ UnmarshalJSON (MarshalJsonSchema example_lib js) = Ok js'
    /\ Const js'
       = Some (JString (base64_EncodeToString example_lib
                          (json_Marshal example_lib (JNumber 1)))).
Proof.
  let c := eval vm_compute in (UnmarshalJSON (JObject [("const", JNumber 1)])) in
  match c with
  | Ok ?js =>
      let c' := eval vm_compute in
                  (UnmarshalJSON (MarshalJsonSchema example_lib js)) in
      match c' with
      | Ok ?js' =>
          exists js, js';
          assert (H : UnmarshalJSON (MarshalJsonSchema example_lib js) = Ok js')
            by (vm_compute; reflexivity)
      end
  end.
  split; [vm_compute; reflexivity|]. split; [reflexivity|]. split; [exact H|].
  refine (Marshal_then_Unmarshal_const example_lib _ _ (JNumber 1) _ H).
  reflexivity.
Defined.

(** ** The keyword validators *)

Lemma for_each_cons {A} (body : A -> result unit) (x : A) (l : list A) :
  for_each body (x :: l)
  = match body x with Ok _ => for_each body l | r => r end.
Proof. reflexivity. Qed.

Lemma for_each_Ok {A} (body : A -> result unit) (l : list A) :
  for_each body l = Ok tt <-> Forall (fun x => body x = Ok tt) l.
Proof.
  induction l as [|x l IH]; [split; [constructor|reflexivity]|].
  rewrite for_each_cons. split.
  - intros H. destruct (body x) as [[]| | |] eqn:E; try discriminate.
    constructor; [exact E|now apply IH].
  - intros H. inversion H as [|? ? Hx Hl]; subst. rewrite Hx. now apply IH.
Qed.

(** The outcome of a loop that does not end well is the outcome of one of
    its rounds. *)
Lemma for_each_not_Ok {A} (body : A -> result unit) (l : list A) :
  for_each body l <> Ok tt -> exists x, In x l /\ for_each body l = body x.
Proof.
  induction l as [|x l IH]; [now intros H|].
  rewrite for_each_cons. destruct (body x) as [[]| | |] eqn:E.
  - intros H. destruct (IH H) as (y & Hy & Heq). exists y. split; [now right|exact Heq].
  - intros _. exists x. split; [now left|now rewrite E].
  - intros _. exists x. split; [now left|now rewrite E].
  - intros _. exists x. split; [now left|now rewrite E].
Qed.

Section Applicators.
Variable rec : JsonSchema -> string -> rawJSON -> string -> result unit.
Variables (jsonPath rootSchemaId : string) (jsonData : jsonData).

(** X10. "allOf" succeeds exactly when every subschema validates the instance,
    and every error it returns is its own keyword error, whatever error the
    subschema gave. *)
Theorem allOf_all (af : list (option JsonSchema)) (e : error) :
  (allOf_validate rec af jsonPath jsonData rootSchemaId = Ok tt
   <-> Forall (fun s => validates rec jsonData rootSchemaId s = true) af)
  /\ (allOf_validate rec af jsonPath jsonData rootSchemaId = Err e ->
      e = KeywordValidationError "allOf"
            "inspected value could not be validated against all of the given schemas").
Proof.
  unfold allOf_validate. split.
  - rewrite for_each_Ok. apply Forall_iff. intros s. unfold validates.
    destruct (validateJsonData_ptr rec s EmptyString (RawJSON (raw jsonData))
                rootSchemaId) as [[]| | |]; simpl; split; congruence.
  - intros H.
    match type of H with
    | for_each ?body af = _ =>
        destruct (for_each_not_Ok body af) as (s & _ & Hs); [congruence|];
        rewrite Hs in H
    end.
    destruct (validateJsonData_ptr rec s EmptyString (RawJSON (raw jsonData))
                rootSchemaId); congruence.
Qed.

(** X11. "anyOf": when every subschema returns a verdict on the instance, the
    keyword succeeds exactly when one of them validates it, and fails with its
    keyword error otherwise. *)
Theorem anyOf_some (af : list (option JsonSchema)) :
  (forall s, In s af ->
     returned (validateJsonData_ptr rec s EmptyString (RawJSON (raw jsonData))
                 rootSchemaId) = true) ->
  (anyOf_validate rec af jsonPath jsonData rootSchemaId = Ok tt
   <-> exists s, In s af /\ validates rec jsonData rootSchemaId s = true)
  /\ ((forall s, In s af -> validates rec jsonData rootSchemaId s = false) ->
      anyOf_validate rec af jsonPath jsonData rootSchemaId
      = Err (KeywordValidationError "anyOf"
               "inspected value could not be validated against any of the given schemas")).
Proof.
  unfold anyOf_validate, validates.
  induction af as [|s af IH]; intros Hret.
  - split; [split; [discriminate|now intros (s & [] & _)]|reflexivity].
  - assert (Hrest : forall s0, In s0 af ->
              returned (validateJsonData_ptr rec s0 EmptyString
                          (RawJSON (raw jsonData)) rootSchemaId) = true).
    { intros s0 H0. apply Hret. now right. }
    destruct (IH Hrest) as [IH1 IH2].
    pose proof (Hret s (or_introl eq_refl)) as Hs.
    destruct (validateJsonData_ptr rec s EmptyString (RawJSON (raw jsonData))
                rootSchemaId) as [[]| | |] eqn:E; try discriminate.
    + split.
      * split; [|reflexivity]. intros _. exists s. split; [now left|].
        now rewrite E.
      * intros H. specialize (H s (or_introl eq_refl)). rewrite E in H.
        discriminate.
    + split.
      * rewrite IH1. split.
        -- intros (s0 & H0 & Hv). exists s0. split; [now right|exact Hv].
        -- intros (s0 & [<-|H0] & Hv).
           ++ rewrite E in Hv. discriminate.
           ++ now exists s0.
      * intros H. apply IH2. intros s0 H0. apply H. now right.
Qed.

End Applicators.

Lemma anyOf_some_witness :
  (forall s, In s [Some rejectAllJsonSchema; Some zeroJsonSchema] ->
     returned (validateJsonData_ptr (validateJsonData example_lib ∅ 1) s
                 EmptyString (RawJSON (raw (mkJsonData JNull JNull)))
                 EmptyString) = true)
  /\ anyOf_validate (validateJsonData example_lib ∅ 1)
       [Some rejectAllJsonSchema; Some zeroJsonSchema] EmptyString
       (mkJsonData JNull JNull) EmptyString = Ok tt.
Proof.
  assert (H : forall s, In s [Some rejectAllJsonSchema; Some zeroJsonSchema] ->
     returned (validateJsonData_ptr (validateJsonData example_lib ∅ 1) s
                 EmptyString (RawJSON (raw (mkJsonData JNull JNull)))
                 EmptyString) = true).
  { intros s [<-|[<-|[]]]; reflexivity. }
  split; [exact H|].
  apply (proj1 (anyOf_some (validateJsonData example_lib ∅ 1) EmptyString
                  EmptyString (mkJsonData JNull JNull)
                  [Some rejectAllJsonSchema; Some zeroJsonSchema] H)).
  exists (Some zeroJsonSchema). split; [right; now left|reflexivity].
Defined.

Section ObjectAndArrayKeywords.
Variable lib : GoLib.
Variable rec : JsonSchema -> string -> rawJSON -> string -> result unit.
Variables (jsonPath rootSchemaId : string) (raw : json).

(** X12. "required" on an object succeeds exactly when every listed name is a
    property whose value is not [null]: a property that is present with the
    value [null] counts as missing. *)
Theorem required_present_and_not_null
  (r : list string) (object : list (string * json)) :
  required_validate r jsonPath (mkJsonData raw (JObject object)) rootSchemaId
  = Ok tt
  <-> Forall (fun property =>
                exists v, assoc property object = Some v /\ v <> JNull) r.
Proof.
  unfold required_validate. cbn [value]. rewrite for_each_Ok.
  apply Forall_iff. intros property.
  destruct (assoc property object) as [[]|]; split;
    try discriminate; try (intros (v & [= <-] & H)); try congruence;
    try (intros _; eexists; split; [reflexivity|discriminate]).
Qed.

(** X13. "properties" on an object succeeds exactly when every property that
    the schema lists and the object holds validates against its subschema;
    listed properties that the object does not hold are passed over. *)
Theorem properties_validates_present_members
  (p : list (string * option JsonSchema)) (object : list (string * json)) :
  properties_validate rec p jsonPath (mkJsonData raw (JObject object))
    rootSchemaId = Ok tt
  <-> Forall (fun kv : string * option JsonSchema =>
                assoc (fst kv) object <> None ->
                validateJsonData_ptr rec (snd kv) (jsonPath +:+ "/" +:+ fst kv)
                  (RawJSON raw) rootSchemaId = Ok tt) p.
Proof.
  unfold properties_validate. cbn [value jsonvalidator.raw].
  rewrite for_each_Ok. apply Forall_iff. intros [key schema]. cbn [fst snd].
  destruct (assoc key object); split; try congruence.
  intros H. now apply H.
Qed.

(** X14. "enum" succeeds exactly when the text of the instance is the text
    that [json.Marshal] writes for one of the listed values; an empty list
    rejects every instance. *)
Theorem enum_compares_marshalled_text (e : list json) (jsonData : jsonData) :
  enum_validate lib e jsonPath jsonData rootSchemaId = Ok tt
  <-> In (json_Marshal lib (jsonvalidator.raw jsonData)) (map (json_Marshal lib) e).
Proof.
  unfold enum_validate. induction e as [|item e IH]; [split; [discriminate|easy]|].
  cbn [map In].
  destruct (String.eqb_spec (json_Marshal lib item)
              (json_Marshal lib (jsonvalidator.raw jsonData))) as [Heq|Hne].
  - split; [now left|reflexivity].
  - rewrite IH. split; [now right|]. now intros [H|H].
Qed.

Lemma assoc_None {A} (key : string) (m : list (string * A)) :
  assoc key m = None <-> ~ In key (map fst m).
Proof.
  induction m as [|[k v] m IH]; simpl; [tauto|].
  destruct (String.eqb_spec k key) as [->|Hne].
  - split; [discriminate|]. intros H. exfalso. apply H. now left.
  - rewrite IH. split; [|tauto]. intros H [Heq|Hin]; tauto.
Qed.

(** X15. "uniqueItems" on an array succeeds exactly when no two elements have
    the same text under [json.Marshal]. The boolean of the keyword is not
    consulted: the check is made for [false] as for [true]. *)
Theorem uniqueItems_no_duplicate_text (ui : bool) (array : list json) :
  uniqueItems_validate lib ui jsonPath (mkJsonData raw (JArray array))
    rootSchemaId = Ok tt
  <-> List.NoDup (map (json_Marshal lib) array).
Proof.
  unfold uniqueItems_validate. cbn [value].
  assert (Hgen : forall (l : list json) (idx : list Z) (uniqueSet : list (string * Z)),
    length idx = length l ->
    ((fix loop (l : list (Z * json)) (uniqueSet : list (string * Z))
        : result unit :=
        match l with
        | [] => Ok tt
        | (index, item) :: l' =>
            let rawItem := json_Marshal lib item in
            match assoc rawItem uniqueSet with
            | Some v =>
                Err (KeywordValidationError "uniqueItems"
                       ("the inspected array contains two equal items at indices: "
                          +:+ strconv_Itoa v +:+ ", " +:+ strconv_Itoa index))
            | None => loop l' ((rawItem, index) :: uniqueSet)
            end
        end) (combine idx l) uniqueSet = Ok tt
     <-> List.NoDup (map (json_Marshal lib) l)
         /\ forall x, In x (map (json_Marshal lib) l) ->
                      ~ In x (map fst uniqueSet))).
  { induction l as [|item l IH]; intros idx uniqueSet Hlen.
    - destruct idx; [|discriminate]. simpl. split; [|reflexivity].
      intros _. split; [constructor|easy].
    - destruct idx as [|index idx]; [discriminate|].
      injection Hlen as Hlen. cbn [combine map]. cbv zeta.
      destruct (assoc (json_Marshal lib item) uniqueSet) as [v|] eqn:E.
      + split; [discriminate|]. intros [_ H]. exfalso.
        apply (H (json_Marshal lib item)); [now left|].
        destruct (In_dec string_dec (json_Marshal lib item) (map fst uniqueSet))
          as [Hin|Hnot]; [exact Hin|].
        apply assoc_None in Hnot. congruence.
      + apply assoc_None in E. rewrite (IH idx _ Hlen). cbn [map fst].
        rewrite List.NoDup_cons_iff. split.
        * intros [Hnd H]. split; [split; [|exact Hnd]|].
          -- intros Hin. apply (H _ Hin). now left.
          -- intros x [<-|Hin]; [exact E|].
             intros Hx. apply (H x Hin). now right.
        * intros [[Hitem Hnd] H]. split; [exact Hnd|].
          intros x Hin [<-|Hx]; [contradiction|].
          apply (H x); [now right|exact Hx]. }
  rewrite (Hgen array (indices array) []).
  - split; [now intros [H _]|]. intros H. split; [exact H|easy].
  - unfold indices. now rewrite length_map, length_seq.
Qed.

(** X16. "contains" on an array, when the subschema returns a verdict on every
    element: it succeeds exactly when some element validates. *)
Theorem contains_some_element (c : JsonSchema) (array : list json) :
  (forall index, In index (indices array) ->
     returned (rec c (jsonPath +:+ "/" +:+ strconv_Itoa index) (RawJSON raw)
                 rootSchemaId) = true) ->
  contains_validate rec c jsonPath (mkJsonData raw (JArray array)) rootSchemaId
  = Ok tt
  <-> exists index, In index (indices array)
                    /\ rec c (jsonPath +:+ "/" +:+ strconv_Itoa index)
                         (RawJSON raw) rootSchemaId = Ok tt.
Proof.
  unfold contains_validate. cbn [value jsonvalidator.raw].
  induction (indices array) as [|index l IH]; intros Hret.
  - split; [discriminate|now intros (i & [] & _)].
  - pose proof (Hret index (or_introl eq_refl)) as Hi.
    destruct (rec c (jsonPath +:+ "/" +:+ strconv_Itoa index) (RawJSON raw)
                rootSchemaId) as [[]| | |] eqn:E; try discriminate.
    + split; [|reflexivity]. intros _. exists index. split; [now left|exact E].
    + rewrite IH by (intros i H; apply Hret; now right). split.
      * intros (i & Hin & H). exists i. split; [now right|exact H].
      * intros (i & [<-|Hin] & H); [congruence|]. now exists i.
Qed.

(** X17. A "format" that [format.validate] has no case for is not checked: the
    keyword succeeds on every instance. *)
Theorem format_unknown_is_ignored (f : string) (jsonData : jsonData) :
  ~ In f known_formats ->
  format_validate lib f jsonPath jsonData rootSchemaId = Ok tt.
Proof.
  intros H. unfold format_validate.
  destruct (value jsonData); try reflexivity.
  repeat match goal with
         | |- context [String.eqb f ?k] =>
             destruct (String.eqb_spec f k) as [->|_];
             [exfalso; apply H; unfold known_formats;
              repeat first [left; reflexivity | right]|]
         end.
  reflexivity.
Qed.

End ObjectAndArrayKeywords.

Lemma contains_some_element_witness :
  (forall index, In index (indices [JNull]) ->
     returned (validateJsonData example_lib ∅ 1 zeroJsonSchema
                 (EmptyString +:+ "/" +:+ strconv_Itoa index)
                 (RawJSON (JArray [JNull])) EmptyString) = true)
  /\ contains_validate (validateJsonData example_lib ∅ 1) zeroJsonSchema
       EmptyString (mkJsonData (JArray [JNull]) (JArray [JNull])) EmptyString
     = Ok tt.
Proof.
  assert (H : forall index, In index (indices [JNull]) ->
     returned (validateJsonData example_lib ∅ 1 zeroJsonSchema
                 (EmptyString +:+ "/" +:+ strconv_Itoa index)
                 (RawJSON (JArray [JNull])) EmptyString) = true).
  { intros index [<-|[]]. reflexivity. }
  split; [exact H|].
  apply (proj2 (contains_some_element (validateJsonData example_lib ∅ 1)
                  EmptyString EmptyString (JArray [JNull]) zeroJsonSchema
                  [JNull] H)).
  exists 0%Z. split; [now left|reflexivity].
Defined.

Lemma format_unknown_is_ignored_witness :
  ~ In "uuid" known_formats
  /\ format_validate example_lib "uuid" EmptyString
       (mkJsonData (JString "x") (JString "x")) EmptyString = Ok tt.
Proof.
  assert (H : ~ In "uuid" known_formats).
  { intros H. repeat (destruct H as [H|H]; [discriminate|]). destruct H. }
  split; [exact H|].
  apply (format_unknown_is_ignored example_lib EmptyString EmptyString "uuid"
           (mkJsonData (JString "x") (JString "x")) H).
Defined.

(** ** validateJsonData *)

Lemma for_each_never {A} (body : A -> result unit) (l : list A) (r : result unit) :
  r <> Ok tt -> (forall x, body x <> r) -> for_each body l <> r.
Proof.
  intros Hr Hbody. induction l as [|x l IH]; [intros <-; now apply Hr|].
  rewrite for_each_cons. pose proof (Hbody x) as Hx.
  destruct (body x) as [[]| | |]; assumption.
Qed.

Lemma index_slice_cases {A} (v : list A) (index : Z) :
  (exists x, jsonwalker.index_slice v index = Ok x)
  \/ jsonwalker.index_slice v index = Panic "index out of range".
Proof.
  unfold jsonwalker.index_slice. destruct (index <? 0)%Z; [now right|].
  destruct (nth_error v (Z.to_nat index)); [left; eauto|now right].
Qed.

(** X18.  [validateJsonData] never returns a bare [KeywordValidationError],
    at any depth of the schema and through any "$ref": its loop over the
    keywords turns the error of a keyword into a [SchemaValidationError]. *)
Theorem validateJsonData_wraps_keyword_errors
  (lib : GoLib) (pool : rootSchemaPool) (fuel : nat) (js : JsonSchema)
  (jsonPath : string) (bytes : rawJSON) (rootSchemaId : string)
  (keyword reason : string) :
  validateJsonData lib pool fuel js jsonPath bytes rootSchemaId
  <> Err (KeywordValidationError keyword reason).
Proof.
  revert js jsonPath bytes rootSchemaId.
  induction fuel as [|fuel IH]; intros js jsonPath bytes rootSchemaId;
    [discriminate|].
  cbn [validateJsonData]. unfold validateJsonData_body.
  destruct (RejectAll js); [discriminate|].
  destruct (Ref js) as [r|].
  - unfold validateByRef.
    destruct (index_slice_cases (strings_Split r "#") 0) as [[schemaURI ->]| ->];
      [|discriminate].
    destruct (index_slice_cases (strings_Split r "#") 1) as [[fragment ->]| ->];
      [|discriminate].
    cbn [mbind result_bind].
    destruct (pool !! _) as [rootSchema|]; [|discriminate].
    destruct (negb (String.eqb fragment "")); [|apply IH].
    destruct (subSchemaMap rootSchema !! fragment); [apply IH|discriminate].
  - destruct (jsonwalker.NewJsonPointer _); try discriminate.
    destruct (jsonwalker.Evaluate _ bytes); try discriminate.
    apply for_each_never; [discriminate|]. intros validator.
    destruct (validator jsonPath _ rootSchemaId) as [|[]| |]; discriminate.
Qed.

(** X19. A root whose "$ref" is "#" refers to itself: once it is registered in
    the pool under its id, validating against it never returns, whatever the
    instance. *)
Theorem self_reference_never_returns
  (lib : GoLib) (pool : rootSchemaPool) (id : string) (rs : RootJsonSchema)
  (fuel : nat) (jsonPath : string) (bytes : rawJSON) :
  pool !! id = Some rs ->
  RejectAll (root_JsonSchema rs) = false ->
  Ref (root_JsonSchema rs) = Some "#" ->
  validateJsonData lib pool fuel (root_JsonSchema rs) jsonPath bytes id = NoFuel.
Proof.
  intros Hpool Hrej Href. induction fuel as [|fuel IH]; [reflexivity|].
  cbn [validateJsonData]. unfold validateJsonData_body.
  rewrite Hrej, Href. unfold validateByRef.
  change (strings_Split "#" "#") with [EmptyString; EmptyString].
  change (jsonwalker.index_slice [EmptyString; EmptyString] 0)
    with (@Ok string EmptyString).
  change (jsonwalker.index_slice [EmptyString; EmptyString] 1)
    with (@Ok string EmptyString).
  cbn [mbind result_bind String.eqb negb].
  rewrite Hpool. exact IH.
Qed.

Lemma strings_Split_tokens (s : string) (sep : ascii) :
  Forall (fun t => strings_Contains t sep = false) (strings_Split s sep).
Proof.
  induction s as [|c s IH]; simpl; [now repeat constructor|].
  destruct (Ascii.eqb c sep) eqn:E; [now constructor|].
  destruct (strings_Split s sep) as [|x xs].
  - repeat constructor. simpl. now rewrite E.
  - inversion IH as [|? ? Hx Hxs]; subst. constructor; [|exact Hxs].
    simpl. now rewrite E, Hx.
Qed.

Lemma last_Forall {A} (P : A -> Prop) (l : list A) (d : A) :
  P d -> Forall P l -> P (List.last l d).
Proof.
  intros Hd H. induction H as [|x l Hx Hl IH]; [exact Hd|].
  destruct l; [exact Hx|exact IH].
Qed.

(** X20. [validateJsonData] reads the instance through a pointer made of the
    last token of the path: the pointer is always well formed and has one
    token at most, so that the error of a failed pointer creation never
    arises; and bytes that are not JSON come back, from a schema that has
    neither "rejectAll" nor "$ref", as the decoder's error wrapped by the
    evaluation of the pointer. *)
Theorem validateJsonData_pointer_of_last_token
  (lib : GoLib) (pool : rootSchemaPool) (fuel : nat) (js : JsonSchema)
  (jsonPath : string) (err : error) (rootSchemaId : string) :
  (exists jp,
     jsonwalker.NewJsonPointer
       ("/" +:+ List.last (strings_Split jsonPath "/") EmptyString) = Ok jp
     /\ (length jp <= 1)%nat)
  /\ (RejectAll js = false -> Ref js = None ->
      validateJsonData lib pool (S fuel) js jsonPath (BadJSON err) rootSchemaId
      = Err (Wrapped err "JsonPointer evaluation failed")).
Proof.
  assert (Hjp : exists jp,
     jsonwalker.NewJsonPointer
       ("/" +:+ List.last (strings_Split jsonPath "/") EmptyString) = Ok jp
     /\ (length jp <= 1)%nat).
  { pose proof (last_Forall _ _ EmptyString eq_refl
                  (strings_Split_tokens jsonPath "/")) as Hlast.
    cbv beta in Hlast.
    destruct (List.last (strings_Split jsonPath "/") EmptyString) as [|c token].
    - exists []. split; [reflexivity|simpl; lia].
    - exists [String c token]. split; [|simpl; lia].
      change ("/" +:+ String c token) with (String "/" (String c token)).
      unfold jsonwalker.NewJsonPointer.
      cbn [String.eqb Ascii.eqb Bool.eqb andb negb].
      change (String "/" (String c token))
        with (EmptyString +:+ String "/" (String c token)).
      rewrite strings_Split_app by reflexivity.
      now rewrite (strings_Split_without _ _ Hlast). }
  split; [exact Hjp|]. intros Hrej Href.
  destruct Hjp as (jp & Hjp & _).
  cbn [validateJsonData]. unfold validateJsonData_body.
  rewrite Hrej, Href.
  change ("/" +:+ List.last (strings_Split jsonPath "/") EmptyString)
    with (String "/" (List.last (strings_Split jsonPath "/") EmptyString)) in Hjp.
  cbv zeta.
  change ("/" +:+ List.last (strings_Split jsonPath "/") EmptyString)
    with (String "/" (List.last (strings_Split jsonPath "/") EmptyString)).
  rewrite Hjp. reflexivity.
Qed.

Lemma self_reference_never_returns_witness :
  exists pool rs,
    NewRootJsonSchema example_lib 1 ∅
      (RawJSON (JObject [("$id", JString "X"); ("$ref", JString "#")]))
    = (pool, Ok rs)
    /\ pool !! "X" = Some rs
    /\ validateJsonData example_lib pool 7 (root_JsonSchema rs) EmptyString
         (RawJSON JNull) "X" = NoFuel.
Proof.
  eexists _, _.
  split; [vm_compute; reflexivity|]. split; [vm_compute; reflexivity|].
  apply self_reference_never_returns; [vm_compute; reflexivity|reflexivity..].
Defined.

(** ** The pool of root schemas *)

Lemma apply_call_other (rid : string) (pool : rootSchemaPool) (c : mapSubSchemaCall)
  (id : string) :
  id <> rid -> apply_call rid pool c !! id = pool !! id.
Proof.
  intros Hne. unfold apply_call, mapSubSchema.
  destruct (negb (String.eqb (call_schemaPath c) "") && negb (String.eqb rid ""));
    [|reflexivity].
  destruct (pool !! rid) as [rs|]; [|reflexivity].
  destruct (subSchemaMap rs !! call_schemaPath c); [reflexivity|].
  now rewrite lookup_insert_ne.
Qed.

Lemma foldl_apply_call_other (rid : string) (calls : list mapSubSchemaCall)
  (pool : rootSchemaPool) (id : string) :
  id <> rid -> foldl (apply_call rid) pool calls !! id = pool !! id.
Proof.
  intros Hne. revert pool.
  induction calls as [|c calls IH]; intros pool; simpl; [reflexivity|].
  rewrite IH. now apply apply_call_other.
Qed.

Lemma apply_call_grows (rid : string) (pool : rootSchemaPool) (c : mapSubSchemaCall)
  (id : string) (old : RootJsonSchema) :
  pool !! id = Some old ->
  exists new, apply_call rid pool c !! id = Some new /\ grown old new.
Proof.
  intros Hold. destruct (decide (id = rid)) as [->|Hne].
  - unfold apply_call, mapSubSchema.
    destruct (negb (String.eqb (call_schemaPath c) "") && negb (String.eqb rid ""));
      [|exists old; now split].
    rewrite Hold.
    destruct (subSchemaMap old !! call_schemaPath c) eqn:E;
      [exists old; now split|].
    eexists. rewrite lookup_insert_eq. split; [reflexivity|].
    split; [reflexivity|]. simpl. now apply insert_subseteq.
  - exists old. rewrite apply_call_other by exact Hne. now split.
Qed.

Lemma foldl_apply_call_grows (rid : string) (calls : list mapSubSchemaCall)
  (pool : rootSchemaPool) (id : string) (old : RootJsonSchema) :
  pool !! id = Some old ->
  exists new, foldl (apply_call rid) pool calls !! id = Some new /\ grown old new.
Proof.
  revert pool old. induction calls as [|c calls IH]; intros pool old Hold; simpl.
  - exists old. now split.
  - destruct (apply_call_grows rid pool c id old Hold) as (mid & Hmid & [H1 H2]).
    destruct (IH _ _ Hmid) as (new & Hnew & [H3 H4]).
    exists new. split; [exact Hnew|]. split; [congruence|].
    now transitivity (subSchemaMap mid).
Qed.

(** What a call of [NewRootJsonSchema] does to the pool, whatever it
    returns. *)
Lemma NewRootJsonSchema_pool (lib : GoLib) (fuel : nat) (pool : rootSchemaPool)
  (bytes : rawJSON) (pool' : rootSchemaPool) (r : result RootJsonSchema) :
  NewRootJsonSchema lib fuel pool bytes = (pool', r) ->
  (pool' = pool /\ forall v js, bytes = RawJSON v -> UnmarshalJSON v <> Ok js)
  \/ exists v js js' calls,
       bytes = RawJSON v /\ UnmarshalJSON v = Ok js
       /\ pool' = foldl (apply_call (rootSchemaId_of js))
                    (if bool_decide (pool !! rootSchemaId_of js = None)
                     then <[rootSchemaId_of js := mkRootJsonSchema js' ∅]> pool
                     else pool) calls.
Proof.
  unfold NewRootJsonSchema. intros H.
  destruct bytes as [v|err]; [|left; split; [now injection H|discriminate]].
  destruct (UnmarshalJSON v) as [js| | |] eqn:Hdec.
  2-4: left; split; [destruct v; now injection H|];
       intros v0 js0 [= <-]; congruence.
  destruct v as [|b|q|s|l|m]; try discriminate;
    match type of Hdec with
    | UnmarshalJSON ?v = _ =>
        right;
        destruct (scanSchema lib fuel js EmptyString) as [[js' calls] r0];
        exists v, js, js', calls; injection H as <- _; now repeat split
    end.
Qed.

(** X21. Compiling a root never removes or replaces what the pool holds: every
    entry is still there afterwards with the same root schema, and its
    subschema index has the entries it had. *)
Theorem NewRootJsonSchema_pool_grows (lib : GoLib) (fuel : nat)
  (pool : rootSchemaPool) (bytes : rawJSON) (pool' : rootSchemaPool)
  (r : result RootJsonSchema) (id : string) (old : RootJsonSchema) :
  NewRootJsonSchema lib fuel pool bytes = (pool', r) ->
  pool !! id = Some old ->
  exists new,
    pool' !! id = Some new
    /\ root_JsonSchema new = root_JsonSchema old
    /\ subSchemaMap old ⊆ subSchemaMap new.
Proof.
  intros H Hold.
  destruct (NewRootJsonSchema_pool _ _ _ _ _ _ H)
    as [[-> _]|(v & js & js' & calls & _ & _ & ->)].
  - exists old. now repeat split.
  - apply foldl_apply_call_grows. case_bool_decide as Hreg; [|exact Hold].
    rewrite lookup_insert_ne; [exact Hold|]. intros <-. congruence.
Qed.

Lemma NewRootJsonSchema_pool_grows_witness :
  exists pool1 rs1 pool2 rs2,
    NewRootJsonSchema example_lib 3 ∅ (RawJSON schema_B) = (pool1, Ok rs1)
    /\ NewRootJsonSchema example_lib 3 pool1 (RawJSON schema_A) = (pool2, Ok rs2)
    /\ pool1 !! "B" = Some rs1
    /\ exists new,
         pool2 !! "B" = Some new
         /\ root_JsonSchema new = root_JsonSchema rs1
         /\ subSchemaMap rs1 ⊆ subSchemaMap new.
Proof.
  let c1 := eval vm_compute in
              (NewRootJsonSchema example_lib 3 ∅ (RawJSON schema_B)) in
  match c1 with
  | (?p1, Ok ?r1) =>
      let c2 := eval vm_compute in
                  (NewRootJsonSchema example_lib 3 p1 (RawJSON schema_A)) in
      match c2 with
      | (?p2, Ok ?r2) =>
          exists p1, r1, p2, r2;
          assert (H2 : NewRootJsonSchema example_lib 3 p1 (RawJSON schema_A)
                       = (p2, Ok r2)) by (vm_compute; reflexivity);
          assert (H1 : (p1 : rootSchemaPool) !! "B" = Some r1)
            by (vm_compute; reflexivity)
      end
  end.
  split; [vm_compute; reflexivity|]. split; [exact H2|]. split; [exact H1|].
  exact (NewRootJsonSchema_pool_grows _ _ _ _ _ _ "B" _ H2 H1).
Defined.

(** X22. A call of [NewRootJsonSchema] changes the pool under one id at most,
    the id of the root it compiles; when the bytes do not decode to a schema
    it changes nothing. *)
Theorem NewRootJsonSchema_touches_own_id (lib : GoLib) (fuel : nat)
  (pool : rootSchemaPool) (bytes : rawJSON) (pool' : rootSchemaPool)
  (r : result RootJsonSchema) (id : string) :
  NewRootJsonSchema lib fuel pool bytes = (pool', r) ->
  pool' !! id <> pool !! id ->
  exists v js,
    bytes = RawJSON v /\ UnmarshalJSON v = Ok js /\ id = rootSchemaId_of js.
Proof.
  intros H Hne.
  destruct (NewRootJsonSchema_pool _ _ _ _ _ _ H)
    as [[-> _]|(v & js & js' & calls & -> & Hdec & ->)]; [contradiction|].
  exists v, js. repeat split; [exact Hdec|].
  destruct (decide (id = rootSchemaId_of js)) as [Heq|Hother]; [exact Heq|].
  exfalso. apply Hne. rewrite foldl_apply_call_other by exact Hother.
  case_bool_decide; [|reflexivity]. rewrite lookup_insert_ne; congruence.
Qed.

Lemma NewRootJsonSchema_touches_own_id_witness :
  exists pool' rs,
    NewRootJsonSchema example_lib 1 ∅ (RawJSON schema_anonymous_1)
    = (pool', Ok rs)
    /\ pool' !! EmptyString <> (∅ : rootSchemaPool) !! EmptyString
    /\ exists v js,
         RawJSON schema_anonymous_1 = RawJSON v /\ UnmarshalJSON v = Ok js
         /\ EmptyString = rootSchemaId_of js.
Proof.
  let c := eval vm_compute in
             (NewRootJsonSchema example_lib 1 ∅ (RawJSON schema_anonymous_1)) in
  match c with
  | (?p, Ok ?rs) =>
      exists p, rs;
      assert (H : NewRootJsonSchema example_lib 1 ∅ (RawJSON schema_anonymous_1)
                  = (p, Ok rs)) by (vm_compute; reflexivity);
      assert (Hne : (p : rootSchemaPool) !! EmptyString
                    <> (∅ : rootSchemaPool) !! EmptyString)
        by (vm_compute; discriminate)
  end.
  split; [exact H|]. split; [exact Hne|].
  exact (NewRootJsonSchema_touches_own_id _ _ _ _ _ _ _ H Hne).
Defined.

(** X23. The root is put into the pool before it is scanned: when the bytes
    decode to a schema and the scan then fails, the call returns the error and
    the pool holds an entry under the id of the root all the same. *)
Theorem failed_compilation_still_registers (lib : GoLib) (fuel : nat)
  (pool : rootSchemaPool) (v : json) (js : JsonSchema)
  (pool' : rootSchemaPool) (e : error) :
  NewRootJsonSchema lib fuel pool (RawJSON v) = (pool', Err e) ->
  UnmarshalJSON v = Ok js ->
  is_Some (pool' !! rootSchemaId_of js).
Proof.
  intros H Hdec.
  destruct (NewRootJsonSchema_pool _ _ _ _ _ _ H)
    as [[_ Hno]|(v0 & js0 & js' & calls & [= <-] & Hdec0 & ->)].
  - now destruct (Hno v js eq_refl).
  - rewrite Hdec in Hdec0. injection Hdec0 as <-.
    apply fmap_is_Some with (f := root_JsonSchema).
    rewrite foldl_apply_call_root. apply fmap_is_Some.
    case_bool_decide as Hreg; [rewrite lookup_insert_eq; eauto|].
    destruct (pool !! rootSchemaId_of js); [eauto|contradiction].
Qed.

Lemma failed_compilation_still_registers_witness :
  exists js pool' e,
    UnmarshalJSON
      (JObject [("$id", JString "X");
                ("dependencies",
                 JObject [("a", JObject [("minLength", JString "x")])])])
    = Ok js
    /\ NewRootJsonSchema example_lib 1 ∅
         (RawJSON
            (JObject [("$id", JString "X");
                      ("dependencies",
                       JObject [("a", JObject [("minLength", JString "x")])])]))
       = (pool', Err e)
    /\ rootSchemaId_of js = "X"
    /\ is_Some (pool' !! rootSchemaId_of js).
Proof.
  let c := eval vm_compute in
    (UnmarshalJSON
       (JObject [("$id", JString "X");
                 ("dependencies",
                  JObject [("a", JObject [("minLength", JString "x")])])]),
     NewRootJsonSchema example_lib 1 ∅
       (RawJSON
          (JObject [("$id", JString "X");
                    ("dependencies",
                     JObject [("a", JObject [("minLength", JString "x")])])])))
  in
  match c with
  | (Ok ?js, (?p, Err ?e)) =>
      exists js, p, e;
      assert (Hdec : UnmarshalJSON
                (JObject [("$id", JString "X");
                          ("dependencies",
                           JObject [("a", JObject [("minLength", JString "x")])])])
              = Ok js) by (vm_compute; reflexivity);
      assert (H : NewRootJsonSchema example_lib 1 ∅
                (RawJSON
                   (JObject [("$id", JString "X");
                             ("dependencies",
                              JObject [("a", JObject [("minLength", JString "x")])])]))
              = (p, Err e)) by (vm_compute; reflexivity)
  end.
  split; [exact Hdec|]. split; [exact H|]. split; [reflexivity|].
  exact (failed_compilation_still_registers _ _ _ _ _ _ _ H Hdec).
Defined.

(** X24. A root without "$id" gets no subschema index, and a local reference
    under the empty root id does not resolve. When the entry of the pool under
    the empty id has an empty index, as it has in the empty pool, it still has
    one after any compilation, and a "$ref" to a fragment of the current root,
    evaluated under the empty root id, returns an [InvalidReferenceError]. *)
Theorem local_reference_without_id_fails (lib : GoLib) (fuel : nat)
  (pool : rootSchemaPool) (bytes : rawJSON) (pool' : rootSchemaPool)
  (r : result RootJsonSchema) :
  NewRootJsonSchema lib fuel pool bytes = (pool', r) ->
  (forall rs, pool !! EmptyString = Some rs -> subSchemaMap rs = ∅) ->
  (forall rs, pool' !! EmptyString = Some rs -> subSchemaMap rs = ∅)
  /\ forall (rec : JsonSchema -> string -> rawJSON -> string -> result unit)
            (fragment jsonPath : string) (jsonData : rawJSON),
       fragment <> EmptyString -> strings_Contains fragment "#" = false ->
       exists err,
         validateByRef pool' rec ("#" +:+ fragment) jsonPath jsonData EmptyString
         = Err (InvalidReferenceError EmptyString fragment err).
Proof.
  intros H Hpool.
  assert (Hinv : forall rs, pool' !! EmptyString = Some rs -> subSchemaMap rs = ∅).
  { destruct (NewRootJsonSchema_pool _ _ _ _ _ _ H)
      as [[-> _]|(v & js & js' & calls & _ & _ & ->)]; [exact Hpool|].
    clear H. intros rs. destruct (decide (rootSchemaId_of js = EmptyString)) as [->|Hid].
    - rewrite foldl_apply_call_anonymous.
      case_bool_decide; [|apply Hpool].
      rewrite lookup_insert_eq. now intros [= <-].
    - rewrite foldl_apply_call_other by congruence.
      case_bool_decide; [|apply Hpool].
      rewrite lookup_insert_ne by exact Hid. apply Hpool. }
  split; [exact Hinv|].
  intros rec fragment jsonPath jsonData Hfrag Hhash. unfold validateByRef.
  change ("#" +:+ fragment) with (EmptyString +:+ String "#" fragment).
  rewrite strings_Split_app by reflexivity.
  rewrite (strings_Split_without _ _ Hhash).
  change (jsonwalker.index_slice [EmptyString; fragment] 0)
    with (@Ok string EmptyString).
  change (jsonwalker.index_slice [EmptyString; fragment] 1)
    with (@Ok string fragment).
  cbn [mbind result_bind String.eqb].
  destruct (pool' !! EmptyString) as [rs|] eqn:E; [|eauto].
  destruct (String.eqb_spec fragment EmptyString) as [|_]; [contradiction|].
  cbn [negb]. rewrite (Hinv rs eq_refl), lookup_empty. eauto.
Qed.

Lemma local_reference_without_id_fails_witness :
  exists pool' rs,
    NewRootJsonSchema example_lib 2 ∅ (RawJSON schema_without_id) = (pool', Ok rs)
    /\ (forall rs, (∅ : rootSchemaPool) !! EmptyString = Some rs ->
                   subSchemaMap rs = ∅)
    /\ exists err,
         validateByRef pool' (validateJsonData example_lib pool' 1)
           ("#" +:+ "/properties/a") EmptyString (RawJSON JNull) EmptyString
         = Err (InvalidReferenceError EmptyString "/properties/a" err).
Proof.
  let c := eval vm_compute in
             (NewRootJsonSchema example_lib 2 ∅ (RawJSON schema_without_id)) in
  match c with
  | (?p, Ok ?rs) =>
      exists p, rs;
      assert (H : NewRootJsonSchema example_lib 2 ∅ (RawJSON schema_without_id)
                  = (p, Ok rs)) by (vm_compute; reflexivity)
  end.
  assert (Hempty : forall rs, (∅ : rootSchemaPool) !! EmptyString = Some rs ->
                              subSchemaMap rs = ∅).
  { intros rs0 H0. rewrite lookup_empty in H0. discriminate. }
  split; [exact H|]. split; [exact Hempty|].
  apply (proj2 (local_reference_without_id_fails _ _ _ _ _ _ H Hempty));
    [discriminate|reflexivity].
Defined.

(** X25. [connectRelatedKeywords] is idempotent: connecting a schema that is
    connected changes nothing. *)
Theorem connectRelatedKeywords_idempotent (js : JsonSchema) :
  connectRelatedKeywords (connectRelatedKeywords js) = connectRelatedKeywords js.
Proof.
  destruct js. unfold connectRelatedKeywords. cbn.
  repeat match goal with
         | |- context [match ?o with Some _ => _ | None => _ end] =>
             is_var o; destruct o as [[]|]
         end; cbn;
    repeat match goal with
           | |- context [not_nil ?o] => is_var o; destruct o
           end; reflexivity.
Qed.

(** X26. [NewJsonSchema] leaves the pool as it is, and when
    [NewRootJsonSchema] compiles the same bytes, the schema it returns is the
    schema of that root. *)
Theorem NewJsonSchema_is_the_root_schema (lib : GoLib) (fuel : nat)
  (pool : rootSchemaPool) (bytes : rawJSON) :
  fst (NewJsonSchema lib fuel pool bytes) = pool
  /\ forall pool' rs,
       NewRootJsonSchema lib fuel pool bytes = (pool', Ok rs) ->
       snd (NewJsonSchema lib fuel pool bytes) = Ok (root_JsonSchema rs).
Proof.
  split.
  - unfold NewJsonSchema. destruct bytes as [v|err]; [|reflexivity].
    destruct (UnmarshalJSON v) as [js| | |]; try (destruct v; reflexivity).
    destruct v; try reflexivity;
      destruct (scanSchema lib fuel js EmptyString) as [[js' calls] r0];
      cbn [fst]; apply foldl_apply_call_anonymous.
  - intros pool' rs H.
    destruct (NewRootJsonSchema_Ok _ _ _ _ _ _ H)
      as (v & js & js' & calls & -> & Hdec & Hscan & Hpool & Hrs).
    assert (Hroot : root_JsonSchema rs = js').
    { subst rs. case_bool_decide as Hreg; [|reflexivity].
      pose proof (foldl_apply_call_root (rootSchemaId_of js) calls
                    (<[rootSchemaId_of js := mkRootJsonSchema js' ∅]> pool)
                    (rootSchemaId_of js)) as Hr.
      rewrite <- Hpool, lookup_insert_eq in Hr.
      destruct (pool' !! rootSchemaId_of js) as [x|]; simpl in Hr |- *;
        [now injection Hr|reflexivity]. }
    unfold NewJsonSchema. rewrite Hdec, Hscan, Hroot.
    destruct v; try reflexivity. discriminate.
Qed.

Lemma allOf_all_witness :
  allOf_validate (validateJsonData example_lib ∅ 1)
    [Some zeroJsonSchema; Some rejectAllJsonSchema] EmptyString
    (mkJsonData JNull JNull) EmptyString
  = Err (KeywordValidationError "allOf"
           "inspected value could not be validated against all of the given schemas")
  /\ KeywordValidationError "allOf"
       "inspected value could not be validated against all of the given schemas"
     = KeywordValidationError "allOf"
         "inspected value could not be validated against all of the given schemas".
Proof.
  assert (H : allOf_validate (validateJsonData example_lib ∅ 1)
                [Some zeroJsonSchema; Some rejectAllJsonSchema] EmptyString
                (mkJsonData JNull JNull) EmptyString
              = Err (KeywordValidationError "allOf"
                       "inspected value could not be validated against all of the given schemas"))
    by reflexivity.
  split; [exact H|].
  exact (proj2 (allOf_all (validateJsonData example_lib ∅ 1) EmptyString
                  EmptyString (mkJsonData JNull JNull)
                  [Some zeroJsonSchema; Some rejectAllJsonSchema] _) H).
Defined.

Section Items.
Variable rec : JsonSchema -> string -> rawJSON -> string -> result unit.
Variables (jsonPath rootSchemaId : string) (raw : json).

(** X27. "items" on an array. When the keyword holds one schema, it succeeds
    exactly when the schema validates every element. When it holds a list of
    schemas, an array with fewer elements than the list is rejected, before
    any element is looked at. *)
Theorem items_on_arrays (array : list json) :
  (forall m schema,
     UnmarshalJSON (JObject m) = Ok schema ->
     items_validate rec (JObject m) jsonPath (mkJsonData raw (JArray array))
       rootSchemaId = Ok tt
     <-> Forall (fun index =>
                   rec schema (jsonPath +:+ "/" +:+ strconv_Itoa index)
                     (RawJSON raw) rootSchemaId = Ok tt) (indices array))
  /\ (forall itemsField,
        (length array < length itemsField)%nat ->
        exists reason,
          items_validate rec (JArray itemsField) jsonPath
            (mkJsonData raw (JArray array)) rootSchemaId
          = Err (KeywordValidationError "items" reason)).
Proof.
  split.
  - intros m schema Hdec. unfold items_validate.
    cbn [value jsonvalidator.raw]. rewrite Hdec. cbn [mbind result_bind].
    apply for_each_Ok.
  - intros itemsField Hlen. unfold items_validate. cbn [value].
    apply Nat.ltb_lt in Hlen. rewrite Hlen. eauto.
Qed.

End Items.

Lemma items_on_arrays_witness :
  (length [JNull] < length [JBool true; JBool true])%nat
  /\ exists reason,
       items_validate (validateJsonData example_lib ∅ 1)
         (JArray [JBool true; JBool true]) EmptyString
         (mkJsonData (JArray [JNull]) (JArray [JNull])) EmptyString
       = Err (KeywordValidationError "items" reason).
Proof.
  assert (Hlen : (length [JNull] < length [JBool true; JBool true])%nat)
    by (simpl; lia).
  split; [exact Hlen|].
  exact (proj2 (items_on_arrays (validateJsonData example_lib ∅ 1) EmptyString
                  EmptyString (JArray [JNull]) [JNull])
           [JBool true; JBool true] Hlen).
Defined.

Lemma validateJsonData_pointer_of_last_token_witness :
  (RejectAll zeroJsonSchema = false /\ Ref zeroJsonSchema = None)
  /\ validateJsonData example_lib ∅ 1 zeroJsonSchema "/a/b"
       (BadJSON (ErrorString "unexpected end of JSON input")) EmptyString
     = Err (Wrapped (ErrorString "unexpected end of JSON input")
              "JsonPointer evaluation failed").
Proof.
  split; [split; reflexivity|].
  apply (proj2 (validateJsonData_pointer_of_last_token example_lib ∅ 0
                  zeroJsonSchema "/a/b"
                  (ErrorString "unexpected end of JSON input") EmptyString));
    reflexivity.
Defined.

Lemma NewJsonSchema_is_the_root_schema_witness :
  exists pool' rs,
    NewRootJsonSchema example_lib 3 ∅ (RawJSON schema_with_id) = (pool', Ok rs)
    /\ snd (NewJsonSchema example_lib 3 ∅ (RawJSON schema_with_id))
       = Ok (root_JsonSchema rs).
Proof.
  let c := eval vm_compute in
             (NewRootJsonSchema example_lib 3 ∅ (RawJSON schema_with_id)) in
  match c with
  | (?p, Ok ?rs) =>
      exists p, rs;
      assert (H : NewRootJsonSchema example_lib 3 ∅ (RawJSON schema_with_id)
                  = (p, Ok rs)) by (vm_compute; reflexivity)
  end.
  split; [exact H|].
  exact (proj2 (NewJsonSchema_is_the_root_schema example_lib 3 ∅
                  (RawJSON schema_with_id)) _ _ H).
Defined.

Section MoreKeywords.
Variable lib : GoLib.
Variable rec : JsonSchema -> string -> rawJSON -> string -> result unit.
Variables (jsonPath rootSchemaId : string) (raw : json).

Lemma assertJsonType_outcome (jsonType : string) (v : json) :
  assertJsonType jsonType v = Ok tt
  \/ exists e, assertJsonType jsonType v = Err e.
Proof.
  unfold assertJsonType.
  repeat match goal with
         | |- context [if String.eqb jsonType ?t then _ else _] =>
             destruct (String.eqb jsonType t)
         end;
    try (destruct v; eauto; fail); eauto.
  destruct v; eauto. destruct (float_is_int q); eauto.
Qed.

(** X28.  "type" with a list of type names succeeds exactly when the
    instance is of one of the listed types; an empty list rejects every
    instance. *)
Theorem type_list_any (types : list string) (jsonData : jsonData) :
  _type_validate (JArray (map JString types)) jsonPath jsonData rootSchemaId
  = Ok tt
  <-> exists t, In t types /\ assertJsonType t (value jsonData) = Ok tt.
Proof.
  unfold _type_validate.
  induction types as [|t types IH]; cbn [map].
  - split; [discriminate|now intros (t & [] & _)].
  - destruct (assertJsonType_outcome t (value jsonData)) as [H|[e H]]; rewrite H.
    + split; [|reflexivity]. intros _. exists t. split; [now left|exact H].
    + rewrite IH. split.
      * intros (t0 & Hin & H0). exists t0. split; [now right|exact H0].
      * intros (t0 & [<-|Hin] & H0); [congruence|]. now exists t0.
Qed.

Lemma Forall_combine_snd {A B} (Q : B -> Prop) (idx : list A) (l : list B) :
  length idx = length l ->
  Forall (fun iv : A * B => Q (snd iv)) (combine idx l) <-> Forall Q l.
Proof.
  revert idx. induction l as [|x l IH]; intros [|i idx] Hlen; try discriminate.
  - split; constructor.
  - injection Hlen as Hlen. cbn [combine]. rewrite !Forall_cons, (IH idx Hlen).
    reflexivity.
Qed.

(** X29.  "dependencies" whose values are lists of property names, on an
    object: the keyword succeeds exactly when all the names of all the lists
    are properties of the object.  Whether the object holds the key of a
    dependency is not looked at: the names are demanded also when it does
    not. *)
Theorem dependencies_lists_demand_their_names
  (d : list (string * list string)) (object : list (string * json)) :
  dependencies_validate rec
    (map (fun kn : string * list string =>
            (fst kn, DepValue (JArray (map JString (snd kn))))) d)
    jsonPath (mkJsonData raw (JObject object)) rootSchemaId = Ok tt
  <-> Forall (fun kn : string * list string =>
                Forall (fun name => assoc name object <> None) (snd kn)) d.
Proof.
  unfold dependencies_validate. cbn [value]. rewrite for_each_Ok, Forall_map.
  apply Forall_iff. intros [key names]. cbn [fst snd].
  rewrite for_each_Ok.
  rewrite <- (Forall_map JString (fun v => match v with
                                          | JString name => assoc name object <> None
                                          | _ => False
                                          end) names).
  rewrite <- (Forall_combine_snd _ (indices (map JString names)) (map JString names)).
  - apply Forall_iff. intros [index [| | |name| |]]; cbn [snd];
      try (split; [discriminate|contradiction]).
    destruct (assoc name object); split; congruence.
  - unfold indices. now rewrite length_map, length_seq.
Qed.

(** X30.  "additionalProperties" on an object, when its pointer to a
    sibling "patternProperties" is not set: the keyword succeeds exactly
    when its schema validates every property of the object that a
    connected sibling "properties" does not list. *)
Theorem additionalProperties_validates_unlisted_members
  (js : JsonSchema) (ap : additionalProperties) (object : list (string * json)) :
  siblingPatternProperties ap = false ->
  additionalProperties_validate lib rec js ap jsonPath
    (mkJsonData raw (JObject object)) rootSchemaId = Ok tt
  <-> Forall (fun property =>
                (siblingProperties ap = true
                 /\ exists p, Properties js = Some p
                              /\ assoc property p <> None)
                \/ rec (additionalProperties_JsonSchema ap)
                     (jsonPath +:+ "/" +:+ property) (RawJSON raw) rootSchemaId
                   = Ok tt) (map fst object).
Proof.
  intros Hpp. unfold additionalProperties_validate.
  cbn [value jsonvalidator.raw]. rewrite for_each_Ok, Hpp.
  apply Forall_iff. intros property. cbn [mbind result_bind negb andb].
  destruct (siblingProperties ap).
  - destruct (Properties js) as [p|].
    + destruct (assoc property p) as [s|] eqn:E.
      * rewrite bool_decide_eq_true_2 by eauto. cbn [negb andb].
        split; [|reflexivity]. intros _. left. split; [reflexivity|].
        exists p. split; [reflexivity|congruence].
      * rewrite bool_decide_eq_false_2 by (intros [x Hx]; discriminate).
        cbn [negb andb].
        destruct (rec (additionalProperties_JsonSchema ap) _ _ _) as [[]| | |];
          split; try discriminate; try (intros _; now right);
          intros [(_ & p0 & [= <-] & Hp)|H]; congruence.
    + cbn [negb andb].
      destruct (rec (additionalProperties_JsonSchema ap) _ _ _) as [[]| | |];
        split; try discriminate; try (intros _; now right);
        intros [(_ & p0 & Hp & _)|H]; congruence.
  - cbn [negb andb].
    destruct (rec (additionalProperties_JsonSchema ap) _ _ _) as [[]| | |];
      split; try discriminate; try (intros _; now right);
      intros [(Hs & _)|H]; congruence.
Qed.

End MoreKeywords.

Lemma additionalProperties_validates_unlisted_members_witness :
  exists pool rs ap,
    NewRootJsonSchema example_lib 2 ∅
      (RawJSON (JObject [("properties", JObject [("a", JBool false)]);
                         ("additionalProperties", JBool false)]))
    = (pool, Ok rs)
    /\ AdditionalProperties (root_JsonSchema rs) = Some ap
    /\ siblingPatternProperties ap = false
    /\ additionalProperties_validate example_lib
         (validateJsonData example_lib pool 1) (root_JsonSchema rs) ap
         EmptyString
         (mkJsonData (JObject [("a", JNull)]) (JObject [("a", JNull)]))
         EmptyString = Ok tt.
Proof.
  let c := eval vm_compute in
    (NewRootJsonSchema example_lib 2 ∅
       (RawJSON (JObject [("properties", JObject [("a", JBool false)]);
                          ("additionalProperties", JBool false)]))) in
  match c with
  | (?p, Ok ?rs) =>
      let a := eval vm_compute in (AdditionalProperties (root_JsonSchema rs)) in
      match a with
      | Some ?ap => exists p, rs, ap
      end
  end.
  split; [vm_compute; reflexivity|]. split; [reflexivity|].
  split; [reflexivity|].
  match goal with
  | |- additionalProperties_validate _ ?rec ?js ?ap _ _ _ = _ =>
      apply (proj2 (additionalProperties_validates_unlisted_members
                      example_lib rec EmptyString EmptyString
                      (JObject [("a", JNull)]) js ap [("a", JNull)] eq_refl))
  end.
  constructor; [|constructor]. left. split; [reflexivity|].
  eexists. split; [reflexivity|discriminate].
Defined.
